(** * Playback engine of the interaction recorder (src/playback.js)

    A shallow embedding of class [InteractionPlayback]: the recording data
    model, the timing scheduler, the per-kind dispatchers with their selector
    fallback chains, the per-event handler and the playback loop; and of
    the command line around it ([initialize], [stop] and [main]).

    JavaScript numbers are exact rationals ([Q]); a record field that may be
    missing is a [jsstr] ([undefined], [null], a string, or any other value);
    what is loaded is what [JSON.parse] gave, [null] or an object whose
    [interactions] array may be missing or hold [null] entries ([Parsed]), a
    recording of the documented shape ([Recording]) being one of these; the
    browser, the file system and [JSON.parse] are
    an interface ([Host]) that the code is parametrised by, each call of
    which may succeed or throw; everything the program does to the outside
    (console output, Puppeteer calls, DOM writes made by [page.evaluate]
    callbacks, timer waits) is appended to a trace in program order. *)

From Stdlib Require Import String Ascii List Bool Arith ZArith QArith Qminmax Qround Lia Lqa.
Import ListNotations.

Local Open Scope string_scope.
Local Open Scope list_scope.

(** ** JavaScript values used by the recording *)

(** A field of a parsed JSON object that the code uses as a string: absent,
    [null], a string, or any other value (a number, a boolean, an array or an
    object, as the recorder writes for the [className] of an svg element).
    Of another value the code only uses whether it is truthy and the text a
    template literal prints for it; a call that is handed one is handed that
    text. *)
Inductive jsstr : Type :=
| JUndefined
| JNull
| JStr (s : string)
| JOther (truthy : bool) (text : string).

(** [Boolean(v)]: [undefined], [null] and the empty string are falsy. *)
Definition truthy (v : jsstr) : bool :=
  match v with
  | JStr s => negb (String.eqb s EmptyString)
  | JOther b _ => b
  | _ => false
  end.

(** What a template literal [`${v}`] prints. *)
Definition to_template (v : jsstr) : string :=
  match v with
  | JUndefined => "undefined"
  | JNull => "null"
  | JStr s => s
  | JOther _ text => text
  end.

(** [a !== b] for a string [a] and a field [b]. *)
Definition strict_neq (a : string) (b : jsstr) : bool :=
  match b with
  | JStr s => negb (String.eqb a s)
  | _ => true
  end.

(** The double-quote character, for [[name="..."]] selectors. *)
Definition dquote : string := String (ascii_of_nat 34) EmptyString.

(** [String.prototype.split(sep)] for a one-character separator. *)
Fixpoint split_from (sep : ascii) (acc : string) (s : string) : list string :=
  match s with
  | EmptyString => [acc]
  | String c rest =>
      if Ascii.eqb c sep then acc :: split_from sep EmptyString rest
      else split_from sep (acc ++ String c EmptyString) rest
  end.

Definition split (sep : ascii) (s : string) : list string :=
  split_from sep EmptyString s.

(** [Array.prototype.join(sep)]. *)
Fixpoint join (sep : string) (l : list string) : string :=
  match l with
  | [] => EmptyString
  | [x] => x
  | x :: rest => x ++ sep ++ join sep rest
  end.

(** [String.prototype.toLowerCase] on ASCII letters. *)
Definition lower_ascii (c : ascii) : ascii :=
  let n := nat_of_ascii c in
  if (65 <=? n)%nat && (n <=? 90)%nat then ascii_of_nat (n + 32) else c.

Fixpoint toLowerCase (s : string) : string :=
  match s with
  | EmptyString => EmptyString
  | String c rest => String (lower_ascii c) (toLowerCase rest)
  end.

(** [Array.prototype.filter(Boolean)] on an array of fields: keeps the truthy
    entries. *)
Definition filter_Boolean (l : list jsstr) : list string :=
  flat_map (fun v => if truthy v then [to_template v] else []) l.

(** [Math.max] and [Math.round] on finite numbers. *)
Definition Math_max (a b : Q) : Q := if Qle_bool a b then b else a.

Definition Math_round (x : Q) : Z := Qfloor (x + (1 # 2)).

(** ** Data model *)

(** One recorded interaction (a JSON object of the [interactions] array).
    [type] is the text of the field (a type that is [null] or missing
    matches no case of the [switch], like the string that is printed for
    it); [timestamp], [checked] and [coordinates] are absent or of the type
    the recorder writes (a number, a boolean, a pair of numbers). *)
Record Interaction : Type := {
  type : string;
  timestamp : option Q;
  url : jsstr;
  tagName : jsstr;
  id : jsstr;
  className : jsstr;
  name : jsstr;
  selector : jsstr;
  value : jsstr;
  checked : option bool;
  coordinates : option (Q * Q)
}.

(** A recording of the documented shape: the file the recorder writes. *)
Record Recording : Type := {
  sessionId : string;
  startTime : string;
  endTime : string;
  totalInteractions : Z;
  interactions : list Interaction
}.

(** What [JSON.parse] gives for the text of a recording file when it is not
    [null]. Nothing in the class checks the shape of the value: the
    [interactions] property may be missing ([None]), and an entry of the
    array may be [null] ([None]). The header fields are only printed and are
    kept at their documented types. *)
Record Parsed : Type := {
  parsed_sessionId : string;
  parsed_startTime : string;
  parsed_endTime : string;
  parsed_totalInteractions : Z;
  parsed_interactions : option (list (option Interaction))
}.

(** A recording of the documented shape, as a parsed value. *)
Definition documented (r : Recording) : Parsed :=
  {| parsed_sessionId := sessionId r;
     parsed_startTime := startTime r;
     parsed_endTime := endTime r;
     parsed_totalInteractions := totalInteractions r;
     parsed_interactions := Some (map Some (interactions r)) |}.

(** ** Observable behaviour *)

(** Console messages, one constructor per template in playback.js. *)
Inductive Msg : Type :=
| MLoaded (sessionId : string)                       (* Loaded recording: ... *)
| MTotal (total : Z)                                 (* Total interactions: ... *)
| MDuration (startTime endTime : string)             (* Duration: ... - ... *)
| MSpeedSet (speed : Q)                              (* Playback speed set to: ...x *)
| MPlaying (number : nat) (total : Z) (kind : string) (url : jsstr)
                                                     (* [n/total] Playing: kind on url *)
| MRefreshDetached                                   (* Refreshing page reference due to detached frame *)
| MNavigatingTo (url : string)                       (* Navigating to: ... *)
| MNavFailedContinue                                 (* Navigation failed, continuing with current page *)
| MUnsupported (kind : string)                       (* Skipping unsupported interaction type: ... *)
| MErrorPlaying (number : nat) (message : string)    (* Error playing interaction n: message *)
| MNavigated (url : string)                          (* Navigated to: ... *)
| MNavigationFailed (message : string)               (* Navigation failed: message *)
| MClicked (sel : string)                            (* Clicked: ... *)
| MClickedAt (x y : Q)                               (* Clicked at coordinates: (x, y) *)
| MCouldNotClickAt (message : string)                (* Could not click at coordinates: message *)
| MCouldNotClick (sel : jsstr)                       (* Could not click element: ... *)
| MTyped (text : string) (sel : string)              (* Typed "..." in: ... *)
| MCouldNotType (sel : jsstr)                        (* Could not type in element: ... *)
| MSelected (v : jsstr) (sel : string)               (* Selected "..." in: ... *)
| MChanged (v : jsstr) (sel : string)                (* Changed value to "..." in: ... *)
| MToggled (shouldBeChecked : bool) (sel : string)   (* Checked: ... / Unchecked: ... *)
| MSetRange (v : jsstr) (sel : jsstr)                (* Set range to "...": ... *)
| MSubmitted (sel : jsstr)                           (* Submitted form: ... *)
| MWarnNotFound (sel : jsstr)                        (* Warning: Element not found within timeout: ... *)
| MUnresponsive                                      (* Page became unresponsive, refreshing reference *)
| MStarting (total : Z) (speed : Q)                  (* Starting playback of ... interactions at ...x speed... *)
| MPressCtrlC                                        (* Press Ctrl+C to stop playback *)
| MWaiting (ms : Z)                                  (* Waiting ...ms... *)
| MCompleted.                                        (* Playback completed successfully! *)

(** Calls made on the Puppeteer handles. *)
Inductive Call : Type :=
| CPages                                             (* browser.pages() *)
| CUrl                                               (* page.url() *)
| CGoto (url : string)                               (* page.goto(url, ...) *)
| CQuery (sel : string)                              (* page.$(sel) *)
| CClick (sel : string)                              (* page.click(sel) *)
| CFocus (sel : string)                              (* page.focus(sel) *)
| CKeyDown (key : string)                            (* page.keyboard.down(key) *)
| CKeyPress (key : string)                           (* page.keyboard.press(key) *)
| CKeyUp (key : string)                              (* page.keyboard.up(key) *)
| CType (sel : string) (text : string)               (* page.type(sel, text, ...) *)
| CSelect (sel : string) (v : jsstr)                 (* page.select(sel, v) *)
| CEvalChecked (sel : string)                        (* page.$eval(sel, el => el.checked) *)
| CEvaluate                                          (* page.evaluate(callback, ...) *)
| CWaitForSelector (sel : jsstr) (timeout : Q)       (* page.waitForSelector(sel, ...) *)
| CMouseClick (x y : Q).                             (* page.mouse.click(x, y) *)

(** Writes made inside the page by a [page.evaluate] callback. *)
Inductive DomOp : Type :=
| DSetValue (sel : string) (v : jsstr)               (* element.value = v *)
| DDispatch (sel : string) (event : string)          (* element.dispatchEvent(new Event(event, ...)) *)
| DSubmit (sel : string).                            (* element.submit() *)

Inductive Event : Type :=
| ConsoleLog (m : Msg)
| ConsoleError (m : Msg)
| Invoke (c : Call)
| Dom (d : DomOp)
| Sleep (ms : Q).                                    (* await new Promise(r => setTimeout(r, ms)) *)

(** Outcome of a call that may throw; [Throw] carries [error.message]. *)
Inductive Result (A : Type) : Type :=
| Ok (a : A)
| Throw (message : string).

Arguments Ok {A} a.
Arguments Throw {A} message.

Definition is_Throw {A : Type} (r : Result A) : bool :=
  match r with
  | Ok _ => false
  | Throw _ => true
  end.

(** ** The host environment

    Node's [fs] and [JSON], and the Puppeteer browser: [W] is the state of
    the outside world, [Browser], [Page] and [Element] are its handles. A
    call returns its outcome and the world after it. [JSON_parse] is
    [JSON.parse] on the text of a recording file ([Ok None] for the text
    [null]); [page_query] is [page.$],
    [page_eval_checked] is [page.$eval(selector, el => el.checked)] (the
    state is [None] for an element without the property), [page_evaluate]
    is the round trip of [page.evaluate] before its callback runs, and the
    [document_] and [element_] fields are what the callbacks use. *)
Class Host : Type := {
  W : Type;
  Browser : Type;
  Page : Type;
  Element : Type;
  fs_existsSync : string -> W -> bool;
  fs_readFileSync : string -> W -> Result string;
  JSON_parse : string -> Result (option Parsed);
  browser_pages : Browser -> W -> Result (list Page) * W;
  page_url : Page -> W -> Result string * W;
  page_goto : Page -> string -> W -> Result unit * W;
  page_query : Page -> string -> W -> Result (option Element) * W;
  page_click : Page -> string -> W -> Result unit * W;
  page_focus : Page -> string -> W -> Result unit * W;
  keyboard_down : Page -> string -> W -> Result unit * W;
  keyboard_press : Page -> string -> W -> Result unit * W;
  keyboard_up : Page -> string -> W -> Result unit * W;
  page_type : Page -> string -> string -> W -> Result unit * W;
  page_select : Page -> string -> jsstr -> W -> Result unit * W;
  page_eval_checked : Page -> string -> W -> Result (option bool) * W;
  page_evaluate : Page -> W -> Result unit * W;
  page_waitForSelector : Page -> jsstr -> Q -> W -> Result unit * W;
  mouse_click : Page -> Q -> Q -> W -> Result unit * W;
  document_querySelector : Page -> string -> W -> Result (option Element);
  element_tagName : Element -> W -> string;
  element_set_value : Element -> jsstr -> W -> W;
  element_dispatchEvent : Element -> string -> W -> W;
  element_submit : Element -> W -> W
}.

Section Playback.

Context `{host : Host}.

(** ** The playback object and the machine state *)

(** The fields of [InteractionPlayback], the world and the trace. *)
Record State : Type := mkState {
  browser : option Browser;
  page : option Page;
  playbackSpeed : Q;
  recording : option Parsed;
  world : W;
  trace : list Event
}.

(** [new InteractionPlayback()]. *)
Definition constructor (w : W) : State :=
  mkState None None 1 None w [].

Definition add_event (e : Event) (s : State) : State :=
  mkState (browser s) (page s) (playbackSpeed s) (recording s) (world s) (trace s ++ [e]).

Definition set_world (w : W) (s : State) : State :=
  mkState (browser s) (page s) (playbackSpeed s) (recording s) w (trace s).

Definition set_page (p : option Page) (s : State) : State :=
  mkState (browser s) p (playbackSpeed s) (recording s) (world s) (trace s).

Definition set_recording (r : option Parsed) (s : State) : State :=
  mkState (browser s) (page s) (playbackSpeed s) r (world s) (trace s).

Definition set_playbackSpeed (q : Q) (s : State) : State :=
  mkState (browser s) (page s) q (recording s) (world s) (trace s).

(** ** A state and exception monad

    A computation runs on the state and either returns or throws; the state
    it leaves behind is kept in both cases (a thrown error undoes nothing). *)
Definition M (A : Type) : Type := State -> Result A * State.

Definition ret {A : Type} (a : A) : M A := fun s => (Ok a, s).

Definition throw {A : Type} (message : string) : M A := fun s => (Throw message, s).

Definition bind {A B : Type} (m : M A) (k : A -> M B) : M B :=
  fun s =>
    match m s with
    | (Ok a, s') => k a s'
    | (Throw e, s') => (Throw e, s')
    end.

(** [try { m } catch (error) { h error }]. *)
Definition try_catch {A : Type} (m : M A) (h : string -> M A) : M A :=
  fun s =>
    match m s with
    | (Ok a, s') => (Ok a, s')
    | (Throw e, s') => h e s'
    end.

Definition gets {A : Type} (f : State -> A) : M A := fun s => (Ok (f s), s).

Definition modify (f : State -> State) : M unit := fun s => (Ok tt, f s).

Definition emit (e : Event) : M unit := modify (add_event e).

Definition console_log (m : Msg) : M unit := emit (ConsoleLog m).

Definition console_error (m : Msg) : M unit := emit (ConsoleError m).

Definition setTimeout (ms : Q) : M unit := emit (Sleep ms).

(** A method call on a handle: the call is recorded, then the world answers. *)
Definition invoke {A : Type} (c : Call) (f : W -> Result A * W) : M A :=
  fun s =>
    let (r, w) := f (world s) in
    (r, add_event (Invoke c) (set_world w s)).

(** Lifting a value that is either there or an exception. *)
Definition lift {A : Type} (r : Result A) : M A := fun s => (r, s).

(** A write made inside the page. *)
Definition dom_write (d : DomOp) (f : W -> W) : M unit :=
  fun s => (Ok tt, add_event (Dom d) (set_world (f (world s)) s)).

Notation "x <- m ;; k" := (bind m (fun x => k))
  (at level 61, m at next level, right associativity).
Notation "m ;; k" := (bind m (fun _ => k))
  (at level 61, right associativity).

(** [this.page.f(...)]: a [TypeError] when [this.page] is [null] or
    [undefined]. *)
Definition with_page {A : Type} (k : Page -> M A) : M A :=
  fun s =>
    match page s with
    | Some p => k p s
    | None => (Throw "Cannot read properties of null", s)
    end.

(** [this.browser.f(...)]. *)
Definition with_browser {A : Type} (k : Browser -> M A) : M A :=
  fun s =>
    match browser s with
    | Some b => k b s
    | None => (Throw "Cannot read properties of null", s)
    end.

(** [this.page = pages[pages.length - 1]] after [pages = await
    this.browser.pages()]: [undefined] when the list is empty. *)
Definition refresh_page : M unit :=
  pages <- with_browser (fun b => invoke CPages (browser_pages b)) ;;
  modify (set_page (nth_error pages (length pages - 1))).

(** [page.evaluate(callback, ...)]: the call itself may fail (closed page,
    destroyed context); otherwise the callback runs inside the page and an
    exception it throws rejects the call. *)
Definition evaluate {A : Type} (callback : Page -> M A) : M A :=
  with_page (fun p => invoke CEvaluate (page_evaluate p) ;; callback p).

(** [document.querySelector(selector)] inside a callback. *)
Definition querySelector (p : Page) (sel : string) : M (option Element) :=
  fun s => (document_querySelector p sel (world s), s).

(** ** Operations of InteractionPlayback *)

(** [this.recording.property]: a [TypeError] that names the property when
    [this.recording] is [null]. *)
Definition read_recording {A : Type} (property : string) (field : Parsed -> A) : M A :=
  fun s =>
    match recording s with
    | Some r => (Ok (field r), s)
    | None =>
        (Throw ("Cannot read properties of null (reading '" ++ property ++ "')"), s)
    end.

(** [loadRecording(filePath)], lines 16-26: the parsed value is stored
    first (line 22) and its fields are read from the object afterwards. *)
Definition loadRecording (filePath : string) : M unit :=
  found <- gets (fun s => fs_existsSync filePath (world s)) ;;
  if negb found then throw ("Recording file not found: " ++ filePath)
  else
    fileContent <- (fun s => (fs_readFileSync filePath (world s), s)) ;;
    parsed <- lift (JSON_parse fileContent) ;;
    modify (set_recording parsed) ;;
    sessionId <- read_recording "sessionId" parsed_sessionId ;;
    console_log (MLoaded sessionId) ;;
    total <- read_recording "totalInteractions" parsed_totalInteractions ;;
    console_log (MTotal total) ;;
    startTime <- read_recording "startTime" parsed_startTime ;;
    endTime <- read_recording "endTime" parsed_endTime ;;
    console_log (MDuration startTime endTime).

(** [setPlaybackSpeed(speed)], lines 52-55. *)
Definition setPlaybackSpeed (speed : Q) : M unit :=
  modify (set_playbackSpeed speed) ;;
  console_log (MSpeedSet speed).

(** [calculateDelay(previousTimestamp, currentTimestamp)], lines 58-61. *)
Definition calculateDelay (this : State) (previousTimestamp currentTimestamp : Q) : Q :=
  let realDelay := currentTimestamp - previousTimestamp in
  Math_max (realDelay / playbackSpeed this) 50.

(** [waitForElement(selector, timeout = 5000)], lines 331-338. *)
Definition waitForElement (sel : jsstr) : M unit :=
  try_catch
    (with_page (fun p => invoke (CWaitForSelector sel 5000) (page_waitForSelector p sel 5000)))
    (fun _ => console_log (MWarnNotFound sel)).

(** [ensurePageReady()], lines 341-350. *)
Definition ensurePageReady : M unit :=
  try_catch
    (evaluate (fun _ => ret tt))
    (fun _ => console_log MUnresponsive ;; refresh_page).

(** [playNavigation(interaction)], lines 125-136. *)
Definition playNavigation (interaction : Interaction) : M unit :=
  if truthy (url interaction) then
    current <- with_page (fun p => invoke CUrl (page_url p)) ;;
    if strict_neq current (url interaction) then
      try_catch
        (with_page (fun p => invoke (CGoto (to_template (url interaction)))
                               (page_goto p (to_template (url interaction)))) ;;
         setTimeout 1500 ;;
         console_log (MNavigated (to_template (url interaction))))
        (fun message => console_log (MNavigationFailed message))
    else ret tt
  else ret tt.

(** The selector strategies of [playClick], lines 144-149. The optional
    chaining of [className?.split(' ')] and [tagName?.toLowerCase()] stops at
    [undefined] and [null] only: on any other value that is not a string the
    method is missing and the call is a [TypeError], thrown while the array
    is built. *)
Definition class_selector (className : jsstr) : Result string :=
  match className with
  | JStr c => Ok ("." ++ join "." (split " " c))%string
  | JOther _ _ => Throw "interaction.className?.split is not a function"
  | _ => Ok ".undefined"
  end.

Definition lower_tag (tagName : jsstr) : Result jsstr :=
  match tagName with
  | JStr t => Ok (JStr (toLowerCase t))
  | JOther _ _ => Throw "interaction.tagName?.toLowerCase is not a function"
  | _ => Ok JUndefined
  end.

Definition playClick_selectors (interaction : Interaction) : Result (list string) :=
  match class_selector (className interaction) with
  | Ok by_class =>
      match lower_tag (tagName interaction) with
      | Ok by_tag =>
          Ok (filter_Boolean
                [ selector interaction;
                  JStr ("#" ++ to_template (id interaction));
                  JStr by_class;
                  by_tag ])
      | Throw message => Throw message
      end
  | Throw message => Throw message
  end.

(** The [for (const selector of selectors)] loop of [playClick], lines
    151-165; the result is the flag [clicked]. *)
Fixpoint playClick_loop (selectors : list string) : M bool :=
  match selectors with
  | [] => ret false
  | sel :: rest =>
      clicked <- try_catch
        (element <- with_page (fun p => invoke (CQuery sel) (page_query p sel)) ;;
         match element with
         | Some _ =>
             with_page (fun p => invoke (CClick sel) (page_click p sel)) ;;
             console_log (MClicked sel) ;;
             ret true
         | None => ret false
         end)
        (fun _ => ret false) ;;
      if clicked then ret true else playClick_loop rest
  end.


(** [playClick(interaction)], lines 139-180. *)
Definition playClick (interaction : Interaction) : M unit :=
  ensurePageReady ;;
  waitForElement (selector interaction) ;;
  selectors <- lift (playClick_selectors interaction) ;;
  clicked <- playClick_loop selectors ;;
  if negb clicked then
    match coordinates interaction with
    | Some (x, y) =>
        try_catch
          (with_page (fun p => invoke (CMouseClick x y) (mouse_click p x y)) ;;
           console_log (MClickedAt x y))
          (fun message => console_log (MCouldNotClickAt message))
    | None => console_log (MCouldNotClick (selector interaction))
    end
  else ret tt.

(** The selector strategies of [playInput], [playChange] and
    [playCheckbox], lines 187-191, 228-232 and 266-270. *)
Definition name_selector (name : jsstr) : string :=
  "[name=" ++ dquote ++ to_template name ++ dquote ++ "]".

Definition playInput_selectors (interaction : Interaction) : list string :=
  filter_Boolean
    [ selector interaction;
      JStr ("#" ++ to_template (id interaction));
      JStr (name_selector (name interaction)) ].

(** The loop of [playInput], lines 193-217; the result is the flag [typed]. *)
Fixpoint playInput_loop (interaction : Interaction) (selectors : list string) : M bool :=
  match selectors with
  | [] => ret false
  | sel :: rest =>
      typed <- try_catch
        (element <- with_page (fun p => invoke (CQuery sel) (page_query p sel)) ;;
         match element with
         | None => ret false
         | Some _ =>
             with_page (fun p => invoke (CFocus sel) (page_focus p sel)) ;;
             with_page (fun p => invoke (CKeyDown "Control") (keyboard_down p "Control")) ;;
             with_page (fun p => invoke (CKeyPress "KeyA") (keyboard_press p "KeyA")) ;;
             with_page (fun p => invoke (CKeyUp "Control") (keyboard_up p "Control")) ;;
             with_page (fun p => invoke (CKeyPress "Backspace") (keyboard_press p "Backspace")) ;;
             (if truthy (value interaction) then
                with_page (fun p => invoke (CType sel (to_template (value interaction)))
                                       (page_type p sel (to_template (value interaction)))) ;;
                console_log (MTyped (to_template (value interaction)) sel)
              else ret tt) ;;
             ret true
         end)
        (fun _ => ret false) ;;
      if typed then ret true else playInput_loop interaction rest
  end.


(** [playInput(interaction)], lines 183-222. *)
Definition playInput (interaction : Interaction) : M unit :=
  ensurePageReady ;;
  waitForElement (selector interaction) ;;
  typed <- playInput_loop interaction (playInput_selectors interaction) ;;
  if negb typed then console_log (MCouldNotType (selector interaction))
  else ret tt.

(** The callback of [playChange], lines 241-247. *)
Definition change_callback (sel : string) (v : jsstr) (p : Page) : M unit :=
  element <- querySelector p sel ;;
  match element with
  | Some el =>
      dom_write (DSetValue sel v) (element_set_value el v) ;;
      dom_write (DDispatch sel "change") (element_dispatchEvent el "change")
  | None => ret tt
  end.

(** The loop of [playChange], lines 234-255; the result is the flag
    [changed]. *)
Fixpoint playChange_loop (interaction : Interaction) (selectors : list string) : M bool :=
  match selectors with
  | [] => ret false
  | sel :: rest =>
      changed <- try_catch
        ((if strict_neq "SELECT" (tagName interaction) then
            evaluate (change_callback sel (value interaction)) ;;
            console_log (MChanged (value interaction) sel)
          else
            with_page (fun p => invoke (CSelect sel (value interaction))
                                   (page_select p sel (value interaction))) ;;
            console_log (MSelected (value interaction) sel)) ;;
         ret true)
        (fun _ => ret false) ;;
      if changed then ret true else playChange_loop interaction rest
  end.

(** [playChange(interaction)], lines 225-260. *)
Definition playChange (interaction : Interaction) : M unit :=
  waitForElement (selector interaction) ;;
  changed <- playChange_loop interaction (playInput_selectors interaction) ;;
  if negb changed then
    throw ("Could not change element: " ++ to_template (selector interaction))
  else ret tt.

(** [interaction.checked || interaction.value === 'true'], line 276. *)
Definition shouldBeChecked (interaction : Interaction) : bool :=
  match checked interaction with
  | Some true => true
  | _ => negb (strict_neq "true" (value interaction))
  end.

(** [isChecked !== shouldBeChecked], line 278; [None] is an element without
    a [checked] property. *)
Definition differs (isChecked : option bool) (should : bool) : bool :=
  match isChecked with
  | Some b => negb (Bool.eqb b should)
  | None => true
  end.

(** The loop of [playCheckbox], lines 272-287; the result is the flag
    [clicked]. *)
Fixpoint playCheckbox_loop (interaction : Interaction) (selectors : list string) : M bool :=
  match selectors with
  | [] => ret false
  | sel :: rest =>
      clicked <- try_catch
        (isChecked <- with_page (fun p => invoke (CEvalChecked sel) (page_eval_checked p sel)) ;;
         (if differs isChecked (shouldBeChecked interaction) then
            with_page (fun p => invoke (CClick sel) (page_click p sel)) ;;
            console_log (MToggled (shouldBeChecked interaction) sel)
          else ret tt) ;;
         ret true)
        (fun _ => ret false) ;;
      if clicked then ret true else playCheckbox_loop interaction rest
  end.

(** [playCheckbox(interaction)], lines 263-292. *)
Definition playCheckbox (interaction : Interaction) : M unit :=
  waitForElement (selector interaction) ;;
  clicked <- playCheckbox_loop interaction (playInput_selectors interaction) ;;
  if negb clicked then
    throw ("Could not toggle checkbox: " ++ to_template (selector interaction))
  else ret tt.

(** The callback of [playRange], lines 299-306. *)
Definition range_callback (sel : string) (v : jsstr) (p : Page) : M unit :=
  element <- querySelector p sel ;;
  match element with
  | Some el =>
      dom_write (DSetValue sel v) (element_set_value el v) ;;
      dom_write (DDispatch sel "input") (element_dispatchEvent el "input") ;;
      dom_write (DDispatch sel "change") (element_dispatchEvent el "change")
  | None => ret tt
  end.

(** [playRange(interaction)], lines 295-311. *)
Definition playRange (interaction : Interaction) : M unit :=
  waitForElement (selector interaction) ;;
  try_catch
    (evaluate (range_callback (to_template (selector interaction)) (value interaction)) ;;
     console_log (MSetRange (value interaction) (selector interaction)))
    (fun _ => throw ("Could not set range value: " ++ to_template (selector interaction))).

(** The callback of [playSubmit], lines 318-323. *)
Definition submit_callback (sel : string) (p : Page) : M unit :=
  element <- querySelector p sel ;;
  match element with
  | Some el =>
      tag <- gets (fun s => element_tagName el (world s)) ;;
      if String.eqb tag "FORM" then dom_write (DSubmit sel) (element_submit el)
      else ret tt
  | None => ret tt
  end.

(** [playSubmit(interaction)], lines 314-328. *)
Definition playSubmit (interaction : Interaction) : M unit :=
  waitForElement (selector interaction) ;;
  try_catch
    (evaluate (submit_callback (to_template (selector interaction))) ;;
     console_log (MSubmitted (selector interaction)))
    (fun _ => throw ("Could not submit form: " ++ to_template (selector interaction))).

(** The [switch (interaction.type)] of [playInteraction], lines 90-117. *)
Definition dispatch (interaction : Interaction) : M unit :=
  let kind := type interaction in
  if String.eqb kind "navigation" then playNavigation interaction
  else if String.eqb kind "click" then playClick interaction
  else if String.eqb kind "input" || String.eqb kind "text" || String.eqb kind "search"
  then playInput interaction
  else if String.eqb kind "change" || String.eqb kind "select-one"
  then playChange interaction
  else if String.eqb kind "submit" then playSubmit interaction
  else if String.eqb kind "checkbox" then playCheckbox interaction
  else if String.eqb kind "range" then playRange interaction
  else console_log (MUnsupported kind).

(** The page checks at the head of [playInteraction], lines 68-88: refresh a
    detached page reference, then go to the interaction's URL when the page
    is elsewhere. *)
Definition prepare_page (interaction : Interaction) : M unit :=
  try_catch
    (with_page (fun p => invoke CUrl (page_url p)) ;; ret tt)
    (fun _ => console_log MRefreshDetached ;; refresh_page) ;;
  currentUrl <- with_page (fun p => invoke CUrl (page_url p)) ;;
  if strict_neq currentUrl (url interaction) && truthy (url interaction) then
    console_log (MNavigatingTo (to_template (url interaction))) ;;
    try_catch
      (with_page (fun p => invoke (CGoto (to_template (url interaction)))
                             (page_goto p (to_template (url interaction)))) ;;
       setTimeout 1000)
      (fun _ => console_log MNavFailedContinue)
  else ret tt.

(** [this.recording.totalInteractions], a [TypeError] without a recording. *)
Definition read_totalInteractions : M Z :=
  read_recording "totalInteractions" parsed_totalInteractions.

(** The [try] block of [playInteraction], lines 66-117. *)
Definition playInteraction_body (interaction : Interaction) (index : nat) : M unit :=
  total <- read_totalInteractions ;;
  console_log (MPlaying (index + 1) total (type interaction) (url interaction)) ;;
  prepare_page interaction ;;
  dispatch interaction.

(** [playInteraction(interaction, index)], lines 64-122. *)
Definition playInteraction (interaction : Interaction) (index : nat) : M unit :=
  try_catch
    (playInteraction_body interaction index)
    (fun message => console_error (MErrorPlaying (index + 1) message)).

(** The pacing step of the playback loop, lines 370-377; a timestamp that
    is missing or zero is falsy. *)
Definition pace (previousTimestamp : option Q) (interaction : Interaction) : M unit :=
  match previousTimestamp, timestamp interaction with
  | Some previous, Some current =>
      if negb (Qeq_bool previous 0) && negb (Qeq_bool current 0) then
        delay <- gets (fun this => calculateDelay this previous current) ;;
        if negb (Qle_bool delay 50) then
          console_log (MWaiting (Math_round delay)) ;;
          setTimeout delay
        else ret tt
      else ret tt
  | _, _ => ret tt
  end.

(** [playInteraction(null, index)]: the template of line 66 reads
    [interaction.type], a [TypeError] inside the [try], before anything is
    printed. *)
Definition playInteraction_null (index : nat) : M unit :=
  try_catch
    (read_totalInteractions ;;
     throw "Cannot read properties of null (reading 'type')")
    (fun message => console_error (MErrorPlaying (index + 1) message)).

(** Whether [previousTimestamp] is truthy at line 371. *)
Definition truthy_timestamp (previousTimestamp : option Q) : bool :=
  match previousTimestamp with
  | Some previous => negb (Qeq_bool previous 0)
  | None => false
  end.

(** The [for] loop of [startPlayback], lines 365-381, from index [i] on:
    [rest] is what is left of [this.recording.interactions], which nothing
    in the class writes to while the loop runs. On an entry that is [null],
    [interaction.timestamp] is a [TypeError] outside the handler's [try]: at
    line 371 when the previous timestamp is truthy, and otherwise at line
    380, after [playInteraction] has logged its own error. *)
Fixpoint startPlayback_loop (rest : list (option Interaction)) (i : nat)
    (previousTimestamp : option Q) : M unit :=
  match rest with
  | [] => ret tt
  | Some interaction :: rest' =>
      pace previousTimestamp interaction ;;
      playInteraction interaction i ;;
      startPlayback_loop rest' (S i) (timestamp interaction)
  | None :: _ =>
      if truthy_timestamp previousTimestamp then
        throw "Cannot read properties of null (reading 'timestamp')"
      else
        playInteraction_null i ;;
        throw "Cannot read properties of null (reading 'timestamp')"
  end.

(** [startPlayback()], lines 353-384. Without an [interactions] property,
    [this.recording.interactions.length] at line 367 is a [TypeError]. *)
Definition startPlayback : M unit :=
  loaded <- gets recording ;;
  match loaded with
  | None => throw "No recording loaded. Call loadRecording() first."
  | Some r =>
      attached <- gets browser ;;
      match attached with
      | None => throw "Browser not initialized. Call initialize() first."
      | Some _ =>
          speed <- gets playbackSpeed ;;
          console_log (MStarting (parsed_totalInteractions r) speed) ;;
          console_log MPressCtrlC ;;
          match parsed_interactions r with
          | Some entries =>
              startPlayback_loop entries 0 None ;;
              console_log MCompleted
          | None => throw "Cannot read properties of undefined (reading 'length')"
          end
      end
  end.

(** ** Observations on runs *)

(** A computation that never throws. *)
Definition safe {A : Type} (m : M A) : Prop :=
  forall s, is_Throw (fst (m s)) = false.

(** A computation that leaves [browser], [playbackSpeed] and [recording]
    alone and only appends events accepted by [f] to the trace. *)
Definition emits {A : Type} (f : Event -> bool) (m : M A) : Prop :=
  forall s,
    browser (snd (m s)) = browser s /\
    playbackSpeed (snd (m s)) = playbackSpeed s /\
    recording (snd (m s)) = recording s /\
    exists d, trace (snd (m s)) = trace s ++ d /\ forallb f d = true.

(** The state [s] after the world became [w] and the events [d] were added. *)
Definition extend (s : State) (w : W) (d : list Event) : State :=
  mkState (browser s) (page s) (playbackSpeed s) (recording s) w (trace s ++ d).

(** The progress line that opens the handling of an event: its number and
    kind. *)
Definition attempt_of (e : Event) : option (nat * string) :=
  match e with
  | ConsoleLog (MPlaying number _ kind _) => Some (number, kind)
  | _ => None
  end.

Definition attempts (d : list Event) : list (nat * string) :=
  flat_map (fun e => match attempt_of e with Some a => [a] | None => [] end) d.

Definition no_attempt (e : Event) : bool :=
  match attempt_of e with
  | Some _ => false
  | None => true
  end.

(** The events of a sequence with their numbers, counted from [from]. *)
Fixpoint numbered (from : nat) (l : list Interaction) : list (nat * string) :=
  match l with
  | [] => []
  | interaction :: rest => (from, type interaction) :: numbered (S from) rest
  end.

Definition is_click (e : Event) : bool :=
  match e with
  | Invoke (CClick _) => true
  | Invoke (CMouseClick _ _) => true
  | _ => false
  end.

Definition is_mouse_click (e : Event) : bool :=
  match e with
  | Invoke (CMouseClick _ _) => true
  | _ => false
  end.

Definition is_wait (e : Event) : bool :=
  match e with
  | ConsoleLog (MWaiting _) => true
  | Sleep _ => true
  | _ => false
  end.

Definition is_warning (e : Event) : bool :=
  match e with
  | ConsoleLog (MWarnNotFound _) => true
  | _ => false
  end.

Definition queries (tried : list string) : list Event :=
  map (fun sel => Invoke (CQuery sel)) tried.

(** The selectors the page was asked for with [page.$], in order. *)
Definition asked (d : list Event) : list string :=
  flat_map (fun e => match e with
                     | Invoke (CQuery sel) => [sel]
                     | _ => []
                     end) d.


Definition is_console_error (e : Event) : bool :=
  match e with
  | ConsoleError _ => true
  | _ => false
  end.

Definition checks (tried : list string) : list Event :=
  map (fun sel => Invoke (CEvalChecked sel)) tried.

(** Asking the page for the candidates in order, until one matches a live
    element: the selectors asked for, the one that matched if any, and the
    world afterwards. A query that throws counts as no match. *)
Fixpoint probe (p : Page) (candidates : list string) (w : W)
    : list string * option string * W :=
  match candidates with
  | [] => ([], None, w)
  | sel :: rest =>
      match page_query p sel w with
      | (Ok (Some _), w') => ([sel], Some sel, w')
      | (_, w') =>
          let '(tried, found, w'') := probe p rest w' in
          (sel :: tried, found, w'')
      end
  end.

(** Reading the checked state of the candidates in order, until one read
    succeeds: the selectors read, the first readable one with its state if
    any, and the world afterwards. *)
Fixpoint probe_checked (p : Page) (candidates : list string) (w : W)
    : list string * option (string * option bool) * W :=
  match candidates with
  | [] => ([], None, w)
  | sel :: rest =>
      match page_eval_checked p sel w with
      | (Ok state, w') => ([sel], Some (sel, state), w')
      | (Throw _, w') =>
          let '(tried, found, w'') := probe_checked p rest w' in
          (sel :: tried, found, w'')
      end
  end.

(** The same record with other coordinates. *)
Definition with_coordinates (c : option (Q * Q)) (interaction : Interaction) : Interaction :=
  {| type := type interaction; timestamp := timestamp interaction;
     url := url interaction; tagName := tagName interaction; id := id interaction;
     className := className interaction; name := name interaction;
     selector := selector interaction; value := value interaction;
     checked := checked interaction; coordinates := c |}.



End Playback.

(** ** A small concrete host

    One page showing a list of nodes; each node lists the selectors it
    matches. It is used to run the engine on concrete recordings. *)
Module Toy.

Record Node : Type := {
  matches : list string;
  tag : string;
  node_checked : option bool;
  node_value : string;
  clickable : bool
}.

Record World : Type := {
  location : string;
  document : list Node;
  files : list (string * string);
  focused : option nat;
  control_down : bool;
  selected_all : bool
}.

Definition matches_selector (sel : string) (n : Node) : bool :=
  existsb (String.eqb sel) (matches n).

Fixpoint find_node (sel : string) (doc : list Node) : option nat :=
  match doc with
  | [] => None
  | n :: rest =>
      if matches_selector sel n then Some 0%nat
      else option_map S (find_node sel rest)
  end.

Fixpoint update_node (i : nat) (f : Node -> Node) (doc : list Node) : list Node :=
  match doc, i with
  | [], _ => []
  | n :: rest, O => f n :: rest
  | n :: rest, S j => n :: update_node j f rest
  end.

Definition with_document (doc : list Node) (w : World) : World :=
  {| location := location w; document := doc; files := files w;
     focused := focused w; control_down := control_down w;
     selected_all := selected_all w |}.

Definition with_location (u : string) (w : World) : World :=
  {| location := u; document := document w; files := files w;
     focused := None; control_down := false; selected_all := false |}.

Definition with_keys (f : option nat) (c a : bool) (w : World) : World :=
  {| location := location w; document := document w; files := files w;
     focused := f; control_down := c; selected_all := a |}.

Definition set_checked (b : option bool) (n : Node) : Node :=
  {| matches := matches n; tag := tag n; node_checked := b;
     node_value := node_value n; clickable := clickable n |}.

Definition set_value (v : string) (n : Node) : Node :=
  {| matches := matches n; tag := tag n; node_checked := node_checked n;
     node_value := v; clickable := clickable n |}.

Definition on_node {A : Type} (sel : string) (w : World)
    (k : nat -> Node -> Result A * World) : Result A * World :=
  match find_node sel (document w) with
  | Some i =>
      match nth_error (document w) i with
      | Some n => k i n
      | None => (Throw "No node found for selector", w)
      end
  | None => (Throw "No node found for selector", w)
  end.

Definition click (sel : string) (w : World) : Result unit * World :=
  on_node sel w (fun i n =>
    if clickable n then
      (Ok tt, with_document (update_node i (set_checked (option_map negb (node_checked n)))
                               (document w)) w)
    else (Throw "Node is either not clickable or not an Element", w)).

Definition press (key : string) (w : World) : Result unit * World :=
  if String.eqb key "KeyA" && control_down w then
    (Ok tt, with_keys (focused w) (control_down w) true w)
  else if String.eqb key "Backspace" && selected_all w then
    match focused w with
    | Some i =>
        (Ok tt, with_keys (focused w) (control_down w) false
                  (with_document (update_node i (set_value EmptyString) (document w)) w))
    | None => (Ok tt, w)
    end
  else (Ok tt, w).

Definition type_text (sel text : string) (w : World) : Result unit * World :=
  on_node sel w (fun i n =>
    (Ok tt, with_document (update_node i (set_value (node_value n ++ text)) (document w)) w)).

Definition select_option (sel : string) (v : jsstr) (w : World) : Result unit * World :=
  on_node sel w (fun i n =>
    if String.eqb (tag n) "SELECT" then
      (Ok tt, with_document (update_node i (set_value (to_template v)) (document w)) w)
    else (Throw "Element is not a <select> element.", w)).

Definition lookup_file (path : string) (w : World) : option string :=
  option_map snd (find (fun f => String.eqb (fst f) path) (files w)).

(** A click on a button with an id and two classes, as the recorder writes
    it. *)
Definition click_go : Interaction :=
  {| type := "click"; timestamp := Some 1000; url := JStr "http://a/";
     tagName := JStr "BUTTON"; id := JStr "go"; className := JStr "btn primary";
     name := JUndefined; selector := JStr "#go"; value := JUndefined; checked := None;
     coordinates := Some (10, 20) |}.

(** A click as the recorder writes it for an element without id and class. *)
Definition click_bare : Interaction :=
  {| type := "click"; timestamp := Some 1000; url := JStr "http://a/";
     tagName := JStr "BUTTON"; id := JNull; className := JNull;
     name := JUndefined; selector := JStr "button"; value := JUndefined; checked := None;
     coordinates := Some (10, 20) |}.

(** A click on an svg element with an id, as the recorder writes it: the
    [className] of the element is an object. *)
Definition click_svg : Interaction :=
  {| type := "click"; timestamp := Some 1000; url := JStr "http://a/";
     tagName := JStr "svg"; id := JStr "icon";
     className := JOther true "[object Object]";
     name := JUndefined; selector := JStr "#icon"; value := JUndefined; checked := None;
     coordinates := Some (10, 20) |}.

(** A click that carries no coordinates. *)
Definition click_plain : Interaction :=
  {| type := "click"; timestamp := Some 1000; url := JStr "http://a/";
     tagName := JStr "BUTTON"; id := JStr "go"; className := JStr "btn primary";
     name := JUndefined; selector := JStr "#go"; value := JUndefined; checked := None;
     coordinates := None |}.

Definition submit_signup : Interaction :=
  {| type := "submit"; timestamp := Some 2000; url := JStr "http://a/";
     tagName := JStr "FORM"; id := JStr "signup"; className := JNull;
     name := JUndefined; selector := JStr "#signup"; value := JUndefined; checked := None;
     coordinates := None |}.

Definition change_country : Interaction :=
  {| type := "change"; timestamp := Some 3000; url := JStr "http://a/";
     tagName := JStr "INPUT"; id := JStr "country"; className := JNull;
     name := JStr "country"; selector := JStr "#country"; value := JStr "USA";
     checked := None; coordinates := None |}.

Definition select_country : Interaction :=
  {| type := "change"; timestamp := Some 3000; url := JStr "http://a/";
     tagName := JStr "SELECT"; id := JStr "country"; className := JNull;
     name := JStr "country"; selector := JStr "#country"; value := JStr "USA";
     checked := None; coordinates := None |}.

Definition checkbox_agree (wanted : bool) : Interaction :=
  {| type := "checkbox"; timestamp := Some 4000; url := JStr "http://a/";
     tagName := JStr "INPUT"; id := JStr "agree"; className := JNull;
     name := JStr "agree"; selector := JStr "#agree"; value := JStr "on";
     checked := Some wanted; coordinates := None |}.

Definition input_name (v : jsstr) : Interaction :=
  {| type := "input"; timestamp := Some 1020; url := JStr "http://a/";
     tagName := JStr "INPUT"; id := JStr "name"; className := JStr "field wide";
     name := JStr "name"; selector := JStr "#name"; value := v; checked := None;
     coordinates := Some (30, 40) |}.

Definition declared_five : Recording :=
  {| sessionId := "1750718332829"; startTime := "2025-06-23T22:38:52.829Z";
     endTime := "2025-06-23T22:40:01.002Z"; totalInteractions := 5;
     interactions := [click_go; input_name (JStr "Ann")] |}.

(** A checkbox that is not on the page, then a click and an input. *)
Definition with_failure : Recording :=
  {| sessionId := "1750718332830"; startTime := "2025-06-23T22:38:52.829Z";
     endTime := "2025-06-23T22:40:01.002Z"; totalInteractions := 3;
     interactions := [checkbox_agree true; click_go; input_name (JStr "Ann")] |}.

(** An object without an [interactions] array, and one whose array opens
    with a [null] entry. *)
Definition shapeless : Parsed :=
  {| parsed_sessionId := "1750718332831";
     parsed_startTime := "2025-06-23T22:38:52.829Z";
     parsed_endTime := "2025-06-23T22:40:01.002Z";
     parsed_totalInteractions := 2;
     parsed_interactions := None |}.

Definition with_null_entry : Parsed :=
  {| parsed_sessionId := "1750718332832";
     parsed_startTime := "2025-06-23T22:38:52.829Z";
     parsed_endTime := "2025-06-23T22:40:01.002Z";
     parsed_totalInteractions := 2;
     parsed_interactions := Some [None; Some click_go] |}.

(** The values the toy [JSON.parse] knows: the text of a file is looked up
    in this table; the text [null] parses to [null]. *)
Definition JSON_table : list (string * option Parsed) :=
  [ ("declared_five", Some (documented declared_five));
    ("with_failure", Some (documented with_failure));
    ("shapeless", Some shapeless);
    ("with_null_entry", Some with_null_entry);
    ("null", None) ].

Definition parse (text : string) : Result (option Parsed) :=
  match find (fun e => String.eqb (fst e) text) JSON_table with
  | Some (_, value) => Ok value
  | None => Throw "Unexpected token in JSON"
  end.

#[export] Instance toy_host : Host := {|
  W := World;
  Browser := unit;
  Page := nat;
  Element := nat;
  fs_existsSync := fun path w =>
    match lookup_file path w with Some _ => true | None => false end;
  fs_readFileSync := fun path w =>
    match lookup_file path w with
    | Some text => Ok text
    | None => Throw "ENOENT: no such file or directory"
    end;
  JSON_parse := parse;
  browser_pages := fun _ w => (Ok [0%nat], w);
  page_url := fun _ w => (Ok (location w), w);
  page_goto := fun _ u w => (Ok tt, with_location u w);
  page_query := fun _ sel w => (Ok (find_node sel (document w)), w);
  page_click := fun _ sel w => click sel w;
  page_focus := fun _ sel w =>
    on_node sel w (fun i _ => (Ok tt, with_keys (Some i) (control_down w) false w));
  keyboard_down := fun _ key w =>
    (Ok tt, if String.eqb key "Control" then with_keys (focused w) true (selected_all w) w
            else w);
  keyboard_press := fun _ key w => press key w;
  keyboard_up := fun _ key w =>
    (Ok tt, if String.eqb key "Control" then with_keys (focused w) false (selected_all w) w
            else w);
  page_type := fun _ sel text w => type_text sel text w;
  page_select := fun _ sel v w => select_option sel v w;
  page_eval_checked := fun _ sel w => on_node sel w (fun _ n => (Ok (node_checked n), w));
  page_evaluate := fun _ w => (Ok tt, w);
  page_waitForSelector := fun _ sel _ w =>
    match find_node (to_template sel) (document w) with
    | Some _ => (Ok tt, w)
    | None => (Throw "Waiting for selector failed", w)
    end;
  mouse_click := fun _ _ _ w => (Ok tt, w);
  document_querySelector := fun _ sel w => Ok (find_node sel (document w));
  element_tagName := fun i w =>
    match nth_error (document w) i with
    | Some n => tag n
    | None => EmptyString
    end;
  element_set_value := fun i v w =>
    with_document (update_node i (set_value (to_template v)) (document w)) w;
  element_dispatchEvent := fun _ _ w => w;
  element_submit := fun _ w => w
|}.

(** A page at [http://a/] with the given nodes, a recording file and a
    file that holds [null]. *)
Definition page_with (doc : list Node) : World :=
  {| location := "http://a/"; document := doc;
     files := [("rec.json", "declared_five"); ("null.json", "null")];
     focused := None; control_down := false; selected_all := false |}.

(** A playback object on that page, as [initialize] leaves it, holding a
    parsed value. *)
Definition holding (loaded : Parsed) (speed : Q) (doc : list Node) : State :=
  mkState (Some tt) (Some 0%nat) speed (Some loaded) (page_with doc) [].

(** The same with a recording of the documented shape in place. *)
Definition ready (r : Recording) (speed : Q) (doc : list Node) : State :=
  holding (documented r) speed doc.

(** The same playback object before a recording is loaded. *)
Definition initialized (doc : list Node) : State :=
  mkState (Some tt) (Some 0%nat) 1 None (page_with doc) [].

Definition text_field (v : string) : Node :=
  {| matches := ["#name"; "input"]; tag := "INPUT"; node_checked := None;
     node_value := v; clickable := true |}.

Definition check_box (b : bool) : Node :=
  {| matches := ["#agree"]; tag := "INPUT"; node_checked := Some b;
     node_value := "on"; clickable := true |}.

(** A node that matches [#go] and cannot be clicked, and a plain button. *)
Definition covered_button : Node :=
  {| matches := ["#go"]; tag := "BUTTON"; node_checked := None;
     node_value := EmptyString; clickable := false |}.


(** A paragraph that the submit selector matches. *)
Definition paragraph : Node :=
  {| matches := ["#signup"]; tag := "P"; node_checked := None;
     node_value := EmptyString; clickable := true |}.

End Toy.

(** ** More observations on runs *)

Section Coverage.

Context `{host : Host}.

(** The kinds the [switch] of [playInteraction] knows, lines 91-114. *)
Definition supported_kinds : list string :=
  [ "navigation"; "click"; "input"; "text"; "search"; "change"; "select-one";
    "submit"; "checkbox"; "range" ].

Definition selects (v : jsstr) (tried : list string) : list Event :=
  map (fun sel => Invoke (CSelect sel v)) tried.

(** Selecting the option on the candidates in order, until [page.select]
    succeeds on one: the selectors tried, the one it succeeded on if any, and
    the world afterwards. *)
Fixpoint probe_select (p : Page) (v : jsstr) (candidates : list string) (w : W)
    : list string * option string * W :=
  match candidates with
  | [] => ([], None, w)
  | sel :: rest =>
      match page_select p sel v w with
      | (Ok _, w') => ([sel], Some sel, w')
      | (Throw _, w') =>
          let '(tried, found, w'') := probe_select p v rest w' in
          (sel :: tried, found, w'')
      end
  end.


Definition is_toggled (e : Event) : bool :=
  match e with
  | ConsoleLog (MToggled _ _) => true
  | _ => false
  end.

Definition is_typing (e : Event) : bool :=
  match e with
  | Invoke (CFocus _) => true
  | Invoke (CKeyDown _) => true
  | Invoke (CKeyPress _) => true
  | Invoke (CKeyUp _) => true
  | Invoke (CType _ _) => true
  | _ => false
  end.

Definition is_goto (e : Event) : bool :=
  match e with
  | Invoke (CGoto _) => true
  | _ => false
  end.

Definition is_select (e : Event) : bool :=
  match e with
  | Invoke (CSelect _ _) => true
  | _ => false
  end.

Definition is_submit (e : Event) : bool :=
  match e with
  | Dom (DSubmit _) => true
  | _ => false
  end.

Definition is_dom_write (e : Event) : bool :=
  match e with
  | Dom _ => true
  | _ => false
  end.

(** What each dispatcher may do to the outside, read off its body. *)
Definition wait_events (e : Event) : bool :=
  match e with
  | Invoke (CWaitForSelector _ _) => true
  | ConsoleLog (MWarnNotFound _) => true
  | _ => false
  end.

Definition ready_events (e : Event) : bool :=
  match e with
  | Invoke CEvaluate => true
  | Invoke CPages => true
  | ConsoleLog MUnresponsive => true
  | _ => false
  end.

Definition navigation_events (e : Event) : bool :=
  match e with
  | Invoke CUrl => true
  | Invoke (CGoto _) => true
  | Sleep _ => true
  | ConsoleLog (MNavigated _) => true
  | ConsoleLog (MNavigationFailed _) => true
  | _ => false
  end.

Definition click_events (e : Event) : bool :=
  wait_events e || ready_events e ||
  match e with
  | Invoke (CQuery _) => true
  | Invoke (CClick _) => true
  | Invoke (CMouseClick _ _) => true
  | ConsoleLog (MClicked _) => true
  | ConsoleLog (MClickedAt _ _) => true
  | ConsoleLog (MCouldNotClickAt _) => true
  | ConsoleLog (MCouldNotClick _) => true
  | _ => false
  end.

Definition input_events (e : Event) : bool :=
  wait_events e || ready_events e ||
  match e with
  | Invoke (CQuery _) => true
  | Invoke (CFocus _) => true
  | Invoke (CKeyDown _) => true
  | Invoke (CKeyPress _) => true
  | Invoke (CKeyUp _) => true
  | Invoke (CType _ _) => true
  | ConsoleLog (MTyped _ _) => true
  | ConsoleLog (MCouldNotType _) => true
  | _ => false
  end.

Definition change_events (e : Event) : bool :=
  wait_events e ||
  match e with
  | Invoke CEvaluate => true
  | Invoke (CSelect _ _) => true
  | Dom (DSetValue _ _) => true
  | Dom (DDispatch _ _) => true
  | ConsoleLog (MSelected _ _) => true
  | ConsoleLog (MChanged _ _) => true
  | _ => false
  end.

Definition submit_events (e : Event) : bool :=
  wait_events e ||
  match e with
  | Invoke CEvaluate => true
  | Dom (DSubmit _) => true
  | ConsoleLog (MSubmitted _) => true
  | _ => false
  end.

Definition checkbox_events (e : Event) : bool :=
  wait_events e ||
  match e with
  | Invoke (CEvalChecked _) => true
  | Invoke (CClick _) => true
  | ConsoleLog (MToggled _ _) => true
  | _ => false
  end.

Definition range_events (e : Event) : bool :=
  wait_events e ||
  match e with
  | Invoke CEvaluate => true
  | Dom (DSetValue _ _) => true
  | Dom (DDispatch _ _) => true
  | ConsoleLog (MSetRange _ _) => true
  | _ => false
  end.

Definition unsupported_events (e : Event) : bool :=
  match e with
  | ConsoleLog (MUnsupported _) => true
  | _ => false
  end.

(** The events a kind may give rise to, by the cases of the [switch]. *)
Definition allowed (kind : string) (e : Event) : bool :=
  if String.eqb kind "navigation" then navigation_events e
  else if String.eqb kind "click" then click_events e
  else if String.eqb kind "input" || String.eqb kind "text" || String.eqb kind "search"
  then input_events e
  else if String.eqb kind "change" || String.eqb kind "select-one"
  then change_events e
  else if String.eqb kind "submit" then submit_events e
  else if String.eqb kind "checkbox" then checkbox_events e
  else if String.eqb kind "range" then range_events e
  else unsupported_events e.


Definition not_toggled (e : Event) : bool := negb (is_toggled e).

Definition not_starting (e : Event) : bool :=
  match e with
  | ConsoleLog (MStarting _ _) => false
  | _ => true
  end.

(** The speeds announced by the opening line of [startPlayback]. *)
Definition announced_speeds (d : list Event) : list Q :=
  flat_map (fun e => match e with
                     | ConsoleLog (MStarting _ speed) => [speed]
                     | _ => []
                     end) d.

End Coverage.

(** ** The command line: [initialize], [stop] and [main]

    What [main] needs beyond the engine's host: [parseFloat] ([None] is
    [NaN]; a text that parses to an infinity is outside the model),
    [path.resolve], and the browser's launch, new page, user agent and close
    calls. *)
Class Launcher (host : Host) : Type := {
  parseFloat : string -> option Q;
  path_resolve : string -> W -> string;
  puppeteer_launch : bool -> W -> Result Browser * W;
  browser_newPage : Browser -> W -> Result Page * W;
  page_setUserAgent : Page -> string -> W -> Result unit * W;
  browser_close : Browser -> W -> Result unit * W
}.

(** What the command line prints and calls, in program order. *)
Inductive PEvent : Type :=
| Stdout (line : string)                             (* console.log(line) *)
| Stderr (line : string)                             (* console.error(...) *)
| Launch (headless : bool)                           (* puppeteer.launch({ headless, ... }) *)
| NewPage                                            (* browser.newPage() *)
| SetUserAgent (userAgent : string)                  (* page.setUserAgent(userAgent) *)
| Close.                                             (* browser.close() *)

(** How [main] ends: it returns, it calls [process.exit(code)], or a
    promise it does not catch is rejected. *)
Inductive Outcome : Type :=
| Returned
| Exited (code : Z)
| Rejected (message : string).

Section CommandLine.

Context `{host : Host} {launcher : Launcher host}.

Definition set_browser (b : option Browser) (s : State) : State :=
  mkState b (page s) (playbackSpeed s) (recording s) (world s) (trace s).

(** The playback object, and the journal of what [main], [initialize] and
    [stop] print and call. What the class methods of the engine print and
    call stays in the trace of the object; [main] runs them in a fixed
    order. *)
Record Process : Type := mkProcess {
  engine : State;
  journal : list PEvent
}.

Definition P (A : Type) : Type := Process -> Result A * Process.

Definition p_ret {A : Type} (a : A) : P A := fun ps => (Ok a, ps).

Definition p_bind {A B : Type} (m : P A) (k : A -> P B) : P B :=
  fun ps =>
    match m ps with
    | (Ok a, ps') => k a ps'
    | (Throw e, ps') => (Throw e, ps')
    end.

(** A method of the engine, run on the playback object. *)
Definition on_engine {A : Type} (m : M A) : P A :=
  fun ps =>
    let (r, s) := m (engine ps) in
    (r, mkProcess s (journal ps)).

Definition record (e : PEvent) : P unit :=
  fun ps => (Ok tt, mkProcess (engine ps) (journal ps ++ [e])).

(** A call of the command line on the browser: journalled, then answered. *)
Definition call {A : Type} (e : PEvent) (f : W -> Result A * W) : P A :=
  fun ps =>
    let (r, w) := f (world (engine ps)) in
    (r, mkProcess (set_world w (engine ps)) (journal ps ++ [e])).

Definition userAgent : string :=
  "Mozilla/5.0 (Macintosh; Intel Mac OS X 10_15_7) AppleWebKit/537.36 (KHTML, like Gecko) Chrome/120.0.0.0 Safari/537.36".

(** [initialize(headless = false)], lines 29-49. *)
Definition initialize (headless : bool) : P unit :=
  p_bind (record (Stdout "Launching browser for playback...")) (fun _ =>
  p_bind (call (Launch headless) (puppeteer_launch headless)) (fun b =>
  p_bind (on_engine (modify (set_browser (Some b)))) (fun _ =>
  p_bind (call NewPage (browser_newPage b)) (fun p =>
  p_bind (on_engine (modify (set_page (Some p)))) (fun _ =>
  p_bind (call (SetUserAgent userAgent) (page_setUserAgent p userAgent)) (fun _ =>
  record (Stdout "Browser initialized for playback"))))))).

(** [stop()], lines 387-392. *)
Definition stop : P unit :=
  fun ps =>
    match browser (engine ps) with
    | Some b =>
        p_bind (call Close (browser_close b)) (fun _ => record (Stdout "Browser closed")) ps
    | None => (Ok tt, ps)
    end.

(** The usage text, lines 400-409. *)
Definition usage : list string :=
  [ "Usage: node src/playback.js <recording-file> [options]";
    EmptyString;
    "Options:";
    "  --speed <number>     Playback speed (default: 1, half: 0.5, double: 2)";
    "  --headless          Run in headless mode";
    EmptyString;
    "Examples:";
    "  node src/playback.js recordings/interactions_1234567890.json";
    "  node src/playback.js recordings/interactions_1234567890.json --speed 0.5";
    "  node src/playback.js recordings/interactions_1234567890.json --headless" ].

(** [args.indexOf(x)]. *)
Fixpoint indexOf (x : string) (args : list string) : option nat :=
  match args with
  | [] => None
  | a :: rest => if String.eqb a x then Some 0%nat else option_map S (indexOf x rest)
  end.

(** The speed option, lines 417-425: [Some speed] to go on with, [None]
    when the value is not a positive number and [main] exits. *)
Definition read_speed (args : list string) : option Q :=
  match indexOf "--speed" args with
  | Some speedIndex =>
      match nth_error args (speedIndex + 1) with
      | Some text =>
          if negb (String.eqb text EmptyString) then
            match parseFloat text with
            | Some speed => if Qle_bool speed 0 then None else Some speed
            | None => None
            end
          else Some 1
      | None => Some 1
      end
  | None => Some 1
  end.

(** The [try] block of [main], lines 437-455. *)
Definition main_try (recordingFile : string) (headless : bool) (speed : Q) : P unit :=
  p_bind (fun ps => (Ok (path_resolve recordingFile (world (engine ps))), ps)) (fun fullPath =>
  p_bind (on_engine (loadRecording fullPath)) (fun _ =>
  p_bind (initialize headless) (fun _ =>
  p_bind (if negb (Qeq_bool speed 1) then on_engine (setPlaybackSpeed speed)
          else p_ret tt) (fun _ =>
  p_bind (on_engine startPlayback) (fun _ =>
  stop))))).

(** [main()], lines 396-461, on the arguments after the script name and the
    world it starts in. The [SIGINT] handler it installs runs only when the
    signal comes and is left out. *)
Definition main (args : list string) (w : W) : Outcome * Process :=
  let start := mkProcess (constructor w) [] in
  match args with
  | [] => (Exited 1, mkProcess (constructor w) (map Stdout usage))
  | recordingFile :: _ =>
      let headless := existsb (String.eqb "--headless") args in
      match read_speed args with
      | None =>
          (Exited 1,
           mkProcess (constructor w) [Stderr "Error: Speed must be a positive number"])
      | Some speed =>
          match main_try recordingFile headless speed start with
          | (Ok _, ps) => (Returned, ps)
          | (Throw message, ps) =>
              match p_bind (record (Stderr ("Error: " ++ message))) (fun _ => stop) ps with
              | (Ok _, ps') => (Exited 1, ps')
              | (Throw rejection, ps') => (Rejected rejection, ps')
              end
          end
      end
  end.

End CommandLine.

(** ** A host whose first page handle has gone stale

    The page and files of the small host, seen through two handles: every
    call on handle [0] throws, handle [1] is the live page, and the browser
    lists both. *)
Module Stale.

Definition detached {A : Type} (w : Toy.World) : Result A * Toy.World :=
  (Throw "Attempted to use detached Frame", w).

Definition on_live {A : Type} (p : nat) (w : Toy.World)
    (k : Toy.World -> Result A * Toy.World) : Result A * Toy.World :=
  match p with
  | O => detached w
  | S _ => k w
  end.

#[export] Instance stale_host : Host := {|
  W := Toy.World;
  Browser := unit;
  Page := nat;
  Element := nat;
  fs_existsSync := @fs_existsSync Toy.toy_host;
  fs_readFileSync := @fs_readFileSync Toy.toy_host;
  JSON_parse := Toy.parse;
  browser_pages := fun _ w => (Ok [0%nat; 1%nat], w);
  page_url := fun p w => on_live p w (@page_url Toy.toy_host p);
  page_goto := fun p u w => on_live p w (@page_goto Toy.toy_host p u);
  page_query := fun p sel w => on_live p w (@page_query Toy.toy_host p sel);
  page_click := fun p sel w => on_live p w (@page_click Toy.toy_host p sel);
  page_focus := fun p sel w => on_live p w (@page_focus Toy.toy_host p sel);
  keyboard_down := fun p key w => on_live p w (@keyboard_down Toy.toy_host p key);
  keyboard_press := fun p key w => on_live p w (@keyboard_press Toy.toy_host p key);
  keyboard_up := fun p key w => on_live p w (@keyboard_up Toy.toy_host p key);
  page_type := fun p sel text w => on_live p w (@page_type Toy.toy_host p sel text);
  page_select := fun p sel v w => on_live p w (@page_select Toy.toy_host p sel v);
  page_eval_checked := fun p sel w => on_live p w (@page_eval_checked Toy.toy_host p sel);
  page_evaluate := fun p w => on_live p w (@page_evaluate Toy.toy_host p);
  page_waitForSelector := fun p sel t w =>
    on_live p w (@page_waitForSelector Toy.toy_host p sel t);
  mouse_click := fun p x y w => on_live p w (@mouse_click Toy.toy_host p x y);
  document_querySelector := @document_querySelector Toy.toy_host;
  element_tagName := @element_tagName Toy.toy_host;
  element_set_value := @element_set_value Toy.toy_host;
  element_dispatchEvent := @element_dispatchEvent Toy.toy_host;
  element_submit := @element_submit Toy.toy_host
|}.

(** A playback object that still holds the stale handle. *)
Definition holding_stale (r : Recording) (doc : list Toy.Node) : State :=
  mkState (Some tt) (Some 0%nat) 1 (Some (documented r)) (Toy.page_with doc) [].

End Stale.

(** ** The command line on the small host *)
Module ToyCli.

(** The numbers the toy [parseFloat] reads. *)
Definition numbers : list (string * Q) :=
  [ ("2", 2); ("0.5", 1 # 2); ("1", 1); ("0", 0); ("-1", -1 # 1) ]%Q.

Definition parse_number (text : string) : option Q :=
  option_map snd (find (fun e => String.eqb (fst e) text) numbers).

Definition launch (_ : bool) (w : Toy.World) : Result unit * Toy.World := (Ok tt, w).

Definition newPage (_ : unit) (w : Toy.World) : Result nat * Toy.World := (Ok 0%nat, w).

Definition setUserAgent (_ : nat) (_ : string) (w : Toy.World) : Result unit * Toy.World :=
  (Ok tt, w).

Definition close (_ : unit) (w : Toy.World) : Result unit * Toy.World := (Ok tt, w).

#[export] Instance toy_launcher : Launcher Toy.toy_host :=
  Build_Launcher Toy.toy_host parse_number (fun file _ => file)
    launch newPage setUserAgent close.

(** Form fields and records for the other dispatchers. *)
Definition slider : Toy.Node :=
  {| Toy.matches := ["#volume"]; Toy.tag := "INPUT"; Toy.node_checked := None;
     Toy.node_value := "10"; Toy.clickable := true |}.

Definition country_field : Toy.Node :=
  {| Toy.matches := ["#country"]; Toy.tag := "INPUT"; Toy.node_checked := None;
     Toy.node_value := EmptyString; Toy.clickable := true |}.

Definition country_select : Toy.Node :=
  {| Toy.matches := ["#country"]; Toy.tag := "SELECT"; Toy.node_checked := None;
     Toy.node_value := EmptyString; Toy.clickable := true |}.

Definition range_volume : Interaction :=
  {| type := "range"; timestamp := Some 5000; url := JStr "http://a/";
     tagName := JStr "INPUT"; id := JStr "volume"; className := JNull;
     name := JUndefined; selector := JStr "#volume"; value := JStr "70";
     checked := None; coordinates := None |}.

Definition navigate_to (u : string) : Interaction :=
  {| type := "navigation"; timestamp := Some 6000; url := JStr u;
     tagName := JUndefined; id := JUndefined; className := JUndefined;
     name := JUndefined; selector := JUndefined; value := JUndefined;
     checked := None; coordinates := None |}.

Definition hover_menu : Interaction :=
  {| type := "hover"; timestamp := Some 7000; url := JStr "http://a/";
     tagName := JStr "DIV"; id := JStr "menu"; className := JNull;
     name := JUndefined; selector := JStr "#menu"; value := JUndefined;
     checked := None; coordinates := None |}.

Definition signup_form : Toy.Node :=
  {| Toy.matches := ["#signup"]; Toy.tag := "FORM"; Toy.node_checked := None;
     Toy.node_value := EmptyString; Toy.clickable := true |}.

(** A browser that launches and then cannot open a page. *)
Definition no_newPage (_ : unit) (w : Toy.World) : Result nat * Toy.World :=
  (Throw "Protocol error (Target.createTarget): Target closed", w).

Definition pageless_launcher : Launcher Toy.toy_host :=
  Build_Launcher Toy.toy_host parse_number (fun file _ => file)
    launch no_newPage setUserAgent close.

End ToyCli.

(** * Properties *)

(** ** Timing scheduler *)

Section Scheduler.

Context `{host : Host}.

Local Open Scope Q_scope.

Lemma Math_max_is_Qmax (a b : Q) : Math_max a b == Qmax a b.
Proof.
  unfold Math_max. destruct (Qle_bool a b) eqn:E.
  - apply Qle_bool_iff in E. symmetry. now apply Q.max_r.
  - symmetry. apply Q.max_l. apply Qlt_le_weak, Qnot_le_lt.
    intros H. apply Qle_bool_iff in H. congruence.
Qed.

Lemma scaled_antitone (d s1 s2 : Q) :
  0 <= d -> 0 < s1 -> s1 <= s2 -> d / s2 <= d / s1.
Proof.
  intros Hd Hs1 Hle.
  assert (Hs2 : 0 < s2) by (eapply Qlt_le_trans; eassumption).
  apply Qle_shift_div_r; [exact Hs2 |].
  assert (Hq : 0 <= d / s1).
  { apply Qle_shift_div_l; [exact Hs1 |]. now rewrite Qmult_0_l. }
  assert (Hd1 : d == d / s1 * s1).
  { field. intros E. rewrite E in Hs1. now apply Qlt_irrefl in Hs1. }
  rewrite Hd1 at 1.
  rewrite (Qmult_comm (d / s1) s1), (Qmult_comm (d / s1) s2).
  now apply Qmult_le_compat_r.
Qed.

Lemma scaled_nonpositive (d s : Q) : d <= 0 -> 0 < s -> d / s <= 0.
Proof.
  intros Hd Hs. apply Qle_shift_div_r; [exact Hs |]. now rewrite Qmult_0_l.
Qed.

Lemma delay_floor (this : State) (prev curr : Q) :
  50 <= calculateDelay this prev curr.
Proof.
  unfold calculateDelay. rewrite Math_max_is_Qmax. apply Q.le_max_r.
Qed.

(** C2. For every speed above zero [calculateDelay] is the larger of the
    scaled interval [(curr - prev) / speed] and 50; it does not grow when the
    speed grows; it is the 50 ms floor when the interval is zero or negative;
    for 1000 and 1500 at speed 2 it is 250. *)
Theorem calculateDelay_max_scaled_floor (this : State) (prev curr : Q) :
  0 < playbackSpeed this ->
  calculateDelay this prev curr == Qmax ((curr - prev) / playbackSpeed this) 50
  /\ (forall faster : State,
        playbackSpeed this <= playbackSpeed faster ->
        calculateDelay faster prev curr <= calculateDelay this prev curr)
  /\ (curr == prev -> calculateDelay this prev curr == 50)
  /\ (curr < prev -> calculateDelay this prev curr == 50)
  /\ (playbackSpeed this == 2 -> calculateDelay this 1000 1500 == 250).
Proof.
  intros Hspeed. repeat split.
  - unfold calculateDelay. apply Math_max_is_Qmax.
  - intros faster Hle. unfold calculateDelay. rewrite !Math_max_is_Qmax.
    destruct (Qlt_le_dec (curr - prev) 0) as [Hneg | Hpos].
    + rewrite (Q.max_r ((curr - prev) / playbackSpeed faster) 50).
      * apply Q.le_max_r.
      * apply Qle_trans with 0; [| discriminate].
        apply scaled_nonpositive; [now apply Qlt_le_weak |].
        eapply Qlt_le_trans; eassumption.
    + apply Q.max_le_compat_r. now apply scaled_antitone.
  - intros E. unfold calculateDelay. rewrite Math_max_is_Qmax.
    apply Q.max_r. apply Qle_trans with 0; [| discriminate].
    apply scaled_nonpositive; [| exact Hspeed]. rewrite E. lra.
  - intros Hlt. unfold calculateDelay. rewrite Math_max_is_Qmax.
    apply Q.max_r. apply Qle_trans with 0; [| discriminate].
    apply scaled_nonpositive; [lra | exact Hspeed].
  - intros E. unfold calculateDelay. rewrite Math_max_is_Qmax, E.
    rewrite Q.max_l by discriminate. reflexivity.
Qed.

End Scheduler.

(** ** Reasoning about computations *)

Section Framework.

Context `{host : Host}.

Lemma bind_Ok {A B : Type} (m : M A) (k : A -> M B) (s s1 : State) (a : A) :
  m s = (Ok a, s1) -> bind m k s = k a s1.
Proof. intros E. unfold bind. now rewrite E. Qed.

Lemma try_Throw {A : Type} (m : M A) (h : string -> M A) (s s1 : State) (e : string) :
  m s = (Throw e, s1) -> try_catch m h s = h e s1.
Proof. intros E. unfold try_catch. now rewrite E. Qed.

(** *** Computations that never throw *)

Lemma safe_run {A : Type} (m : M A) :
  safe m -> forall s, exists a s', m s = (Ok a, s').
Proof.
  intros H s. specialize (H s). destruct (m s) as [[a | e] s'].
  - now exists a, s'.
  - discriminate.
Qed.

Lemma safe_ret {A : Type} (a : A) : safe (ret a).
Proof. intros s. reflexivity. Qed.

Lemma safe_gets {A : Type} (f : State -> A) : safe (gets f).
Proof. intros s. reflexivity. Qed.

Lemma safe_modify (f : State -> State) : safe (modify f).
Proof. intros s. reflexivity. Qed.

Lemma safe_console_log (m : Msg) : safe (console_log m).
Proof. intros s. reflexivity. Qed.

Lemma safe_console_error (m : Msg) : safe (console_error m).
Proof. intros s. reflexivity. Qed.

Lemma safe_setTimeout (ms : Q) : safe (setTimeout ms).
Proof. intros s. reflexivity. Qed.

Lemma safe_bind {A B : Type} (m : M A) (k : A -> M B) :
  safe m -> (forall a, safe (k a)) -> safe (bind m k).
Proof.
  intros Hm Hk s. unfold bind. specialize (Hm s).
  destruct (m s) as [[a | e] s1]; [apply Hk | discriminate].
Qed.

Lemma safe_try_catch {A : Type} (m : M A) (h : string -> M A) :
  (forall e, safe (h e)) -> safe (try_catch m h).
Proof.
  intros Hh s. unfold try_catch.
  destruct (m s) as [[a | e] s1]; [reflexivity | apply Hh].
Qed.

(** *** What a computation may append to the trace *)

Lemma emits_ret {A : Type} (f : Event -> bool) (a : A) : emits f (ret a).
Proof.
  intros s. cbn. repeat split. exists []. now rewrite app_nil_r.
Qed.

Lemma emits_throw {A : Type} (f : Event -> bool) (e : string) : emits f (@throw _ A e).
Proof.
  intros s. cbn. repeat split. exists []. now rewrite app_nil_r.
Qed.

Lemma emits_gets {A : Type} (f : Event -> bool) (g : State -> A) : emits f (gets g).
Proof.
  intros s. cbn. repeat split. exists []. now rewrite app_nil_r.
Qed.

Lemma emits_lift {A : Type} (f : Event -> bool) (r : Result A) : emits f (lift r).
Proof.
  intros s. cbn. repeat split. exists []. now rewrite app_nil_r.
Qed.

Lemma emits_set_page (f : Event -> bool) (p : option Page) : emits f (modify (set_page p)).
Proof.
  intros s. cbn. repeat split. exists []. now rewrite app_nil_r.
Qed.

Lemma emits_querySelector (f : Event -> bool) (p : Page) (sel : string) :
  emits f (querySelector p sel).
Proof.
  intros s. cbn. repeat split. exists []. now rewrite app_nil_r.
Qed.

Lemma emits_read_recording {A : Type} (f : Event -> bool) (property : string)
    (field : Parsed -> A) :
  emits f (read_recording property field).
Proof.
  intros s. unfold read_recording.
  destruct (recording s) eqn:E; cbn; rewrite ?E; repeat split;
    exists []; now rewrite app_nil_r.
Qed.

Lemma emits_read_totalInteractions (f : Event -> bool) : emits f read_totalInteractions.
Proof. apply emits_read_recording. Qed.

Lemma emits_emit (f : Event -> bool) (e : Event) : f e = true -> emits f (emit e).
Proof.
  intros H s. cbn. repeat split. exists [e]. split; [reflexivity |].
  cbn. now rewrite H.
Qed.

Lemma emits_console_log (f : Event -> bool) (m : Msg) :
  f (ConsoleLog m) = true -> emits f (console_log m).
Proof. apply emits_emit. Qed.

Lemma emits_console_error (f : Event -> bool) (m : Msg) :
  f (ConsoleError m) = true -> emits f (console_error m).
Proof. apply emits_emit. Qed.

Lemma emits_setTimeout (f : Event -> bool) (ms : Q) :
  f (Sleep ms) = true -> emits f (setTimeout ms).
Proof. apply emits_emit. Qed.

Lemma emits_invoke {A : Type} (f : Event -> bool) (c : Call) (g : W -> Result A * W) :
  f (Invoke c) = true -> emits f (invoke c g).
Proof.
  intros H s. unfold invoke. destruct (g (world s)) as [r w]. cbn.
  repeat split. exists [Invoke c]. split; [reflexivity |]. cbn. now rewrite H.
Qed.

Lemma emits_dom_write (f : Event -> bool) (d : DomOp) (g : W -> W) :
  f (Dom d) = true -> emits f (dom_write d g).
Proof.
  intros H s. cbn. repeat split. exists [Dom d]. split; [reflexivity |].
  cbn. now rewrite H.
Qed.

Lemma emits_with_page {A : Type} (f : Event -> bool) (k : Page -> M A) :
  (forall p, emits f (k p)) -> emits f (with_page k).
Proof.
  intros H s. unfold with_page. destruct (page s) as [p |].
  - apply H.
  - cbn. repeat split. exists []. now rewrite app_nil_r.
Qed.

Lemma emits_with_browser {A : Type} (f : Event -> bool) (k : Browser -> M A) :
  (forall b, emits f (k b)) -> emits f (with_browser k).
Proof.
  intros H s. unfold with_browser. destruct (browser s) as [b |] eqn:E.
  - rewrite <- E. apply H.
  - cbn. rewrite E. repeat split. exists []. now rewrite app_nil_r.
Qed.

Lemma emits_bind {A B : Type} (f : Event -> bool) (m : M A) (k : A -> M B) :
  emits f m -> (forall a, emits f (k a)) -> emits f (bind m k).
Proof.
  intros Hm Hk s. unfold bind.
  destruct (Hm s) as (Hb & Hq & Hr & d1 & Hd1 & Hf1).
  destruct (m s) as [[a | e] s1]; cbn in *.
  - destruct (Hk a s1) as (Hb2 & Hq2 & Hr2 & d2 & Hd2 & Hf2).
    repeat split; try congruence.
    exists (d1 ++ d2). split.
    + rewrite Hd2, Hd1. now rewrite app_assoc.
    + rewrite forallb_app. now rewrite Hf1, Hf2.
  - repeat split; try assumption. now exists d1.
Qed.

Lemma emits_try_catch {A : Type} (f : Event -> bool) (m : M A) (h : string -> M A) :
  emits f m -> (forall e, emits f (h e)) -> emits f (try_catch m h).
Proof.
  intros Hm Hh s. unfold try_catch.
  destruct (Hm s) as (Hb & Hq & Hr & d1 & Hd1 & Hf1).
  destruct (m s) as [[a | e] s1]; cbn in *.
  - repeat split; try assumption. now exists d1.
  - destruct (Hh e s1) as (Hb2 & Hq2 & Hr2 & d2 & Hd2 & Hf2).
    repeat split; try congruence.
    exists (d1 ++ d2). split.
    + rewrite Hd2, Hd1. now rewrite app_assoc.
    + rewrite forallb_app. now rewrite Hf1, Hf2.
Qed.

Lemma emits_subset {A : Type} (f g : Event -> bool) (m : M A) :
  (forall e, f e = true -> g e = true) -> emits f m -> emits g m.
Proof.
  intros Hfg Hm s. destruct (Hm s) as (Hb & Hq & Hr & d & Hd & Hf).
  repeat split; try assumption. exists d. split; [assumption |].
  rewrite forallb_forall in *. auto.
Qed.

End Framework.

(** One step of a proof that a computation only emits accepted events. *)
Ltac emits_step :=
  match goal with
  | |- emits _ (bind _ _) => apply emits_bind; [| intro]
  | |- emits _ (try_catch _ _) => apply emits_try_catch; [| intro]
  | |- emits _ (with_page _) => apply emits_with_page; intro
  | |- emits _ (with_browser _) => apply emits_with_browser; intro
  | |- emits _ (invoke _ _) => apply emits_invoke; reflexivity
  | |- emits _ (console_log _) => apply emits_console_log; reflexivity
  | |- emits _ (console_error _) => apply emits_console_error; reflexivity
  | |- emits _ (setTimeout _) => apply emits_setTimeout; reflexivity
  | |- emits _ (dom_write _ _) => apply emits_dom_write; reflexivity
  | |- emits _ (ret _) => apply emits_ret
  | |- emits _ (throw _) => apply emits_throw
  | |- emits _ (gets _) => apply emits_gets
  | |- emits _ (lift _) => apply emits_lift
  | |- emits _ (modify (set_page _)) => apply emits_set_page
  | |- emits _ (querySelector _ _) => apply emits_querySelector
  | |- emits _ read_totalInteractions => apply emits_read_totalInteractions
  | |- emits _ (read_recording _ _) => apply emits_read_recording
  | |- emits _ (if ?b then _ else _) => destruct b
  | |- emits _ (match ?x with _ => _ end) => destruct x
  | |- emits _ _ => first [assumption | solve [auto]]
  end.

Ltac emits_all :=
  unfold ensurePageReady, waitForElement, refresh_page, evaluate;
  repeat emits_step.

(** One step of a proof that a computation never throws. *)
Ltac safe_step :=
  match goal with
  | |- safe (bind _ _) => apply safe_bind; [| intro]
  | |- safe (try_catch _ _) => apply safe_try_catch; intro
  | |- safe (console_log _) => apply safe_console_log
  | |- safe (console_error _) => apply safe_console_error
  | |- safe (setTimeout _) => apply safe_setTimeout
  | |- safe (ret _) => apply safe_ret
  | |- safe (gets _) => apply safe_gets
  | |- safe (modify _) => apply safe_modify
  | |- safe (if ?b then _ else _) => destruct b
  | |- safe (match ?x with _ => _ end) => destruct x
  | |- safe _ => assumption
  end.

(** ** Playback controller *)

Section Controller.

Context `{host : Host}.

Lemma playClick_loop_quiet (selectors : list string) :
  emits no_attempt (playClick_loop selectors).
Proof.
  induction selectors as [| sel rest IH]; cbn [playClick_loop]; emits_all.
Qed.

Lemma playInput_loop_quiet (interaction : Interaction) (selectors : list string) :
  emits no_attempt (playInput_loop interaction selectors).
Proof.
  induction selectors as [| sel rest IH]; cbn [playInput_loop]; emits_all.
Qed.

Lemma playChange_loop_quiet (interaction : Interaction) (selectors : list string) :
  emits no_attempt (playChange_loop interaction selectors).
Proof.
  induction selectors as [| sel rest IH]; cbn [playChange_loop];
    unfold change_callback; emits_all.
Qed.

Lemma playCheckbox_loop_quiet (interaction : Interaction) (selectors : list string) :
  emits no_attempt (playCheckbox_loop interaction selectors).
Proof.
  induction selectors as [| sel rest IH]; cbn [playCheckbox_loop]; emits_all.
Qed.

Lemma dispatch_quiet (interaction : Interaction) :
  emits no_attempt (dispatch interaction).
Proof.
  pose proof playClick_loop_quiet.
  pose proof (playInput_loop_quiet interaction (playInput_selectors interaction)).
  pose proof (playChange_loop_quiet interaction (playInput_selectors interaction)).
  pose proof (playCheckbox_loop_quiet interaction (playInput_selectors interaction)).
  unfold dispatch, playNavigation, playClick, playInput, playChange, playCheckbox,
    playRange, playSubmit, range_callback, submit_callback.
  emits_all.
Qed.

Lemma prepare_page_quiet (interaction : Interaction) :
  emits no_attempt (prepare_page interaction).
Proof. unfold prepare_page. emits_all. Qed.

Lemma pace_quiet (previousTimestamp : option Q) (interaction : Interaction) :
  emits no_attempt (pace previousTimestamp interaction).
Proof. unfold pace. emits_all. Qed.

Lemma pace_safe (previousTimestamp : option Q) (interaction : Interaction) :
  safe (pace previousTimestamp interaction).
Proof. unfold pace. repeat safe_step. Qed.

Lemma playInteraction_safe (interaction : Interaction) (index : nat) :
  safe (playInteraction interaction index).
Proof. unfold playInteraction. repeat safe_step. Qed.

Lemma attempts_app (d1 d2 : list Event) :
  attempts (d1 ++ d2) = attempts d1 ++ attempts d2.
Proof. unfold attempts. apply flat_map_app. Qed.

Lemma attempts_quiet (d : list Event) :
  forallb no_attempt d = true -> attempts d = [].
Proof.
  induction d as [| e d IH]; [reflexivity |]. cbn. unfold no_attempt at 1.
  destruct (attempt_of e); [discriminate |]. cbn. exact IH.
Qed.

Lemma numbered_length (from : nat) (l : list Interaction) :
  length (numbered from l) = length l.
Proof.
  revert from. induction l as [| i l IH]; intros from; cbn; [reflexivity |].
  now rewrite IH.
Qed.

(** An event handled with a recording in place: the handler returns, the
    engine's fields are as before, and the trace grows by the progress line
    of the event followed by events that open no other attempt. *)
Lemma playInteraction_attempt (interaction : Interaction) (index : nat)
    (r : Parsed) (s : State) :
  recording s = Some r ->
  exists s' d,
    playInteraction interaction index s = (Ok tt, s') /\
    browser s' = browser s /\ playbackSpeed s' = playbackSpeed s /\
    recording s' = recording s /\
    trace s' = trace s
               ++ ConsoleLog (MPlaying (index + 1) (parsed_totalInteractions r)
                                (type interaction) (url interaction)) :: d /\
    forallb no_attempt d = true.
Proof.
  intros Hr.
  set (header := ConsoleLog (MPlaying (index + 1) (parsed_totalInteractions r)
                               (type interaction) (url interaction))).
  set (rest := try_catch
                 (bind (prepare_page interaction) (fun _ => dispatch interaction))
                 (fun message => console_error (MErrorPlaying (index + 1) message))).
  assert (Hrest : emits no_attempt rest).
  { unfold rest. pose proof (prepare_page_quiet interaction).
    pose proof (dispatch_quiet interaction). repeat emits_step. }
  assert (Hsafe : safe rest).
  { unfold rest. repeat safe_step. }
  assert (Hrun : playInteraction interaction index s = rest (add_event header s)).
  { unfold playInteraction, playInteraction_body, rest, try_catch, bind,
      read_totalInteractions, read_recording, console_log, emit, modify.
    rewrite Hr. reflexivity. }
  destruct (safe_run rest Hsafe (add_event header s)) as ([] & s' & Hs').
  destruct (Hrest (add_event header s)) as (Hb & Hq & Hrec & d & Hd & Hf).
  rewrite Hs' in Hb, Hq, Hrec, Hd. cbn in Hb, Hq, Hrec, Hd.
  exists s', d. rewrite Hrun, Hs'. repeat split; try assumption.
  rewrite Hd. now rewrite <- app_assoc.
Qed.

(** The loop handles every event left, in order. *)
Lemma startPlayback_loop_attempts (rest : list Interaction) :
  forall (i : nat) (previousTimestamp : option Q) (r : Parsed) (s : State),
    recording s = Some r ->
    exists s' d,
      startPlayback_loop (map Some rest) i previousTimestamp s = (Ok tt, s') /\
      browser s' = browser s /\ playbackSpeed s' = playbackSpeed s /\
      recording s' = recording s /\
      trace s' = trace s ++ d /\
      attempts d = numbered (i + 1) rest.
Proof.
  induction rest as [| interaction rest IH]; intros i previous r s Hr.
  - exists s, []. cbn. repeat split. now rewrite app_nil_r.
  - cbn [startPlayback_loop map].
    destruct (safe_run _ (pace_safe previous interaction) s) as ([] & s1 & Hpace).
    destruct (pace_quiet previous interaction s) as (Hb1 & Hq1 & Hr1 & d1 & Hd1 & Hf1).
    rewrite Hpace in Hb1, Hq1, Hr1, Hd1. cbn in Hb1, Hq1, Hr1, Hd1.
    assert (Hrec1 : recording s1 = Some r) by congruence.
    destruct (playInteraction_attempt interaction i r s1 Hrec1)
      as (s2 & d2 & Hplay & Hb2 & Hq2 & Hr2 & Hd2 & Hf2).
    assert (Hrec2 : recording s2 = Some r) by congruence.
    destruct (IH (S i) (timestamp interaction) r s2 Hrec2)
      as (s3 & d3 & Hloop & Hb3 & Hq3 & Hr3 & Hd3 & Ha3).
    exists s3, (d1 ++ ConsoleLog (MPlaying (i + 1) (parsed_totalInteractions r)
                                    (type interaction) (url interaction)) :: d2 ++ d3).
    rewrite (bind_Ok _ _ _ _ _ Hpace), (bind_Ok _ _ _ _ _ Hplay), Hloop.
    repeat split; try congruence.
    + rewrite Hd3, Hd2, Hd1. rewrite <- !app_assoc. reflexivity.
    + rewrite attempts_app. rewrite (attempts_quiet d1 Hf1). cbn.
      rewrite attempts_app. rewrite (attempts_quiet d2 Hf2). cbn.
      rewrite Ha3. reflexivity.
Qed.

(** A run with a recording and a browser completes and handles every event
    of the sequence once, in stored order. *)
Lemma startPlayback_completes (r : Recording) (s : State) :
  recording s = Some (documented r) -> browser s <> None ->
  exists s' d,
    startPlayback s = (Ok tt, s') /\
    trace s' = trace s ++ d /\
    attempts d = numbered 1 (interactions r).
Proof.
  intros Hr Hb. unfold startPlayback.
  destruct (browser s) as [b |] eqn:Eb; [| congruence].
  assert (Hs0 : recording
            (add_event (ConsoleLog MPressCtrlC)
               (add_event (ConsoleLog (MStarting (totalInteractions r) (playbackSpeed s))) s))
          = Some (documented r)) by exact Hr.
  destruct (startPlayback_loop_attempts (interactions r) 0 None _ _ Hs0)
    as (s1 & d & Hloop & _ & _ & _ & Hd & Ha).
  exists (add_event (ConsoleLog MCompleted) s1),
    (ConsoleLog (MStarting (totalInteractions r) (playbackSpeed s))
     :: ConsoleLog MPressCtrlC :: d ++ [ConsoleLog MCompleted]).
  repeat split.
  - unfold bind at 1, gets at 1. rewrite Hr. unfold bind at 1, gets at 1. rewrite Eb.
    unfold bind at 1, gets at 1.
    unfold bind at 1, console_log at 1, emit at 1, modify at 1.
    unfold bind at 1, console_log at 1, emit at 1, modify at 1.
    cbn [documented parsed_interactions parsed_totalInteractions].
    unfold bind at 1. rewrite Hloop. reflexivity.
  - cbn. rewrite Hd. cbn. rewrite <- !app_assoc. reflexivity.
  - change (attempts ([ConsoleLog (MStarting (totalInteractions r) (playbackSpeed s));
                       ConsoleLog MPressCtrlC] ++ d ++ [ConsoleLog MCompleted])
            = numbered 1 (interactions r)).
    rewrite !attempts_app. cbn. rewrite app_nil_r. exact Ha.
Qed.

Lemma playInteraction_null_safe (index : nat) : safe (playInteraction_null index).
Proof. unfold playInteraction_null. repeat safe_step. Qed.

Lemma playInteraction_null_quiet (index : nat) :
  emits no_attempt (playInteraction_null index).
Proof. unfold playInteraction_null. emits_all. Qed.

Lemma playInteraction_quiet_after (interaction : Interaction) (index : nat) :
  emits (fun _ => true) (playInteraction interaction index).
Proof.
  pose proof (emits_subset no_attempt (fun _ => true) _ (fun _ _ => eq_refl)
                (prepare_page_quiet interaction)).
  pose proof (emits_subset no_attempt (fun _ => true) _ (fun _ _ => eq_refl)
                (dispatch_quiet interaction)).
  unfold playInteraction, playInteraction_body. emits_all.
Qed.

(** A [null] entry ends the loop with a [TypeError], whatever the entries
    before it do. *)
Lemma startPlayback_loop_null (entries : list (option Interaction)) :
  In None entries ->
  forall (i : nat) (previousTimestamp : option Q) (s : State),
    exists s' d,
      startPlayback_loop entries i previousTimestamp s
      = (Throw "Cannot read properties of null (reading 'timestamp')", s') /\
      trace s' = trace s ++ d.
Proof.
  induction entries as [| entry rest IH]; intros Hin i previous s; [destruct Hin |].
  destruct entry as [interaction |]; cbn [startPlayback_loop].
  - destruct Hin as [Hhead | Hin]; [discriminate |].
    destruct (safe_run _ (pace_safe previous interaction) s) as ([] & s1 & Hpace).
    destruct (pace_quiet previous interaction s) as (_ & _ & _ & d1 & Hd1 & _).
    rewrite Hpace in Hd1. cbn in Hd1.
    destruct (safe_run _ (playInteraction_safe interaction i) s1) as ([] & s2 & Hplay).
    destruct (playInteraction_quiet_after interaction i s1) as (_ & _ & _ & d2 & Hd2 & _).
    rewrite Hplay in Hd2. cbn in Hd2.
    destruct (IH Hin (S i) (timestamp interaction) s2) as (s3 & d3 & Hloop & Hd3).
    exists s3, (d1 ++ d2 ++ d3).
    rewrite (bind_Ok _ _ _ _ _ Hpace), (bind_Ok _ _ _ _ _ Hplay), Hloop.
    split; [reflexivity |]. rewrite Hd3, Hd2, Hd1. now rewrite <- !app_assoc.
  - destruct (truthy_timestamp previous).
    + exists s, []. split; [reflexivity | now rewrite app_nil_r].
    + destruct (safe_run _ (playInteraction_null_safe i) s) as ([] & s1 & Hnull).
      destruct (playInteraction_null_quiet i s) as (_ & _ & _ & d1 & Hd1 & _).
      rewrite Hnull in Hd1. cbn in Hd1.
      exists s1, d1. rewrite (bind_Ok _ _ _ _ _ Hnull). split; [reflexivity | exact Hd1].
Qed.

(** C9, as the code has it. Without a recording, or without a browser,
    [startPlayback] throws at once and leaves the state as it was: nothing
    is logged, called or dispatched. With a recording of the documented
    shape in place the run throws in no other state. The shape of what was
    loaded is not checked: with a browser attached, a loaded value without an
    [interactions] array, or with a [null] entry in it, makes the run throw
    as well, after its opening lines. *)
Theorem startPlayback_fatal_preconditions (s : State) :
  (recording s = None \/ browser s = None ->
   exists message, startPlayback s = (Throw message, s))
  /\ (forall r message s',
        recording s = Some (documented r) ->
        startPlayback s = (Throw message, s') ->
        browser s = None)
  /\ (forall loaded,
        recording s = Some loaded -> browser s <> None ->
        parsed_interactions loaded = None
        \/ (exists entries, parsed_interactions loaded = Some entries /\ In None entries) ->
        exists message s' d,
          startPlayback s = (Throw message, s') /\
          trace s' = trace s
                     ++ ConsoleLog (MStarting (parsed_totalInteractions loaded)
                                      (playbackSpeed s))
                        :: ConsoleLog MPressCtrlC :: d).
Proof.
  split; [| split].
  - intros [Hr | Hb]; unfold startPlayback, bind, gets, throw.
    + rewrite Hr. eauto.
    + destruct (recording s); [rewrite Hb |]; eauto.
  - intros r message s' Hr Hrun.
    destruct (browser s) as [b |] eqn:Hb; [| reflexivity].
    assert (Hb' : browser s <> None) by congruence.
    destruct (startPlayback_completes r s Hr Hb') as (s1 & d & Hok & _).
    congruence.
  - intros loaded Hr Hb Hshape.
    destruct (browser s) as [b |] eqn:Eb; [| congruence].
    unfold startPlayback.
    unfold bind at 1, gets at 1. rewrite Hr. unfold bind at 1, gets at 1. rewrite Eb.
    unfold bind at 1, gets at 1.
    unfold bind at 1, console_log at 1, emit at 1, modify at 1.
    unfold bind at 1, console_log at 1, emit at 1, modify at 1.
    destruct Hshape as [Hnone | (entries & Hsome & Hin)].
    + rewrite Hnone. eexists. eexists. exists []. split; [reflexivity |].
      cbn. now rewrite <- app_assoc.
    + rewrite Hsome.
      destruct (startPlayback_loop_null entries Hin 0 None
                  (add_event (ConsoleLog MPressCtrlC)
                     (add_event (ConsoleLog (MStarting (parsed_totalInteractions loaded)
                                               (playbackSpeed s))) s)))
        as (s' & d & Hloop & Hd).
      eexists. exists s', d. unfold bind. rewrite Hloop. split; [reflexivity |].
      rewrite Hd. cbn. now rewrite <- !app_assoc.
Qed.

(** C5, as the code has it. When both timestamps are there and the scaled
    interval is at most 50 ms, the scheduler's delay is the 50 ms floor and
    the pacing step does nothing: no message and no wait. *)
Theorem pace_skips_floor_delay (previous current : Q) (interaction : Interaction)
    (s : State) :
  timestamp interaction = Some current ->
  ~ previous == 0 -> ~ current == 0 ->
  0 < playbackSpeed s ->
  (current - previous) / playbackSpeed s <= 50 ->
  calculateDelay s previous current == 50
  /\ pace (Some previous) interaction s = (Ok tt, s).
Proof.
  intros Ht Hp Hc Hspeed Hsmall.
  assert (Hdelay : calculateDelay s previous current == 50).
  { unfold calculateDelay. rewrite Math_max_is_Qmax. now apply Q.max_r. }
  split; [exact Hdelay |].
  unfold pace. rewrite Ht.
  destruct (Qeq_bool previous 0) eqn:E1; [now apply Qeq_bool_eq in E1 |].
  destruct (Qeq_bool current 0) eqn:E2; [now apply Qeq_bool_eq in E2 |].
  cbn [negb andb]. unfold bind, gets.
  assert (Hle : Qle_bool (calculateDelay s previous current) 50 = true).
  { apply Qle_bool_iff. rewrite Hdelay. apply Qle_refl. }
  now rewrite Hle.
Qed.

(** A delay above the floor is announced, rounded, and waited for in full. *)
Lemma pace_waits_above_floor (previous current : Q) (interaction : Interaction)
    (s : State) :
  timestamp interaction = Some current ->
  ~ previous == 0 -> ~ current == 0 ->
  50 < calculateDelay s previous current ->
  pace (Some previous) interaction s
  = (Ok tt, add_event (Sleep (calculateDelay s previous current))
              (add_event (ConsoleLog (MWaiting (Math_round (calculateDelay s previous current))))
                 s)).
Proof.
  intros Ht Hp Hc Hbig.
  unfold pace. rewrite Ht.
  destruct (Qeq_bool previous 0) eqn:E1; [now apply Qeq_bool_eq in E1 |].
  destruct (Qeq_bool current 0) eqn:E2; [now apply Qeq_bool_eq in E2 |].
  cbn [negb andb]. unfold bind, gets.
  destruct (Qle_bool (calculateDelay s previous current) 50) eqn:Hle.
  - apply Qle_bool_iff in Hle. exfalso. eapply Qlt_not_le; eassumption.
  - reflexivity.
Qed.

(** C6, as the code has it. Loading a file that parses stores the recording
    and prints three lines, the declared total among them as it is; the total
    is compared with nothing, so a mismatch gives no warning and no failure.
    A run on the loaded recording handles as many events as the sequence
    holds, whatever total was declared. *)
Theorem loadRecording_echoes_declared_total (filePath text : string)
    (r : Recording) (s : State) :
  fs_existsSync filePath (world s) = true ->
  fs_readFileSync filePath (world s) = Ok text ->
  JSON_parse text = Ok (Some (documented r)) ->
  browser s <> None ->
  exists loaded,
    loadRecording filePath s = (Ok tt, loaded) /\
    recording loaded = Some (documented r) /\
    trace loaded = trace s ++ [ ConsoleLog (MLoaded (sessionId r));
                                ConsoleLog (MTotal (totalInteractions r));
                                ConsoleLog (MDuration (startTime r) (endTime r)) ] /\
    exists s' d,
      startPlayback loaded = (Ok tt, s') /\
      trace s' = trace loaded ++ d /\
      length (attempts d) = length (interactions r).
Proof.
  intros Hexists Hread Hparse Hb.
  eexists. split; [| split; [| split]].
  - unfold loadRecording, bind, gets, lift, modify, console_log, emit, read_recording.
    rewrite Hexists. cbn [negb]. rewrite Hread, Hparse. reflexivity.
  - reflexivity.
  - cbn. rewrite <- !app_assoc. reflexivity.
  - match goal with
    | |- exists s' d, startPlayback ?l = _ /\ _ =>
        destruct (startPlayback_completes r l eq_refl Hb) as (s' & d & Hrun & Hd & Ha)
    end.
    exists s', d. repeat split; try assumption.
    rewrite Ha. apply numbered_length.
Qed.

End Controller.

(** ** Action dispatcher *)

(** Running a computation on a state: unfold the monad, then use the
    equations at hand for the calls that come up. *)
Ltac run :=
  unfold bind, try_catch, with_page, invoke, ret, throw, gets, lift,
    console_log, emit, modify, dom_write, querySelector;
  repeat (cbn;
          match goal with
          | H : ?l = _ |- context [?l] => rewrite H
          end);
  cbn.

Section States.

Context `{host : Host}.

Lemma add_event_set_world (e : Event) (w : W) (s : State) :
  add_event e (set_world w s) = extend s w [e].
Proof. reflexivity. Qed.

Lemma set_world_extend (s : State) (w w' : W) (d : list Event) :
  set_world w' (extend s w d) = extend s w' d.
Proof. reflexivity. Qed.

Lemma add_event_extend (e : Event) (s : State) (w : W) (d : list Event) :
  add_event e (extend s w d) = extend s w (d ++ [e]).
Proof. unfold extend, add_event. cbn. now rewrite app_assoc. Qed.

Lemma extend_extend (s : State) (w1 w2 : W) (d1 d2 : list Event) :
  extend (extend s w1 d1) w2 d2 = extend s w2 (d1 ++ d2).
Proof. unfold extend. cbn. now rewrite app_assoc. Qed.

Lemma extend_nothing (s : State) : extend s (world s) [] = s.
Proof. unfold extend. rewrite app_nil_r. now destruct s. Qed.

End States.

(** Two spellings of the same state: both are brought to the form
    [extend s w d]. *)
Ltac same_state :=
  repeat first [ rewrite add_event_set_world | rewrite set_world_extend
               | rewrite add_event_extend | rewrite extend_extend ];
  unfold queries, checks; cbn [map app];
  rewrite <- ?app_assoc; cbn [map app];
  reflexivity.

Section Dispatcher.

Context `{host : Host}.

Lemma waitForElement_safe (sel : jsstr) : safe (waitForElement sel).
Proof. unfold waitForElement. repeat safe_step. Qed.

Lemma waitForElement_page (sel : jsstr) (s s1 : State) (r : Result unit) :
  waitForElement sel s = (r, s1) -> page s1 = page s.
Proof.
  unfold waitForElement, try_catch, with_page, invoke, console_log, emit, modify.
  destruct (page s) as [p |] eqn:Hp.
  - destruct (page_waitForSelector p sel 5000 (world s)) as [[[] | e] w];
      intros H; inversion H; subst; cbn; now rewrite Hp.
  - intros H; inversion H; subst; cbn; now rewrite Hp.
Qed.


(** The click loop when no candidate matches: only queries, no click. *)
Lemma playClick_loop_unresolved (p : Page) (candidates : list string) :
  forall (s : State) (tried : list string) (w : W),
    page s = Some p ->
    probe p candidates (world s) = (tried, None, w) ->
    playClick_loop candidates s = (Ok false, extend s w (queries tried)).
Proof.
  induction candidates as [| c rest IH]; intros s tried w Hp H; cbn in H.
  - inversion H; subst. cbn. now rewrite extend_nothing.
  - cbn [playClick_loop].
    destruct (page_query p c (world s)) as [[[el |] | e] w1] eqn:Hq;
      [discriminate | |];
      destruct (probe p rest w1) as [[t f] w2] eqn:E; inversion H; subst;
      run;
      rewrite (IH (add_event (Invoke (CQuery c)) (set_world w1 s)) t w Hp E);
      same_state.
Qed.


(** The typing loop when no candidate matches. *)
Lemma playInput_loop_unresolved (interaction : Interaction) (p : Page)
    (candidates : list string) :
  forall (s : State) (tried : list string) (w : W),
    page s = Some p ->
    probe p candidates (world s) = (tried, None, w) ->
    playInput_loop interaction candidates s = (Ok false, extend s w (queries tried)).
Proof.
  induction candidates as [| c rest IH]; intros s tried w Hp H; cbn in H.
  - inversion H; subst. cbn. now rewrite extend_nothing.
  - cbn [playInput_loop].
    destruct (page_query p c (world s)) as [[[el |] | e] w1] eqn:Hq;
      [discriminate | |];
      destruct (probe p rest w1) as [[t f] w2] eqn:E; inversion H; subst;
      run;
      rewrite (IH (add_event (Invoke (CQuery c)) (set_world w1 s)) t w Hp E);
      same_state.
Qed.

(** The typing loop when a candidate matches, the field can be focused and
    cleared, and there is no value to type: focus, select all, delete, and
    the loop ends with [typed] set. *)
Lemma playInput_loop_clears (interaction : Interaction) (p : Page)
    (candidates : list string) :
  forall (s : State) (tried : list string) (sel : string) (w3 w4 w5 w6 w7 w8 : W),
    truthy (value interaction) = false ->
    page s = Some p ->
    probe p candidates (world s) = (tried, Some sel, w3) ->
    page_focus p sel w3 = (Ok tt, w4) ->
    keyboard_down p "Control" w4 = (Ok tt, w5) ->
    keyboard_press p "KeyA" w5 = (Ok tt, w6) ->
    keyboard_up p "Control" w6 = (Ok tt, w7) ->
    keyboard_press p "Backspace" w7 = (Ok tt, w8) ->
    playInput_loop interaction candidates s
    = (Ok true,
       extend s w8
         (queries tried
          ++ [ Invoke (CFocus sel); Invoke (CKeyDown "Control"); Invoke (CKeyPress "KeyA");
               Invoke (CKeyUp "Control"); Invoke (CKeyPress "Backspace") ])).
Proof.
  induction candidates as [| c rest IH];
    intros s tried sel w3 w4 w5 w6 w7 w8 Hv Hp H Hfocus Hdown Ha Hup Hback; cbn in H.
  - discriminate.
  - cbn [playInput_loop].
    destruct (page_query p c (world s)) as [[[el |] | e] w0] eqn:Hq.
    + inversion H; subst. run. same_state.
    + destruct (probe p rest w0) as [[t f] w9] eqn:E; inversion H; subst.
      run.
      rewrite (IH (add_event (Invoke (CQuery c)) (set_world w0 s)) t sel
                 w3 w4 w5 w6 w7 w8 Hv Hp E Hfocus Hdown Ha Hup Hback).
      same_state.
    + destruct (probe p rest w0) as [[t f] w9] eqn:E; inversion H; subst.
      run.
      rewrite (IH (add_event (Invoke (CQuery c)) (set_world w0 s)) t sel
                 w3 w4 w5 w6 w7 w8 Hv Hp E Hfocus Hdown Ha Hup Hback).
      same_state.
Qed.

(** The checkbox loop when the first readable candidate already has the
    wanted state: reads only. *)
Lemma playCheckbox_loop_matching (interaction : Interaction) (p : Page)
    (candidates : list string) :
  forall (s : State) (tried : list string) (sel : string) (state : option bool) (w1 : W),
    page s = Some p ->
    probe_checked p candidates (world s) = (tried, Some (sel, state), w1) ->
    differs state (shouldBeChecked interaction) = false ->
    playCheckbox_loop interaction candidates s = (Ok true, extend s w1 (checks tried)).
Proof.
  induction candidates as [| c rest IH]; intros s tried sel state w1 Hp H Hsame; cbn in H.
  - discriminate.
  - cbn [playCheckbox_loop].
    destruct (page_eval_checked p c (world s)) as [[st | e] w0] eqn:Hq.
    + inversion H; subst. run. same_state.
    + destruct (probe_checked p rest w0) as [[t f] w9] eqn:E; inversion H; subst.
      run.
      rewrite (IH (add_event (Invoke (CEvalChecked c)) (set_world w0 s)) t sel state w1
                 Hp E Hsame).
      same_state.
Qed.

(** The checkbox loop when the first readable candidate has the other state
    and the click on it succeeds: one click on that candidate. *)
Lemma playCheckbox_loop_toggles (interaction : Interaction) (p : Page)
    (candidates : list string) :
  forall (s : State) (tried : list string) (sel : string) (state : option bool)
         (w1 w2 : W),
    page s = Some p ->
    probe_checked p candidates (world s) = (tried, Some (sel, state), w1) ->
    differs state (shouldBeChecked interaction) = true ->
    page_click p sel w1 = (Ok tt, w2) ->
    playCheckbox_loop interaction candidates s
    = (Ok true,
       extend s w2
         (checks tried
          ++ [ Invoke (CClick sel);
               ConsoleLog (MToggled (shouldBeChecked interaction) sel) ])).
Proof.
  induction candidates as [| c rest IH];
    intros s tried sel state w1 w2 Hp H Hdiff Hclick; cbn in H.
  - discriminate.
  - cbn [playCheckbox_loop].
    destruct (page_eval_checked p c (world s)) as [[st | e] w0] eqn:Hq.
    + inversion H; subst. run. same_state.
    + destruct (probe_checked p rest w0) as [[t f] w9] eqn:E; inversion H; subst.
      run.
      rewrite (IH (add_event (Invoke (CEvalChecked c)) (set_world w0 s)) t sel state w1 w2
                 Hp E Hdiff Hclick).
      same_state.
Qed.

Lemma checks_have_no_click (tried : list string) :
  filter is_click (checks tried) = [].
Proof. induction tried as [| c t IH]; [reflexivity | exact IH]. Qed.

Lemma queries_have_no_mouse_click (tried : list string) :
  filter is_mouse_click (queries tried) = [].
Proof. induction tried as [| c t IH]; [reflexivity | exact IH]. Qed.

(** The [switch] sends each kind to its dispatcher. *)
Lemma dispatch_click (interaction : Interaction) :
  type interaction = "click" -> dispatch interaction = playClick interaction.
Proof. intros H. unfold dispatch. now rewrite H. Qed.

Lemma dispatch_input (interaction : Interaction) :
  type interaction = "input" \/ type interaction = "text" \/ type interaction = "search" ->
  dispatch interaction = playInput interaction.
Proof. intros [H | [H | H]]; unfold dispatch; now rewrite H. Qed.

Lemma dispatch_change (interaction : Interaction) :
  type interaction = "change" \/ type interaction = "select-one" ->
  dispatch interaction = playChange interaction.
Proof. intros [H | H]; unfold dispatch; now rewrite H. Qed.

Lemma dispatch_submit (interaction : Interaction) :
  type interaction = "submit" -> dispatch interaction = playSubmit interaction.
Proof. intros H. unfold dispatch. now rewrite H. Qed.

Lemma dispatch_checkbox (interaction : Interaction) :
  type interaction = "checkbox" -> dispatch interaction = playCheckbox interaction.
Proof. intros H. unfold dispatch. now rewrite H. Qed.


Lemma bind_ext {A B : Type} (m : M A) (k1 k2 : A -> M B) (s : State) :
  (forall a s', k1 a s' = k2 a s') -> bind m k1 s = bind m k2 s.
Proof.
  intros H. unfold bind. destruct (m s) as [[a | e] s']; [apply H | reflexivity].
Qed.

Lemma playInput_loop_ignores_coordinates (c : option (Q * Q)) (interaction : Interaction)
    (selectors : list string) :
  forall s,
    playInput_loop (with_coordinates c interaction) selectors s
    = playInput_loop interaction selectors s.
Proof.
  induction selectors as [| sel rest IH]; intros s; [reflexivity |].
  cbn [playInput_loop]. apply bind_ext. intros [|] s'; [reflexivity | apply IH].
Qed.

Lemma playInput_ignores_coordinates (c : option (Q * Q)) (interaction : Interaction) :
  forall s, playInput (with_coordinates c interaction) s = playInput interaction s.
Proof.
  intros s. unfold playInput. apply bind_ext. intros _ s1.
  apply bind_ext. intros _ s2.
  change (playInput_selectors (with_coordinates c interaction))
    with (playInput_selectors interaction).
  unfold bind. rewrite playInput_loop_ignores_coordinates. reflexivity.
Qed.

(** C7, as the code has it. On a live page where no selector candidate
    matches: a click event that carries coordinates, and whose [className]
    and [tagName] are strings or absent, ends in a mouse click at those
    coordinates (and in no element click). A click event whose [className]
    (or [tagName]) is any other value never gets that far: the list of
    candidates cannot be built, the dispatcher throws once the page checks
    are done, and neither a candidate is asked for nor a mouse click made,
    whatever coordinates the record carries. An input, text or search event
    ends in the message that the element could not be typed in, with no
    mouse click, whatever coordinates the record carries. *)
Theorem coordinate_fallback_only_for_click (interaction : Interaction)
    (s s1 s2 : State) (p : Page) :
  ensurePageReady s = (Ok tt, s1) ->
  waitForElement (selector interaction) s1 = (Ok tt, s2) ->
  page s2 = Some p ->
  (forall (x y : Q) (selectors tried : list string) (w : W),
     type interaction = "click" ->
     coordinates interaction = Some (x, y) ->
     playClick_selectors interaction = Ok selectors ->
     probe p selectors (world s2) = (tried, None, w) ->
     exists outcome w',
       mouse_click p x y w = (outcome, w') /\
       dispatch interaction s
       = (Ok tt,
          extend s2 w'
            (queries tried
             ++ [ Invoke (CMouseClick x y);
                  ConsoleLog match outcome with
                             | Ok _ => MClickedAt x y
                             | Throw message => MCouldNotClickAt message
                             end ])))
  /\ (forall (b : bool) (text : string),
        className interaction = JOther b text ->
        playClick_selectors interaction
        = Throw "interaction.className?.split is not a function")
  /\ (forall (message : string),
        type interaction = "click" ->
        playClick_selectors interaction = Throw message ->
        dispatch interaction s = (Throw message, s2))
  /\ (forall (tried : list string) (w : W) (c : option (Q * Q)),
        type interaction = "input" \/ type interaction = "text"
        \/ type interaction = "search" ->
        probe p (playInput_selectors interaction) (world s2) = (tried, None, w) ->
        dispatch (with_coordinates c interaction) s
        = (Ok tt,
           extend s2 w (queries tried ++ [ConsoleLog (MCouldNotType (selector interaction))]))
        /\ filter is_mouse_click
             (queries tried ++ [ConsoleLog (MCouldNotType (selector interaction))]) = []).
Proof.
  intros Hready Hwait Hp. split; [| split; [| split]].
  - intros x y selectors tried w Htype Hxy Hselectors Hprobe.
    destruct (mouse_click p x y w) as [outcome w'] eqn:Hmouse.
    exists outcome, w'. split; [reflexivity |].
    rewrite (dispatch_click _ Htype). unfold playClick.
    rewrite (bind_Ok _ _ _ _ _ Hready), (bind_Ok _ _ _ _ _ Hwait).
    rewrite Hselectors. unfold bind at 1, lift at 1.
    rewrite (bind_Ok _ _ _ _ _ (playClick_loop_unresolved p _ s2 tried w Hp Hprobe)).
    rewrite Hxy. destruct outcome as [[] | message]; run; same_state.
  - intros b text Hclass. unfold playClick_selectors. now rewrite Hclass.
  - intros message Htype Hselectors.
    rewrite (dispatch_click _ Htype). unfold playClick.
    rewrite (bind_Ok _ _ _ _ _ Hready), (bind_Ok _ _ _ _ _ Hwait).
    rewrite Hselectors. reflexivity.
  - intros tried w c Htype Hprobe. split.
    + rewrite dispatch_input by exact Htype.
      rewrite playInput_ignores_coordinates. unfold playInput.
      rewrite (bind_Ok _ _ _ _ _ Hready), (bind_Ok _ _ _ _ _ Hwait).
      rewrite (bind_Ok _ _ _ _ _ (playInput_loop_unresolved interaction p _ s2 tried w Hp Hprobe)).
      run. same_state.
    + rewrite filter_app. cbn. rewrite app_nil_r.
      apply queries_have_no_mouse_click.
Qed.

(** C10. An input, text or search event whose value is absent or empty, on
    a live page where a candidate matches and the field can be focused and
    cleared: the dispatcher focuses the field, selects all and deletes, types
    nothing, reports no skip, and returns normally. *)
Theorem empty_input_still_clears (interaction : Interaction)
    (s s1 s2 : State) (p : Page) (tried : list string) (sel : string)
    (w3 w4 w5 w6 w7 w8 : W) :
  type interaction = "input" \/ type interaction = "text"
  \/ type interaction = "search" ->
  value interaction = JUndefined \/ value interaction = JNull
  \/ value interaction = JStr EmptyString ->
  ensurePageReady s = (Ok tt, s1) ->
  waitForElement (selector interaction) s1 = (Ok tt, s2) ->
  page s2 = Some p ->
  probe p (playInput_selectors interaction) (world s2) = (tried, Some sel, w3) ->
  page_focus p sel w3 = (Ok tt, w4) ->
  keyboard_down p "Control" w4 = (Ok tt, w5) ->
  keyboard_press p "KeyA" w5 = (Ok tt, w6) ->
  keyboard_up p "Control" w6 = (Ok tt, w7) ->
  keyboard_press p "Backspace" w7 = (Ok tt, w8) ->
  dispatch interaction s
  = (Ok tt,
     extend s2 w8
       (queries tried
        ++ [ Invoke (CFocus sel); Invoke (CKeyDown "Control"); Invoke (CKeyPress "KeyA");
             Invoke (CKeyUp "Control"); Invoke (CKeyPress "Backspace") ])).
Proof.
  intros Htype Hvalue Hready Hwait Hp Hprobe Hfocus Hdown Ha Hup Hback.
  assert (Hv : truthy (value interaction) = false)
    by (destruct Hvalue as [-> | [-> | ->]]; reflexivity).
  rewrite dispatch_input by exact Htype. unfold playInput.
  rewrite (bind_Ok _ _ _ _ _ Hready), (bind_Ok _ _ _ _ _ Hwait).
  rewrite (bind_Ok _ _ _ _ _
             (playInput_loop_clears interaction p _ s2 tried sel w3 w4 w5 w6 w7 w8
                Hv Hp Hprobe Hfocus Hdown Ha Hup Hback)).
  reflexivity.
Qed.

Lemma strict_eq_string (a : string) (v : jsstr) :
  negb (strict_neq a v) = true <-> v = JStr a.
Proof.
  destruct v as [| | b | b text]; cbn; split; try discriminate.
  - rewrite negb_involutive. intros H. apply String.eqb_eq in H. now subst.
  - intros H. inversion H; subst. rewrite negb_involutive. apply String.eqb_refl.
Qed.

Lemma shouldBeChecked_spec (interaction : Interaction) :
  shouldBeChecked interaction = true <->
  checked interaction = Some true \/ value interaction = JStr "true".
Proof.
  unfold shouldBeChecked. destruct (checked interaction) as [[|] |].
  - split; auto.
  - rewrite strict_eq_string. split; [auto | intros [H | H]; [discriminate | exact H]].
  - rewrite strict_eq_string. split; [auto | intros [H | H]; [discriminate | exact H]].
Qed.

(** The comparison of line 278 finds no difference exactly when the element
    has a checked state and it is the wanted one. *)
Lemma differs_false (state : option bool) (should : bool) :
  differs state should = false <-> state = Some should.
Proof.
  destruct state as [[|] |]; destruct should; cbn; split;
    (reflexivity || discriminate).
Qed.

Lemma differs_true (state : option bool) (should : bool) :
  differs state should = true <-> state <> Some should.
Proof.
  destruct state as [[|] |]; destruct should; cbn; split; intros H;
    try reflexivity; try discriminate; try (now elim H).
Qed.

(** C8. A checkbox event whose target resolves: the wanted state is
    [record.checked], or else [value === "true"]; the checked state read from
    the element is compared with it; when the element's state is the wanted
    one the event is handled with no click at all; when it is not (the other
    boolean, or no checked state at all) the element is clicked (once, when
    the click succeeds). *)
Theorem checkbox_clicks_only_on_difference (interaction : Interaction)
    (s s1 : State) (p : Page) (tried : list string) (sel : string)
    (state : option bool) (w1 : W) :
  type interaction = "checkbox" ->
  waitForElement (selector interaction) s = (Ok tt, s1) ->
  page s1 = Some p ->
  probe_checked p (playInput_selectors interaction) (world s1)
  = (tried, Some (sel, state), w1) ->
  (shouldBeChecked interaction = true <->
   checked interaction = Some true \/ value interaction = JStr "true")
  /\ (state = Some (shouldBeChecked interaction) ->
      dispatch interaction s = (Ok tt, extend s1 w1 (checks tried))
      /\ filter is_click (checks tried) = [])
  /\ (state <> Some (shouldBeChecked interaction) ->
      forall w2, page_click p sel w1 = (Ok tt, w2) ->
      dispatch interaction s
      = (Ok tt,
         extend s1 w2
           (checks tried
            ++ [ Invoke (CClick sel);
                 ConsoleLog (MToggled (shouldBeChecked interaction) sel) ]))).
Proof.
  intros Htype Hwait Hp Hprobe. split; [| split].
  - apply shouldBeChecked_spec.
  - intros Hsame. apply differs_false in Hsame.
    split; [| apply checks_have_no_click].
    rewrite (dispatch_checkbox _ Htype). unfold playCheckbox.
    rewrite (bind_Ok _ _ _ _ _ Hwait).
    rewrite (bind_Ok _ _ _ _ _
               (playCheckbox_loop_matching interaction p _ s1 tried sel state w1
                  Hp Hprobe Hsame)).
    reflexivity.
  - intros Hdiff w2 Hclick. apply differs_true in Hdiff.
    rewrite (dispatch_checkbox _ Htype). unfold playCheckbox.
    rewrite (bind_Ok _ _ _ _ _ Hwait).
    rewrite (bind_Ok _ _ _ _ _
               (playCheckbox_loop_toggles interaction p _ s1 tried sel state w1 w2
                  Hp Hprobe Hdiff Hclick)).
    reflexivity.
Qed.

Lemma strict_neq_true (a : string) (v : jsstr) :
  v <> JStr a -> strict_neq a v = true.
Proof.
  intros H. destruct v as [| | b | b text]; try reflexivity. cbn.
  destruct (String.eqb_spec a b) as [-> | Hne]; [congruence | reflexivity].
Qed.

(** C4, as the code has it. A submit event whose selector matches nothing in
    the page, or matches an element that is not a form, and a change or
    select-one event on a tag other than SELECT whose first candidate matches
    nothing: the callback does nothing, no error is raised, and the event is
    logged as submitted or changed. *)
Theorem unresolved_submit_and_change_pass_silently (interaction : Interaction)
    (s s1 : State) (p : Page) (w2 : W) :
  waitForElement (selector interaction) s = (Ok tt, s1) ->
  page s1 = Some p ->
  page_evaluate p (world s1) = (Ok tt, w2) ->
  (type interaction = "submit" ->
   document_querySelector p (to_template (selector interaction)) w2 = Ok None
   \/ (exists el,
         document_querySelector p (to_template (selector interaction)) w2 = Ok (Some el)
         /\ String.eqb (element_tagName el w2) "FORM" = false) ->
   dispatch interaction s
   = (Ok tt, extend s1 w2 [Invoke CEvaluate; ConsoleLog (MSubmitted (selector interaction))]))
  /\ (type interaction = "change" \/ type interaction = "select-one" ->
      tagName interaction <> JStr "SELECT" ->
      forall (sel : string) (rest : list string),
        playInput_selectors interaction = sel :: rest ->
        document_querySelector p sel w2 = Ok None ->
        dispatch interaction s
        = (Ok tt,
           extend s1 w2 [Invoke CEvaluate; ConsoleLog (MChanged (value interaction) sel)])).
Proof.
  intros Hwait Hp Heval. split.
  - intros Htype Hquery. rewrite (dispatch_submit _ Htype). unfold playSubmit.
    rewrite (bind_Ok _ _ _ _ _ Hwait). unfold evaluate, submit_callback.
    destruct Hquery as [Hnone | (el & Hsome & Htag)]; run; same_state.
  - intros Htype Htag sel rest Hsel Hnone.
    rewrite dispatch_change by exact Htype. unfold playChange.
    rewrite (bind_Ok _ _ _ _ _ Hwait). rewrite Hsel. cbn [playChange_loop].
    rewrite (strict_neq_true _ _ Htag). unfold evaluate, change_callback.
    run. same_state.
Qed.

End Dispatcher.

(** * Further properties of the engine *)

Section EngineEdges.

Context `{host : Host}.


(** X3. [waitForElement] always returns: it waits up to 5000 ms for the selector
    and a wait that fails only adds a warning; the page reference, the
    browser and the recording are as before. *)
Theorem waitForElement_tolerates_timeout (sel : jsstr) (s : State) :
  exists s',
    waitForElement sel s = (Ok tt, s') /\
    page s' = page s /\ browser s' = browser s /\ recording s' = recording s /\
    (page s = None -> s' = add_event (ConsoleLog (MWarnNotFound sel)) s) /\
    (forall p outcome w,
       page s = Some p ->
       page_waitForSelector p sel 5000 (world s) = (outcome, w) ->
       s' = extend s w
              (Invoke (CWaitForSelector sel 5000)
               :: match outcome with
                  | Ok _ => []
                  | Throw _ => [ConsoleLog (MWarnNotFound sel)]
                  end)).
Proof.
  unfold waitForElement, try_catch, with_page, invoke, console_log, emit, modify.
  destruct (page s) as [p |] eqn:Hp.
  - destruct (page_waitForSelector p sel 5000 (world s)) as [[[] | e] w] eqn:Hw;
      eexists; (split; [reflexivity |]); cbn; rewrite ?Hp;
      repeat split; try discriminate;
      intros p' outcome w' Hp' Hw'; inversion Hp'; subst p';
      rewrite Hw in Hw'; inversion Hw'; subst; same_state.
  - eexists. split; [reflexivity |]. cbn. rewrite ?Hp.
    repeat split. intros p' outcome w' Hp'. discriminate.
Qed.

Lemma last_of_snoc {A : Type} (front : list A) (a : A) :
  nth_error (front ++ [a]) (length (front ++ [a]) - 1) = Some a.
Proof.
  rewrite length_app. cbn. rewrite Nat.add_sub.
  rewrite nth_error_app2 by apply Nat.le_refl. now rewrite Nat.sub_diag.
Qed.

(** X4. [ensurePageReady] keeps the page reference when the page answers. When
    the probe throws, it takes the last page of [browser.pages()] as the new
    reference ([undefined] when the browser lists no page); and when
    [browser.pages()] throws too, that error leaves [ensurePageReady]. *)
Theorem ensurePageReady_reacquires_last_page (s : State) (p : Page) :
  page s = Some p ->
  (forall w, page_evaluate p (world s) = (Ok tt, w) ->
     ensurePageReady s = (Ok tt, extend s w [Invoke CEvaluate]))
  /\ (forall e w1 b outcome w2,
        page_evaluate p (world s) = (Throw e, w1) ->
        browser s = Some b ->
        browser_pages b w1 = (outcome, w2) ->
        match outcome with
        | Ok pages =>
            ensurePageReady s
            = (Ok tt,
               set_page (nth_error pages (length pages - 1))
                 (extend s w2 [Invoke CEvaluate; ConsoleLog MUnresponsive; Invoke CPages]))
            /\ (pages = [] -> page (snd (ensurePageReady s)) = None)
            /\ (forall front q, pages = front ++ [q] ->
                  page (snd (ensurePageReady s)) = Some q)
        | Throw message =>
            ensurePageReady s
            = (Throw message,
               extend s w2 [Invoke CEvaluate; ConsoleLog MUnresponsive; Invoke CPages])
        end).
Proof.
  intros Hp. split.
  - intros w Heval. unfold ensurePageReady, evaluate. run. same_state.
  - intros e w1 b outcome w2 Heval Hb Hpages.
    assert (Hrun : ensurePageReady s
                   = match outcome with
                     | Ok pages =>
                         (Ok tt,
                          set_page (nth_error pages (length pages - 1))
                            (extend s w2
                               [Invoke CEvaluate; ConsoleLog MUnresponsive; Invoke CPages]))
                     | Throw message =>
                         (Throw message,
                          extend s w2
                            [Invoke CEvaluate; ConsoleLog MUnresponsive; Invoke CPages])
                     end).
    { unfold ensurePageReady, evaluate, refresh_page, with_browser.
      destruct outcome as [pages | message]; run;
        unfold set_page; cbn; f_equal; same_state. }
    destruct outcome as [pages | message]; [| exact Hrun].
    rewrite Hrun. split; [reflexivity | split].
    + intros ->. reflexivity.
    + intros front q ->. cbn. apply last_of_snoc.
Qed.

End EngineEdges.

Section EngineNavigation.

Context `{host : Host}.

Lemma strict_neq_same (u : string) : strict_neq u (JStr u) = false.
Proof. cbn. now rewrite String.eqb_refl. Qed.

Lemma strict_neq_other (u target : string) :
  target <> u -> strict_neq u (JStr target) = true.
Proof.
  intros H. cbn. destruct (String.eqb_spec u target) as [-> | _]; [congruence | reflexivity].
Qed.

Lemma truthy_string (target : string) :
  target <> EmptyString -> truthy (JStr target) = true.
Proof.
  intros H. cbn. destruct (String.eqb_spec target EmptyString); [contradiction | reflexivity].
Qed.

(** X5. The head of [playInteraction], when [page.url()] throws on the page
    reference: the last page the browser lists becomes the reference, and the
    URL check that follows is made on it. *)
Theorem prepare_page_reacquires_last_page (interaction : Interaction) (s : State)
    (p q : Page) (b : Browser) (front : list Page) (e u : string) (w1 w2 w3 : W) :
  page s = Some p ->
  page_url p (world s) = (Throw e, w1) ->
  browser s = Some b ->
  browser_pages b w1 = (Ok (front ++ [q]), w2) ->
  page_url q w2 = (Ok u, w3) ->
  url interaction = JStr u ->
  prepare_page interaction s
  = (Ok tt,
     set_page (Some q)
       (extend s w3 [Invoke CUrl; ConsoleLog MRefreshDetached; Invoke CPages; Invoke CUrl])).
Proof.
  intros Hp Hurl Hb Hpages Hq Htarget.
  unfold prepare_page, refresh_page, with_browser. rewrite Htarget.
  unfold bind, try_catch, with_page, invoke, ret, console_log, emit, modify.
  rewrite Hp, Hurl. cbn. rewrite Hb. cbn. rewrite Hpages. cbn.
  rewrite last_of_snoc. cbn. rewrite Hq. cbn.
  rewrite String.eqb_refl. cbn.
  unfold set_page, extend, add_event, set_world. cbn.
  repeat rewrite <- app_assoc. reflexivity.
Qed.

(** X6. The head of [playInteraction] on a live page: when the interaction has
    no URL or the page is already there, nothing more is done; otherwise the
    page is sent to the interaction's URL, followed by a pause of 1000 ms
    when that succeeds and by a message when it fails; in every case the head
    returns normally, so a failed navigation does not stop the event. *)
Theorem prepare_page_navigates_when_elsewhere (interaction : Interaction) (s : State)
    (p : Page) (u0 u : string) (w1 w2 : W) :
  page s = Some p ->
  page_url p (world s) = (Ok u0, w1) ->
  page_url p w1 = (Ok u, w2) ->
  (truthy (url interaction) = false \/ url interaction = JStr u ->
   prepare_page interaction s = (Ok tt, extend s w2 [Invoke CUrl; Invoke CUrl]))
  /\ (forall target outcome w3,
        url interaction = JStr target ->
        target <> EmptyString -> target <> u ->
        page_goto p target w2 = (outcome, w3) ->
        prepare_page interaction s
        = (Ok tt,
           extend s w3
             [ Invoke CUrl; Invoke CUrl; ConsoleLog (MNavigatingTo target);
               Invoke (CGoto target);
               match outcome with
               | Ok _ => Sleep 1000
               | Throw _ => ConsoleLog MNavFailedContinue
               end ])).
Proof.
  intros Hp Hurl0 Hurl. split.
  - intros Hstay.
    assert (Hcond : strict_neq u (url interaction) && truthy (url interaction) = false).
    { destruct Hstay as [Hfalsy | Hsame].
      - rewrite Hfalsy. apply andb_false_r.
      - rewrite Hsame, strict_neq_same. reflexivity. }
    unfold prepare_page.
    unfold bind, try_catch, with_page, invoke, ret, console_log, emit, modify.
    rewrite Hp, Hurl0. cbn. rewrite Hp, Hurl. cbn. rewrite Hcond. same_state.
  - intros target outcome w3 Htarget Hnonempty Hother Hgoto.
    unfold prepare_page. rewrite Htarget.
    unfold bind, try_catch, with_page, invoke, ret, console_log, setTimeout, emit, modify.
    rewrite Hp, Hurl0. cbn. rewrite Hp, Hurl. cbn.
    destruct (String.eqb_spec u target) as [E | _]; [congruence |].
    destruct (String.eqb_spec target EmptyString) as [E | _]; [contradiction |].
    cbn. rewrite Hp. cbn. rewrite Hgoto.
    destruct outcome as [[] | message]; cbn; same_state.
Qed.

(** X7. [playNavigation]: without a URL it does nothing at all; on a page that
    is already at the URL it only reads the URL; otherwise it sends the page
    there, pauses 1500 ms and reports, or reports the failure; it returns
    normally in each case. *)
Theorem playNavigation_goes_only_when_elsewhere (interaction : Interaction) (s : State) :
  (truthy (url interaction) = false -> playNavigation interaction s = (Ok tt, s))
  /\ (forall p target u w1,
        url interaction = JStr target -> target <> EmptyString ->
        page s = Some p ->
        page_url p (world s) = (Ok u, w1) ->
        (target = u -> playNavigation interaction s = (Ok tt, extend s w1 [Invoke CUrl]))
        /\ (target <> u ->
            forall outcome w2,
              page_goto p target w1 = (outcome, w2) ->
              playNavigation interaction s
              = (Ok tt,
                 extend s w2
                   (Invoke CUrl :: Invoke (CGoto target)
                    :: match outcome with
                       | Ok _ => [Sleep 1500; ConsoleLog (MNavigated target)]
                       | Throw message => [ConsoleLog (MNavigationFailed message)]
                       end)))).
Proof.
  split.
  - intros Hfalsy. unfold playNavigation. now rewrite Hfalsy.
  - intros p target u w1 Htarget Hnonempty Hp Hurl.
    unfold playNavigation. rewrite Htarget, (truthy_string _ Hnonempty).
    cbn [to_template]. split.
    + intros ->.
      unfold bind, try_catch, with_page, invoke, ret, console_log, setTimeout, emit, modify.
      rewrite Hp, Hurl. cbn. rewrite String.eqb_refl. cbn. same_state.
    + intros Hother outcome w2 Hgoto.
      unfold bind, try_catch, with_page, invoke, ret, console_log, setTimeout, emit, modify.
      rewrite Hp, Hurl.
      change (strict_neq u (JStr target)) with (negb (String.eqb u target)).
      destruct (String.eqb_spec u target) as [E | _]; [congruence |].
      cbn. rewrite Hp. cbn. rewrite Hgoto.
      destruct outcome as [[] | message]; cbn; same_state.
Qed.

(** X8. A kind that the [switch] does not list (the match is exact, so [Click]
    is such a kind) is skipped with one message: no browser call is made and
    nothing is thrown. *)
Theorem dispatch_skips_unsupported_kind (interaction : Interaction) (s : State) :
  ~ In (type interaction) supported_kinds ->
  dispatch interaction s
  = (Ok tt, add_event (ConsoleLog (MUnsupported (type interaction))) s).
Proof.
  intros Hkind. unfold dispatch.
  repeat match goal with
         | |- context [String.eqb (type interaction) ?k] =>
             destruct (String.eqb_spec (type interaction) k) as [E | _];
             [exfalso; apply Hkind; rewrite E; unfold supported_kinds; cbn; tauto |]
         end.
  reflexivity.
Qed.

End EngineNavigation.

Section EngineForms.

Context `{host : Host}.

Lemma dispatch_range (interaction : Interaction) :
  type interaction = "range" -> dispatch interaction = playRange interaction.
Proof. intros H. unfold dispatch. now rewrite H. Qed.

(** X9. A range event on a live page: when the selector matches an element, its
    value is set and an input and then a change notification are dispatched
    on it; when [page.evaluate] fails, or the selector is not one the page
    accepts, the error raised is "Could not set range value" with the
    selector, whatever the first error said. *)
Theorem playRange_sets_value_and_notifies (interaction : Interaction)
    (s s1 : State) (p : Page) :
  type interaction = "range" ->
  waitForElement (selector interaction) s = (Ok tt, s1) ->
  page s1 = Some p ->
  (forall w2 el,
     page_evaluate p (world s1) = (Ok tt, w2) ->
     document_querySelector p (to_template (selector interaction)) w2 = Ok (Some el) ->
     dispatch interaction s
     = (Ok tt,
        extend s1
          (element_dispatchEvent el "change"
             (element_dispatchEvent el "input"
                (element_set_value el (value interaction) w2)))
          [ Invoke CEvaluate;
            Dom (DSetValue (to_template (selector interaction)) (value interaction));
            Dom (DDispatch (to_template (selector interaction)) "input");
            Dom (DDispatch (to_template (selector interaction)) "change");
            ConsoleLog (MSetRange (value interaction) (selector interaction)) ]))
  /\ (forall e w2,
        page_evaluate p (world s1) = (Throw e, w2) ->
        dispatch interaction s
        = (Throw ("Could not set range value: " ++ to_template (selector interaction))%string,
           extend s1 w2 [Invoke CEvaluate]))
  /\ (forall e w2,
        page_evaluate p (world s1) = (Ok tt, w2) ->
        document_querySelector p (to_template (selector interaction)) w2 = Throw e ->
        dispatch interaction s
        = (Throw ("Could not set range value: " ++ to_template (selector interaction))%string,
           extend s1 w2 [Invoke CEvaluate])).
Proof.
  intros Htype Hwait Hp. rewrite (dispatch_range _ Htype). unfold playRange.
  rewrite (bind_Ok _ _ _ _ _ Hwait). unfold evaluate, range_callback.
  split; [| split].
  - intros w2 el Heval Hquery. run. same_state.
  - intros e w2 Heval. run. same_state.
  - intros e w2 Heval Hquery. run. same_state.
Qed.

(** X10. A submit event on a live page whose selector matches a FORM element:
    the form is submitted and the line is printed; when [page.evaluate]
    fails the error raised is "Could not submit form" with the selector. *)
Theorem playSubmit_submits_form (interaction : Interaction)
    (s s1 : State) (p : Page) :
  type interaction = "submit" ->
  waitForElement (selector interaction) s = (Ok tt, s1) ->
  page s1 = Some p ->
  (forall w2 el,
     page_evaluate p (world s1) = (Ok tt, w2) ->
     document_querySelector p (to_template (selector interaction)) w2 = Ok (Some el) ->
     element_tagName el w2 = "FORM" ->
     dispatch interaction s
     = (Ok tt,
        extend s1 (element_submit el w2)
          [ Invoke CEvaluate;
            Dom (DSubmit (to_template (selector interaction)));
            ConsoleLog (MSubmitted (selector interaction)) ]))
  /\ (forall e w2,
        page_evaluate p (world s1) = (Throw e, w2) ->
        dispatch interaction s
        = (Throw ("Could not submit form: " ++ to_template (selector interaction))%string,
           extend s1 w2 [Invoke CEvaluate])).
Proof.
  intros Htype Hwait Hp. rewrite (dispatch_submit _ Htype). unfold playSubmit.
  rewrite (bind_Ok _ _ _ _ _ Hwait). unfold evaluate, submit_callback.
  split.
  - intros w2 el Heval Hquery Htag. run. same_state.
  - intros e w2 Heval. run. same_state.
Qed.

(** X11. A change or select-one event on a tag other than SELECT, whose first
    candidate matches an element: the value is set on the element and a
    change notification is dispatched; [page.select] is not used. *)
Theorem playChange_sets_value_off_select (interaction : Interaction)
    (s s1 : State) (p : Page) (sel : string) (rest : list string) (w2 : W)
    (el : Element) :
  type interaction = "change" \/ type interaction = "select-one" ->
  tagName interaction <> JStr "SELECT" ->
  waitForElement (selector interaction) s = (Ok tt, s1) ->
  page s1 = Some p ->
  playInput_selectors interaction = sel :: rest ->
  page_evaluate p (world s1) = (Ok tt, w2) ->
  document_querySelector p sel w2 = Ok (Some el) ->
  dispatch interaction s
  = (Ok tt,
     extend s1
       (element_dispatchEvent el "change" (element_set_value el (value interaction) w2))
       [ Invoke CEvaluate;
         Dom (DSetValue sel (value interaction));
         Dom (DDispatch sel "change");
         ConsoleLog (MChanged (value interaction) sel) ]).
Proof.
  intros Htype Htag Hwait Hp Hsel Heval Hquery.
  rewrite dispatch_change by exact Htype. unfold playChange.
  rewrite (bind_Ok _ _ _ _ _ Hwait). rewrite Hsel. cbn [playChange_loop].
  rewrite (strict_neq_true _ _ Htag). unfold evaluate, change_callback.
  run. same_state.
Qed.

(** The change loop on a SELECT: the option is selected on the first
    candidate [page.select] accepts, and the loop ends there. *)
Lemma playChange_loop_select (interaction : Interaction) (p : Page)
    (candidates : list string) :
  forall (s : State) (tried : list string) (found : option string) (w : W),
    tagName interaction = JStr "SELECT" ->
    page s = Some p ->
    probe_select p (value interaction) candidates (world s) = (tried, found, w) ->
    playChange_loop interaction candidates s
    = match found with
      | Some sel =>
          (Ok true,
           extend s w (selects (value interaction) tried
                       ++ [ConsoleLog (MSelected (value interaction) sel)]))
      | None => (Ok false, extend s w (selects (value interaction) tried))
      end.
Proof.
  induction candidates as [| c rest IH]; intros s tried found w Htag Hp H; cbn in H.
  - inversion H; subst. cbn. now rewrite extend_nothing.
  - cbn [playChange_loop]. rewrite Htag. cbn [strict_neq].
    rewrite String.eqb_refl. cbn [negb].
    destruct (page_select p c (value interaction) (world s)) as [[[] | e] w0] eqn:Hq.
    + inversion H; subst. run. same_state.
    + destruct (probe_select p (value interaction) rest w0) as [[t f] w9] eqn:E.
      inversion H; subst. run.
      rewrite (IH (add_event (Invoke (CSelect c (value interaction))) (set_world w0 s))
                 t found w Htag Hp E).
      destruct found; unfold selects; same_state.
Qed.

(** X12. A change or select-one event on a SELECT: [page.select] is tried on the
    candidates in order; the first candidate it succeeds on ends the event;
    when it throws on every candidate the event raises "Could not change
    element" with the record's selector. *)
Theorem playChange_selects_first_accepted (interaction : Interaction)
    (s s1 : State) (p : Page) (tried : list string) (found : option string) (w : W) :
  type interaction = "change" \/ type interaction = "select-one" ->
  tagName interaction = JStr "SELECT" ->
  waitForElement (selector interaction) s = (Ok tt, s1) ->
  page s1 = Some p ->
  probe_select p (value interaction) (playInput_selectors interaction) (world s1)
  = (tried, found, w) ->
  dispatch interaction s
  = match found with
    | Some sel =>
        (Ok tt,
         extend s1 w (selects (value interaction) tried
                      ++ [ConsoleLog (MSelected (value interaction) sel)]))
    | None =>
        (Throw ("Could not change element: " ++ to_template (selector interaction))%string,
         extend s1 w (selects (value interaction) tried))
    end.
Proof.
  intros Htype Htag Hwait Hp Hprobe.
  rewrite dispatch_change by exact Htype. unfold playChange.
  rewrite (bind_Ok _ _ _ _ _ Hwait).
  pose proof (playChange_loop_select interaction p _ s1 tried found w Htag Hp Hprobe) as Hloop.
  destruct found as [sel |]; rewrite (bind_Ok _ _ _ _ _ Hloop); reflexivity.
Qed.

(** The checkbox loop when no candidate can be read. *)
Lemma playCheckbox_loop_unresolved (interaction : Interaction) (p : Page)
    (candidates : list string) :
  forall (s : State) (tried : list string) (w : W),
    page s = Some p ->
    probe_checked p candidates (world s) = (tried, None, w) ->
    playCheckbox_loop interaction candidates s = (Ok false, extend s w (checks tried)).
Proof.
  induction candidates as [| c rest IH]; intros s tried w Hp H; cbn in H.
  - inversion H; subst. cbn. now rewrite extend_nothing.
  - cbn [playCheckbox_loop].
    destruct (page_eval_checked p c (world s)) as [[st | e] w0] eqn:Hq; [discriminate |].
    destruct (probe_checked p rest w0) as [[t f] w9] eqn:E. inversion H; subst.
    run.
    rewrite (IH (add_event (Invoke (CEvalChecked c)) (set_world w0 s)) t w Hp E).
    same_state.
Qed.

(** X13. A checkbox event whose state can be read on no candidate raises "Could
    not toggle checkbox" with the record's selector, after trying every
    candidate and without any click. *)
Theorem playCheckbox_raises_when_unresolved (interaction : Interaction)
    (s s1 : State) (p : Page) (tried : list string) (w : W) :
  type interaction = "checkbox" ->
  waitForElement (selector interaction) s = (Ok tt, s1) ->
  page s1 = Some p ->
  probe_checked p (playInput_selectors interaction) (world s1) = (tried, None, w) ->
  dispatch interaction s
  = (Throw ("Could not toggle checkbox: " ++ to_template (selector interaction))%string,
     extend s1 w (checks tried))
  /\ tried = playInput_selectors interaction
  /\ filter is_click (checks tried) = [].
Proof.
  intros Htype Hwait Hp Hprobe. split; [| split].
  - rewrite (dispatch_checkbox _ Htype). unfold playCheckbox.
    rewrite (bind_Ok _ _ _ _ _ Hwait).
    rewrite (bind_Ok _ _ _ _ _
               (playCheckbox_loop_unresolved interaction p _ s1 tried w Hp Hprobe)).
    reflexivity.
  - clear Hwait Hp. revert tried w Hprobe. generalize (world s1).
    induction (playInput_selectors interaction) as [| c rest IH];
      intros w0 tried w H; cbn in H.
    + now inversion H.
    + destruct (page_eval_checked p c w0) as [[st | e] w1]; [discriminate |].
      destruct (probe_checked p rest w1) as [[t f] w9] eqn:E.
      inversion H; subst. f_equal. eapply IH. exact E.
  - apply checks_have_no_click.
Qed.

(** The typing loop when a candidate matches, the field can be focused and
    cleared, and the value can be typed. *)
Lemma playInput_loop_types (interaction : Interaction) (p : Page) (v : string)
    (candidates : list string) :
  forall (s : State) (tried : list string) (sel : string)
         (w3 w4 w5 w6 w7 w8 w9 : W),
    value interaction = JStr v -> v <> EmptyString ->
    page s = Some p ->
    probe p candidates (world s) = (tried, Some sel, w3) ->
    page_focus p sel w3 = (Ok tt, w4) ->
    keyboard_down p "Control" w4 = (Ok tt, w5) ->
    keyboard_press p "KeyA" w5 = (Ok tt, w6) ->
    keyboard_up p "Control" w6 = (Ok tt, w7) ->
    keyboard_press p "Backspace" w7 = (Ok tt, w8) ->
    page_type p sel v w8 = (Ok tt, w9) ->
    playInput_loop interaction candidates s
    = (Ok true,
       extend s w9
         (queries tried
          ++ [ Invoke (CFocus sel); Invoke (CKeyDown "Control"); Invoke (CKeyPress "KeyA");
               Invoke (CKeyUp "Control"); Invoke (CKeyPress "Backspace");
               Invoke (CType sel v); ConsoleLog (MTyped v sel) ])).
Proof.
  induction candidates as [| c rest IH];
    intros s tried sel w3 w4 w5 w6 w7 w8 w9 Hv Hne Hp H Hfocus Hdown Ha Hup Hback Htype;
    cbn in H.
  - discriminate.
  - cbn [playInput_loop]. rewrite Hv. cbn [truthy to_template].
    destruct (String.eqb_spec v EmptyString) as [E | _]; [contradiction |]. cbn [negb].
    destruct (page_query p c (world s)) as [[[el |] | e] w0] eqn:Hq.
    + inversion H; subst. run. same_state.
    + destruct (probe p rest w0) as [[t f] w10] eqn:E; inversion H; subst.
      run.
      pose proof (IH (add_event (Invoke (CQuery c)) (set_world w0 s)) t sel
                    w3 w4 w5 w6 w7 w8 w9 Hv Hne Hp E Hfocus Hdown Ha Hup Hback Htype) as Hrest.
      rewrite Hrest. same_state.
    + destruct (probe p rest w0) as [[t f] w10] eqn:E; inversion H; subst.
      run.
      pose proof (IH (add_event (Invoke (CQuery c)) (set_world w0 s)) t sel
                    w3 w4 w5 w6 w7 w8 w9 Hv Hne Hp E Hfocus Hdown Ha Hup Hback Htype) as Hrest.
      rewrite Hrest. same_state.
Qed.

(** X14. An input, text or search event with a value, on a live page where a
    candidate matches: the field is focused, cleared with select-all and
    delete, then the value is typed into it and the typing is reported; no
    skip is reported. *)
Theorem playInput_clears_then_types (interaction : Interaction) (v : string)
    (s s1 s2 : State) (p : Page) (tried : list string) (sel : string)
    (w3 w4 w5 w6 w7 w8 w9 : W) :
  type interaction = "input" \/ type interaction = "text"
  \/ type interaction = "search" ->
  value interaction = JStr v -> v <> EmptyString ->
  ensurePageReady s = (Ok tt, s1) ->
  waitForElement (selector interaction) s1 = (Ok tt, s2) ->
  page s2 = Some p ->
  probe p (playInput_selectors interaction) (world s2) = (tried, Some sel, w3) ->
  page_focus p sel w3 = (Ok tt, w4) ->
  keyboard_down p "Control" w4 = (Ok tt, w5) ->
  keyboard_press p "KeyA" w5 = (Ok tt, w6) ->
  keyboard_up p "Control" w6 = (Ok tt, w7) ->
  keyboard_press p "Backspace" w7 = (Ok tt, w8) ->
  page_type p sel v w8 = (Ok tt, w9) ->
  dispatch interaction s
  = (Ok tt,
     extend s2 w9
       (queries tried
        ++ [ Invoke (CFocus sel); Invoke (CKeyDown "Control"); Invoke (CKeyPress "KeyA");
             Invoke (CKeyUp "Control"); Invoke (CKeyPress "Backspace");
             Invoke (CType sel v); ConsoleLog (MTyped v sel) ])).
Proof.
  intros Htype Hv Hne Hready Hwait Hp Hprobe Hfocus Hdown Ha Hup Hback Htyped.
  rewrite dispatch_input by exact Htype. unfold playInput.
  rewrite (bind_Ok _ _ _ _ _ Hready), (bind_Ok _ _ _ _ _ Hwait).
  rewrite (bind_Ok _ _ _ _ _
             (playInput_loop_types interaction p v _ s2 tried sel w3 w4 w5 w6 w7 w8 w9
                Hv Hne Hp Hprobe Hfocus Hdown Ha Hup Hback Htyped)).
  reflexivity.
Qed.

End EngineForms.

Section EngineRun.

Context `{host : Host}.

Local Open Scope Q_scope.

(** X15. The delay step of the loop waits for nothing unless both the previous
    timestamp it holds and the timestamp of the event are there and other
    than zero: nothing is waited before the first event ([null]), nor when
    either timestamp is missing or 0, and nothing is printed. *)
Theorem pace_needs_two_timestamps (previousTimestamp : option Q)
    (interaction : Interaction) (s : State) :
  previousTimestamp = None
  \/ timestamp interaction = None
  \/ (exists q, previousTimestamp = Some q /\ q == 0)
  \/ (exists q, timestamp interaction = Some q /\ q == 0) ->
  pace previousTimestamp interaction s = (Ok tt, s).
Proof.
  intros H. unfold pace.
  destruct previousTimestamp as [previous |]; [| reflexivity].
  destruct (timestamp interaction) as [current |]; [| reflexivity].
  destruct H as [H | [H | [(q & H & Hq) | (q & H & Hq)]]]; try discriminate;
    inversion H; subst q.
  - apply Qeq_bool_iff in Hq. now rewrite Hq.
  - apply Qeq_bool_iff in Hq. rewrite Hq. now rewrite andb_false_r.
Qed.

(** A run leaves the playback object as it found it: the recording, the
    browser handle and the speed are the same afterwards. *)
Lemma startPlayback_keeps_fields (r : Recording) (s : State) :
  recording s = Some (documented r) -> browser s <> None ->
  exists s' d,
    startPlayback s = (Ok tt, s') /\
    recording s' = recording s /\ browser s' = browser s /\
    playbackSpeed s' = playbackSpeed s /\
    trace s' = trace s ++ d /\
    attempts d = numbered 1 (interactions r).
Proof.
  intros Hr Hb. unfold startPlayback.
  destruct (browser s) as [b |] eqn:Eb; [| congruence].
  assert (Hs0 : recording
            (add_event (ConsoleLog MPressCtrlC)
               (add_event (ConsoleLog (MStarting (totalInteractions r) (playbackSpeed s))) s))
          = Some (documented r)) by exact Hr.
  destruct (startPlayback_loop_attempts (interactions r) 0 None _ _ Hs0)
    as (s1 & d & Hloop & Hb1 & Hq1 & Hr1 & Hd & Ha).
  exists (add_event (ConsoleLog MCompleted) s1),
    (ConsoleLog (MStarting (totalInteractions r) (playbackSpeed s))
     :: ConsoleLog MPressCtrlC :: d ++ [ConsoleLog MCompleted]).
  repeat split.
  - unfold bind at 1, gets at 1. rewrite Hr. unfold bind at 1, gets at 1. rewrite Eb.
    unfold bind at 1, gets at 1.
    unfold bind at 1, console_log at 1, emit at 1, modify at 1.
    unfold bind at 1, console_log at 1, emit at 1, modify at 1.
    cbn [documented parsed_interactions parsed_totalInteractions].
    unfold bind at 1. rewrite Hloop. reflexivity.
  - cbn. rewrite Hr1. reflexivity.
  - cbn. rewrite Hb1. cbn. now rewrite Eb.
  - cbn. rewrite Hq1. reflexivity.
  - cbn. rewrite Hd. cbn. rewrite <- !app_assoc. reflexivity.
  - change (attempts ([ConsoleLog (MStarting (totalInteractions r) (playbackSpeed s));
                       ConsoleLog MPressCtrlC] ++ d ++ [ConsoleLog MCompleted])
            = numbered 1 (interactions r)).
    rewrite !attempts_app. cbn. rewrite app_nil_r. exact Ha.
Qed.

(** X16. A run never writes to the recording, the browser handle or the speed of
    the playback object; so a second run on the same object completes too and
    handles the same events again, from the first one on. *)
Theorem startPlayback_is_repeatable (r : Recording) (s : State) :
  recording s = Some (documented r) -> browser s <> None ->
  exists s1 d1 s2 d2,
    startPlayback s = (Ok tt, s1) /\
    recording s1 = Some (documented r) /\ browser s1 = browser s /\
    playbackSpeed s1 = playbackSpeed s /\
    trace s1 = trace s ++ d1 /\
    startPlayback s1 = (Ok tt, s2) /\
    trace s2 = trace s1 ++ d2 /\
    attempts d2 = attempts d1 /\
    attempts d1 = numbered 1 (interactions r).
Proof.
  intros Hr Hb.
  destruct (startPlayback_keeps_fields r s Hr Hb)
    as (s1 & d1 & Hrun1 & Hr1 & Hb1 & Hq1 & Hd1 & Ha1).
  assert (Hr1' : recording s1 = Some (documented r)) by congruence.
  assert (Hb1' : browser s1 <> None) by congruence.
  destruct (startPlayback_keeps_fields r s1 Hr1' Hb1')
    as (s2 & d2 & Hrun2 & _ & _ & _ & Hd2 & Ha2).
  exists s1, d1, s2, d2. repeat split; try assumption. congruence.
Qed.

Lemma calculateDelay_speed (s1 s2 : State) (previous current : Q) :
  playbackSpeed s1 = playbackSpeed s2 ->
  calculateDelay s1 previous current = calculateDelay s2 previous current.
Proof. unfold calculateDelay. now intros ->. Qed.

(** Two neighbours in the loop: the delay step before the second one is
    handed the timestamp of the first. *)
Lemma startPlayback_loop_waits (back : list Interaction) (a b : Interaction)
    (ta tb : Q) (loaded : Parsed) :
  timestamp a = Some ta -> timestamp b = Some tb ->
  ~ ta == 0 -> ~ tb == 0 ->
  forall (front : list Interaction) (i : nat) (previous : option Q) (s : State),
    recording s = Some loaded ->
    50 < calculateDelay s ta tb ->
    exists s' d1 d2,
      startPlayback_loop (map Some (front ++ a :: b :: back)) i previous s = (Ok tt, s') /\
      trace s' = trace s ++ d1
                 ++ [ ConsoleLog (MWaiting (Math_round (calculateDelay s ta tb)));
                      Sleep (calculateDelay s ta tb);
                      ConsoleLog (MPlaying (i + length front + 2)
                                    (parsed_totalInteractions loaded) (type b) (url b)) ]
                 ++ d2 /\
      attempts d1 = numbered (i + 1) (front ++ [a]) /\
      attempts d2 = numbered (i + length front + 3) back.
Proof.
  intros Hta Htb Hna Hnb front.
  induction front as [| f front IH]; intros i previous s Hr Hbig.
  - cbn [app map startPlayback_loop].
    destruct (safe_run _ (pace_safe previous a) s) as ([] & s1 & Hpace).
    destruct (pace_quiet previous a s) as (_ & Hq1 & Hr1 & d1 & Hd1 & Hf1).
    rewrite Hpace in Hq1, Hr1, Hd1. cbn in Hq1, Hr1, Hd1.
    assert (Hrec1 : recording s1 = Some loaded) by congruence.
    destruct (playInteraction_attempt a i loaded s1 Hrec1)
      as (s2 & d2 & Hplay & _ & Hq2 & Hr2 & Hd2 & Hf2).
    assert (Hrec2 : recording s2 = Some loaded) by congruence.
    assert (Hspeed : playbackSpeed s2 = playbackSpeed s) by congruence.
    assert (Hbig2 : 50 < calculateDelay s2 ta tb)
      by (now rewrite (calculateDelay_speed s2 s ta tb Hspeed)).
    pose proof (pace_waits_above_floor ta tb b s2 Htb Hna Hnb Hbig2) as Hwait.
    rewrite (calculateDelay_speed s2 s ta tb Hspeed) in Hwait.
    set (s3 := add_event (Sleep (calculateDelay s ta tb))
                 (add_event (ConsoleLog (MWaiting (Math_round (calculateDelay s ta tb))))
                    s2)) in Hwait.
    assert (Hrec3 : recording s3 = Some loaded) by exact Hrec2.
    destruct (playInteraction_attempt b (S i) loaded s3 Hrec3)
      as (s4 & d4 & Hplay4 & _ & _ & Hr4 & Hd4 & Hf4).
    assert (Hrec4 : recording s4 = Some loaded) by congruence.
    destruct (startPlayback_loop_attempts back (S (S i)) (timestamp b) loaded s4 Hrec4)
      as (s5 & d5 & Hloop & _ & _ & _ & Hd5 & Ha5).
    exists s5,
      (d1 ++ ConsoleLog (MPlaying (i + 1) (parsed_totalInteractions loaded)
                           (type a) (url a)) :: d2),
      (d4 ++ d5).
    rewrite (bind_Ok _ _ _ _ _ Hpace), (bind_Ok _ _ _ _ _ Hplay).
    rewrite Hta.
    rewrite (bind_Ok _ _ _ _ _ Hwait), (bind_Ok _ _ _ _ _ Hplay4), Hloop.
    split; [reflexivity |]. split; [| split].
    + rewrite Hd5, Hd4. unfold s3. cbn [trace add_event]. rewrite Hd2, Hd1.
      replace (i + length (@nil Interaction) + 2)%nat with (S i + 1)%nat by (cbn; lia).
      rewrite <- ?app_assoc. cbn [app]. rewrite <- ?app_assoc. reflexivity.
    + rewrite attempts_app, (attempts_quiet d1 Hf1). cbn. f_equal.
      exact (attempts_quiet d2 Hf2).
    + rewrite attempts_app, (attempts_quiet d4 Hf4). cbn [app]. rewrite Ha5.
      f_equal. cbn. lia.
  - cbn [app map startPlayback_loop].
    destruct (safe_run _ (pace_safe previous f) s) as ([] & s1 & Hpace).
    destruct (pace_quiet previous f s) as (_ & Hq1 & Hr1 & d1 & Hd1 & Hf1).
    rewrite Hpace in Hq1, Hr1, Hd1. cbn in Hq1, Hr1, Hd1.
    assert (Hrec1 : recording s1 = Some loaded) by congruence.
    destruct (playInteraction_attempt f i loaded s1 Hrec1)
      as (s2 & d2 & Hplay & _ & Hq2 & Hr2 & Hd2 & Hf2).
    assert (Hrec2 : recording s2 = Some loaded) by congruence.
    assert (Hspeed : playbackSpeed s2 = playbackSpeed s) by congruence.
    assert (Hbig2 : 50 < calculateDelay s2 ta tb)
      by (now rewrite (calculateDelay_speed s2 s ta tb Hspeed)).
    destruct (IH (S i) (timestamp f) s2 Hrec2 Hbig2)
      as (s3 & d3 & d4 & Hloop & Hd3 & Ha3 & Ha4).
    rewrite (calculateDelay_speed s2 s ta tb Hspeed) in Hd3.
    exists s3,
      (d1 ++ ConsoleLog (MPlaying (i + 1) (parsed_totalInteractions loaded)
                           (type f) (url f)) :: d2 ++ d3),
      d4.
    rewrite (bind_Ok _ _ _ _ _ Hpace), (bind_Ok _ _ _ _ _ Hplay).
    change (startPlayback_loop (map Some (front ++ a :: b :: back)) (S i) (timestamp f) s2
            = (Ok tt, s3)) in Hloop.
    rewrite Hloop.
    split; [reflexivity |]. split; [| split].
    + rewrite Hd3, Hd2, Hd1.
      replace (i + length (f :: front) + 2)%nat with (S i + length front + 2)%nat
        by (cbn; lia).
      rewrite <- ?app_assoc. cbn [app]. rewrite <- ?app_assoc. reflexivity.
    + rewrite attempts_app, (attempts_quiet d1 Hf1). cbn. f_equal.
      change (attempts (d2 ++ d3) = numbered (S (i + 1)) (front ++ [a])).
      rewrite attempts_app, (attempts_quiet d2 Hf2). exact Ha3.
    + rewrite Ha4. f_equal. cbn. lia.
Qed.

(** X1. In a run, the wait before an event is computed from the timestamp of
    the event handled just before it and its own: when both are there and
    not zero and [calculateDelay] gives more than 50 ms, the delay is
    announced, rounded, and waited for in full, after the first of the two
    events has been handled and right before the progress line of the
    second. *)
Theorem startPlayback_waits_between_events (r : Recording) (s : State)
    (front back : list Interaction) (a b : Interaction) (ta tb : Q) :
  recording s = Some (documented r) -> browser s <> None ->
  interactions r = front ++ a :: b :: back ->
  timestamp a = Some ta -> timestamp b = Some tb ->
  ~ ta == 0 -> ~ tb == 0 ->
  50 < calculateDelay s ta tb ->
  exists s' d1 d2,
    startPlayback s = (Ok tt, s') /\
    trace s' = trace s ++ d1
               ++ [ ConsoleLog (MWaiting (Math_round (calculateDelay s ta tb)));
                    Sleep (calculateDelay s ta tb);
                    ConsoleLog (MPlaying (length front + 2) (totalInteractions r)
                                  (type b) (url b)) ]
               ++ d2 /\
    attempts d1 = numbered 1 (front ++ [a]) /\
    attempts d2 = numbered (length front + 3) back.
Proof.
  intros Hr Hb Hlist Hta Htb Hna Hnb Hbig. unfold startPlayback.
  destruct (browser s) as [attached |] eqn:Eb; [| congruence].
  set (s0 := add_event (ConsoleLog MPressCtrlC)
               (add_event (ConsoleLog (MStarting (totalInteractions r) (playbackSpeed s))) s)).
  assert (Hs0 : recording s0 = Some (documented r)) by exact Hr.
  assert (Hbig0 : 50 < calculateDelay s0 ta tb) by exact Hbig.
  destruct (startPlayback_loop_waits back a b ta tb (documented r) Hta Htb Hna Hnb
              front 0 None s0 Hs0 Hbig0)
    as (s1 & d1 & d2 & Hloop & Hd & Ha1 & Ha2).
  exists (add_event (ConsoleLog MCompleted) s1),
    (ConsoleLog (MStarting (totalInteractions r) (playbackSpeed s))
     :: ConsoleLog MPressCtrlC :: d1),
    (d2 ++ [ConsoleLog MCompleted]).
  split; [| split; [| split]].
  - unfold bind at 1, gets at 1. rewrite Hr. unfold bind at 1, gets at 1. rewrite Eb.
    unfold bind at 1, gets at 1.
    unfold bind at 1, console_log at 1, emit at 1, modify at 1.
    unfold bind at 1, console_log at 1, emit at 1, modify at 1.
    cbn [documented parsed_interactions parsed_totalInteractions].
    rewrite Hlist. fold s0. unfold bind at 1. rewrite Hloop. reflexivity.
  - cbn [trace add_event]. rewrite Hd. unfold s0. cbn [trace add_event].
    change (calculateDelay s0 ta tb) with (calculateDelay s ta tb).
    cbn [documented parsed_totalInteractions]. cbn [Nat.add].
    rewrite <- ?app_assoc. cbn [app]. rewrite <- ?app_assoc. reflexivity.
  - change (attempts ([ConsoleLog (MStarting (totalInteractions r) (playbackSpeed s));
                       ConsoleLog MPressCtrlC] ++ d1) = numbered 1 (front ++ [a])).
    rewrite attempts_app. exact Ha1.
  - rewrite attempts_app. cbn. rewrite app_nil_r. exact Ha2.
Qed.

End EngineRun.

Section EngineFootprint.

Context `{host : Host}.

Lemma playClick_loop_footprint (selectors : list string) :
  emits click_events (playClick_loop selectors).
Proof.
  induction selectors as [| sel rest IH]; cbn [playClick_loop]; emits_all.
Qed.

Lemma playInput_loop_footprint (interaction : Interaction) (selectors : list string) :
  emits input_events (playInput_loop interaction selectors).
Proof.
  induction selectors as [| sel rest IH]; cbn [playInput_loop]; emits_all.
Qed.

Lemma playChange_loop_footprint (interaction : Interaction) (selectors : list string) :
  emits change_events (playChange_loop interaction selectors).
Proof.
  induction selectors as [| sel rest IH]; cbn [playChange_loop];
    unfold change_callback; emits_all.
Qed.

Lemma playCheckbox_loop_footprint (interaction : Interaction) (selectors : list string) :
  emits checkbox_events (playCheckbox_loop interaction selectors).
Proof.
  induction selectors as [| sel rest IH]; cbn [playCheckbox_loop]; emits_all.
Qed.

Lemma dispatch_footprint (interaction : Interaction) :
  emits (allowed (type interaction)) (dispatch interaction).
Proof.
  pose proof playClick_loop_footprint.
  pose proof (playInput_loop_footprint interaction (playInput_selectors interaction)).
  pose proof (playChange_loop_footprint interaction (playInput_selectors interaction)).
  pose proof (playCheckbox_loop_footprint interaction (playInput_selectors interaction)).
  unfold dispatch, allowed.
  destruct (String.eqb (type interaction) "navigation");
    [unfold playNavigation; emits_all |].
  destruct (String.eqb (type interaction) "click");
    [unfold playClick; emits_all |].
  destruct (String.eqb (type interaction) "input" || String.eqb (type interaction) "text"
            || String.eqb (type interaction) "search");
    [unfold playInput; emits_all |].
  destruct (String.eqb (type interaction) "change"
            || String.eqb (type interaction) "select-one");
    [unfold playChange; emits_all |].
  destruct (String.eqb (type interaction) "submit");
    [unfold playSubmit, submit_callback; emits_all |].
  destruct (String.eqb (type interaction) "checkbox");
    [unfold playCheckbox; emits_all |].
  destruct (String.eqb (type interaction) "range");
    [unfold playRange, range_callback; emits_all |].
  emits_all.
Qed.

(** Reading the kind off an event that only some kinds allow. *)
Ltac kind_of_event :=
  match goal with
  | Hallowed : allowed ?kind ?e = true |- _ =>
      unfold allowed in Hallowed;
      repeat match type of Hallowed with
             | context [String.eqb kind ?k] =>
                 destruct (String.eqb_spec kind k)
             end;
      cbn [orb] in Hallowed;
      try (destruct e as [[] | [] | [] | [] | ]; cbn in *; discriminate);
      auto
  end.

Lemma allowed_mouse_click (kind : string) (e : Event) :
  allowed kind e = true -> is_mouse_click e = true -> kind = "click".
Proof. intros Hallowed He. kind_of_event. Qed.

Lemma allowed_typing (kind : string) (e : Event) :
  allowed kind e = true -> is_typing e = true ->
  kind = "input" \/ kind = "text" \/ kind = "search".
Proof. intros Hallowed He. kind_of_event. Qed.

Lemma allowed_goto (kind : string) (e : Event) :
  allowed kind e = true -> is_goto e = true -> kind = "navigation".
Proof. intros Hallowed He. kind_of_event. Qed.

Lemma allowed_select (kind : string) (e : Event) :
  allowed kind e = true -> is_select e = true ->
  kind = "change" \/ kind = "select-one".
Proof. intros Hallowed He. kind_of_event. Qed.

Lemma allowed_submit (kind : string) (e : Event) :
  allowed kind e = true -> is_submit e = true -> kind = "submit".
Proof. intros Hallowed He. kind_of_event. Qed.

Lemma allowed_dom_write (kind : string) (e : Event) :
  allowed kind e = true -> is_dom_write e = true ->
  kind = "change" \/ kind = "select-one" \/ kind = "submit" \/ kind = "range".
Proof. intros Hallowed He. kind_of_event. Qed.

Lemma exists_allowed (f g : Event -> bool) (d : list Event) (P : Prop) :
  (forall e, f e = true -> g e = true -> P) ->
  forallb f d = true -> existsb g d = true -> P.
Proof.
  intros H Hall Hex. apply existsb_exists in Hex. destruct Hex as (e & Hin & Hg).
  rewrite forallb_forall in Hall. eauto.
Qed.

(** X17. Each kind of event only uses its own means, whatever the page does:
    among all that dispatching an event adds to the trace, a mouse click at
    coordinates comes only from a click event, focus, key presses and typing
    only from an input, text or search event, a [page.goto] only from a
    navigation event, a [page.select] only from a change or select-one
    event, a form submission only from a submit event, and a write to the
    page's elements only from a change, select-one, submit or range event. *)
Theorem dispatch_stays_within_its_kind (interaction : Interaction) (s : State) :
  exists d,
    trace (snd (dispatch interaction s)) = trace s ++ d /\
    forallb (allowed (type interaction)) d = true /\
    (existsb is_mouse_click d = true -> type interaction = "click") /\
    (existsb is_typing d = true ->
     type interaction = "input" \/ type interaction = "text"
     \/ type interaction = "search") /\
    (existsb is_goto d = true -> type interaction = "navigation") /\
    (existsb is_select d = true ->
     type interaction = "change" \/ type interaction = "select-one") /\
    (existsb is_submit d = true -> type interaction = "submit") /\
    (existsb is_dom_write d = true ->
     type interaction = "change" \/ type interaction = "select-one"
     \/ type interaction = "submit" \/ type interaction = "range").
Proof.
  destruct (dispatch_footprint interaction s) as (_ & _ & _ & d & Hd & Hall).
  exists d. split; [exact Hd | split; [exact Hall |]].
  repeat split; intros Hex.
  - eapply (exists_allowed _ _ d); [apply allowed_mouse_click | exact Hall | exact Hex].
  - eapply (exists_allowed _ _ d); [apply allowed_typing | exact Hall | exact Hex].
  - eapply (exists_allowed _ _ d); [apply allowed_goto | exact Hall | exact Hex].
  - eapply (exists_allowed _ _ d); [apply allowed_select | exact Hall | exact Hex].
  - eapply (exists_allowed _ _ d); [apply allowed_submit | exact Hall | exact Hex].
  - eapply (exists_allowed _ _ d); [apply allowed_dom_write | exact Hall | exact Hex].
Qed.

End EngineFootprint.

Section EngineOnce.

Context `{host : Host}.

Lemma filter_none (f : Event -> bool) (d : list Event) :
  forallb (fun e => negb (f e)) d = true -> filter f d = [].
Proof.
  induction d as [| e d IH]; [reflexivity |]. cbn.
  destruct (f e); cbn; [discriminate | exact IH].
Qed.





Lemma waitForElement_reports_no_toggle (sel : jsstr) : emits not_toggled (waitForElement sel).
Proof. emits_all. Qed.

(** The checkbox loop returns, and it reports at most one toggle: a click
    that succeeds ends the loop. *)
Lemma playCheckbox_loop_toggles_once (interaction : Interaction) (selectors : list string) :
  forall s,
    exists b s' d,
      playCheckbox_loop interaction selectors s = (Ok b, s') /\
      trace s' = trace s ++ d /\
      (length (filter is_toggled d) <= (if b then 1 else 0))%nat.
Proof.
  induction selectors as [| c rest IH]; intros s.
  - exists false, s, []. cbn. repeat split; [now rewrite app_nil_r | lia].
  - cbn [playCheckbox_loop].
    unfold bind, try_catch, with_page, invoke, ret, console_log, emit, modify.
    destruct (page s) as [p |] eqn:Hp.
    + destruct (page_eval_checked p c (world s)) as [[state | e] w1] eqn:Hq; cbn; rewrite ?Hp.
      * destruct (differs state (shouldBeChecked interaction)).
        -- cbn. rewrite ?Hp.
           destruct (page_click p c w1) as [[[] | e] w2] eqn:Hc; cbn.
           ++ eexists true, _,
                [ Invoke (CEvalChecked c); Invoke (CClick c);
                  ConsoleLog (MToggled (shouldBeChecked interaction) c) ].
              split; [reflexivity |]. cbn. rewrite <- !app_assoc. split; [reflexivity | lia].
           ++ destruct (IH (add_event (Invoke (CClick c))
                              (set_world w2
                                 (add_event (Invoke (CEvalChecked c)) (set_world w1 s)))))
                as (b & s' & d & Hrun & Hd & Hcount).
              exists b, s', (Invoke (CEvalChecked c) :: Invoke (CClick c) :: d).
              rewrite Hrun. repeat split.
              ** rewrite Hd. cbn. rewrite <- !app_assoc. reflexivity.
              ** exact Hcount.
        -- cbn. eexists true, _, [Invoke (CEvalChecked c)].
           split; [reflexivity |]. cbn. split; [reflexivity | lia].
      * destruct (IH (add_event (Invoke (CEvalChecked c)) (set_world w1 s)))
          as (b & s' & d & Hrun & Hd & Hcount).
        exists b, s', (Invoke (CEvalChecked c) :: d).
        rewrite Hrun. repeat split.
        -- rewrite Hd. cbn. rewrite <- !app_assoc. reflexivity.
        -- exact Hcount.
    + cbn. destruct (IH s) as (b & s' & d & Hrun & Hd & Hcount).
      exists b, s', d. rewrite Hrun. repeat split; assumption.
Qed.

(** X19. A checkbox event reports at most one toggle, whatever the page does:
    after a click that went through no later candidate is tried, so the
    element is clicked again only after a click that threw. *)
Theorem playCheckbox_toggles_at_most_once (interaction : Interaction) (s : State) :
  exists d,
    trace (snd (playCheckbox interaction s)) = trace s ++ d /\
    (length (filter is_toggled d) <= 1)%nat.
Proof.
  unfold playCheckbox, bind.
  destruct (waitForElement_reports_no_toggle (selector interaction) s)
    as (_ & _ & _ & d1 & Hd1 & Hn1).
  apply filter_none in Hn1.
  destruct (waitForElement (selector interaction) s) as [[[] | e] s1]; cbn in Hd1.
  2:{ exists d1. cbn. split; [exact Hd1 | rewrite Hn1; cbn; lia]. }
  destruct (playCheckbox_loop_toggles_once interaction (playInput_selectors interaction) s1)
    as (b & s2 & d2 & Hloop & Hd2 & Hcount).
  rewrite Hloop. exists (d1 ++ d2).
  assert (Htrace : trace s2 = trace s ++ d1 ++ d2).
  { rewrite Hd2, Hd1. now rewrite <- app_assoc. }
  assert (Hle : (length (filter is_toggled (d1 ++ d2)) <= 1)%nat).
  { rewrite filter_app, Hn1. cbn. destruct b; lia. }
  destruct b; cbn; split; assumption.
Qed.

End EngineOnce.

(** ** Candidate order, and what the handler isolates *)

Section Resolution.

Context `{host : Host}.

















Lemma safe_lift_Ok {A : Type} (a : A) : safe (lift (Ok a)).
Proof. intros s. reflexivity. Qed.

Lemma playClick_loop_safe (selectors : list string) : safe (playClick_loop selectors).
Proof.
  induction selectors as [| sel rest IH]; cbn [playClick_loop]; repeat safe_step.
Qed.

Lemma playInput_loop_safe (interaction : Interaction) (selectors : list string) :
  safe (playInput_loop interaction selectors).
Proof.
  induction selectors as [| sel rest IH]; cbn [playInput_loop]; repeat safe_step.
Qed.

(** Once the page has answered the readiness probe, the click and typing
    dispatchers return normally whatever the page does next: what fails in
    their candidate loops never leaves them. *)
Lemma click_and_input_absorb (interaction : Interaction) (s0 s1 : State) :
  ensurePageReady s0 = (Ok tt, s1) ->
  type interaction = "input" \/ type interaction = "text"
  \/ type interaction = "search"
  \/ (type interaction = "click"
      /\ exists selectors, playClick_selectors interaction = Ok selectors) ->
  exists s2, dispatch interaction s0 = (Ok tt, s2).
Proof.
  intros Hready Hkind.
  pose proof (waitForElement_safe (selector interaction)) as Hwait.
  assert (Hinput : type interaction = "input" \/ type interaction = "text"
                   \/ type interaction = "search" ->
                   exists s2, dispatch interaction s0 = (Ok tt, s2)).
  { intros Htype. rewrite (dispatch_input _ Htype). unfold playInput.
    rewrite (bind_Ok _ _ _ _ _ Hready).
    pose proof (playInput_loop_safe interaction (playInput_selectors interaction)).
    match goal with
    | |- exists s2, ?m s1 = _ =>
        assert (Hsafe : safe m) by repeat safe_step;
        destruct (safe_run m Hsafe s1) as ([] & s2 & Hrun)
    end.
    now exists s2. }
  destruct Hkind as [H | [H | [H | (Htype & selectors & Hselectors)]]]; auto.
  rewrite (dispatch_click _ Htype). unfold playClick.
  rewrite (bind_Ok _ _ _ _ _ Hready). rewrite Hselectors.
  pose proof (safe_lift_Ok selectors).
  match goal with
  | |- exists s2, ?m s1 = _ =>
      assert (Hsafe : safe m)
        by (repeat first [apply playClick_loop_safe | safe_step]);
      destruct (safe_run m Hsafe s1) as ([] & s2 & Hrun)
  end.
  now exists s2.
Qed.

(** C1, as the code has it. Whatever fails while an event is handled, the
    per-event handler returns normally. An error that leaves the dispatcher,
    or the page checks before it, reaches the handler's [catch] and is
    logged with the number of the event ([index + 1], as the progress lines
    count them); with a recording in place, all that the handling of an
    event prints comes after the progress line that carries its number and
    kind. What fails inside the candidate loops of a click or typing event
    never reaches the handler: once the page has answered the readiness
    probe (and the candidates of a click have been built) these dispatchers
    return normally, and an event whose target cannot be found ends in a
    line that names the selector and not the event ("Could not click
    element", "Could not type in element"). A run with a recording of the
    documented shape and a browser handles every event of the sequence, in
    order, so the number of events attempted is the length of the
    sequence. *)
Theorem playback_isolates_event_failures (r : Recording) (s : State) :
  recording s = Some (documented r) -> browser s <> None ->
  (forall interaction index s0,
     exists s1, playInteraction interaction index s0 = (Ok tt, s1))
  /\ (forall interaction index s0 message s1,
        playInteraction_body interaction index s0 = (Throw message, s1) ->
        playInteraction interaction index s0
        = (Ok tt, add_event (ConsoleError (MErrorPlaying (index + 1) message)) s1))
  /\ (forall interaction index s0 loaded s1 s2 message,
        recording s0 = Some loaded ->
        prepare_page interaction
          (add_event (ConsoleLog (MPlaying (index + 1) (parsed_totalInteractions loaded)
                                    (type interaction) (url interaction))) s0)
        = (Ok tt, s1) ->
        dispatch interaction s1 = (Throw message, s2) ->
        playInteraction interaction index s0
        = (Ok tt, add_event (ConsoleError (MErrorPlaying (index + 1) message)) s2))
  /\ (forall interaction index s0 loaded,
        recording s0 = Some loaded ->
        exists s1 d,
          playInteraction interaction index s0 = (Ok tt, s1) /\
          trace s1 = trace s0
                     ++ ConsoleLog (MPlaying (index + 1) (parsed_totalInteractions loaded)
                                      (type interaction) (url interaction)) :: d /\
          attempts d = [])
  /\ (forall interaction s0 s1,
        ensurePageReady s0 = (Ok tt, s1) ->
        type interaction = "input" \/ type interaction = "text"
        \/ type interaction = "search"
        \/ (type interaction = "click"
            /\ exists selectors, playClick_selectors interaction = Ok selectors) ->
        exists s2, dispatch interaction s0 = (Ok tt, s2))
  /\ (forall interaction s0 s1 s2 p tried w,
        ensurePageReady s0 = (Ok tt, s1) ->
        waitForElement (selector interaction) s1 = (Ok tt, s2) ->
        page s2 = Some p ->
        (forall selectors,
           type interaction = "click" ->
           coordinates interaction = None ->
           playClick_selectors interaction = Ok selectors ->
           probe p selectors (world s2) = (tried, None, w) ->
           dispatch interaction s0
           = (Ok tt,
              extend s2 w
                (queries tried ++ [ConsoleLog (MCouldNotClick (selector interaction))])))
        /\ (type interaction = "input" \/ type interaction = "text"
            \/ type interaction = "search" ->
            probe p (playInput_selectors interaction) (world s2) = (tried, None, w) ->
            dispatch interaction s0
            = (Ok tt,
               extend s2 w
                 (queries tried ++ [ConsoleLog (MCouldNotType (selector interaction))]))))
  /\ exists s' d,
       startPlayback s = (Ok tt, s') /\
       trace s' = trace s ++ d /\
       attempts d = numbered 1 (interactions r) /\
       length (attempts d) = length (interactions r).
Proof.
  intros Hr Hb. split; [| split; [| split; [| split; [| split; [| split]]]]].
  - intros interaction index s0.
    destruct (safe_run _ (playInteraction_safe interaction index) s0) as ([] & s1 & H).
    now exists s1.
  - intros interaction index s0 message s1 Hbody.
    unfold playInteraction. now rewrite (try_Throw _ _ _ _ _ Hbody).
  - intros interaction index s0 loaded s1 s2 message Hr0 Hprepare Hdispatch.
    unfold playInteraction.
    rewrite (try_Throw _ _ s0 s2 message); [reflexivity |].
    unfold playInteraction_body, read_totalInteractions, read_recording.
    unfold bind at 1. rewrite Hr0.
    unfold bind at 1, console_log at 1, emit at 1, modify at 1.
    unfold bind at 1. rewrite Hprepare. exact Hdispatch.
  - intros interaction index s0 loaded Hr0.
    destruct (playInteraction_attempt interaction index loaded s0 Hr0)
      as (s1 & d & Hrun & _ & _ & _ & Hd & Hquiet).
    exists s1, d. repeat split; try assumption. now apply attempts_quiet.
  - intros interaction s0 s1. apply click_and_input_absorb.
  - intros interaction s0 s1 s2 p tried w Hready Hwait Hp. split.
    + intros selectors Htype Hnone Hselectors Hprobe.
      rewrite (dispatch_click _ Htype). unfold playClick.
      rewrite (bind_Ok _ _ _ _ _ Hready), (bind_Ok _ _ _ _ _ Hwait).
      rewrite Hselectors. unfold bind at 1, lift at 1.
      rewrite (bind_Ok _ _ _ _ _ (playClick_loop_unresolved p _ s2 tried w Hp Hprobe)).
      rewrite Hnone. run. same_state.
    + intros Htype Hprobe.
      rewrite dispatch_input by exact Htype. unfold playInput.
      rewrite (bind_Ok _ _ _ _ _ Hready), (bind_Ok _ _ _ _ _ Hwait).
      rewrite (bind_Ok _ _ _ _ _
                 (playInput_loop_unresolved interaction p _ s2 tried w Hp Hprobe)).
      run. same_state.
  - destruct (startPlayback_completes r s Hr Hb) as (s' & d & Hrun & Hd & Ha).
    exists s', d. repeat split; try assumption.
    rewrite Ha. apply numbered_length.
Qed.

End Resolution.

(** * Properties of the command line *)

Section CommandLineFacts.

Context `{host : Host} {launcher : Launcher host}.

Local Open Scope Q_scope.

Lemma allowed_not_starting (kind : string) (e : Event) :
  allowed kind e = true -> not_starting e = true.
Proof.
  intros H. destruct e as [[] | | | |]; try reflexivity.
  exfalso. unfold allowed in H.
  repeat match type of H with
         | context [if ?b then _ else _] => destruct b
         end; cbn in H; discriminate.
Qed.

Lemma playInteraction_not_starting (interaction : Interaction) (index : nat) :
  emits not_starting (playInteraction interaction index).
Proof.
  pose proof (emits_subset _ _ _ (allowed_not_starting (type interaction))
                (dispatch_footprint interaction)).
  unfold playInteraction, playInteraction_body, prepare_page. emits_all.
Qed.

Lemma startPlayback_loop_not_starting (rest : list (option Interaction)) :
  forall i previous, emits not_starting (startPlayback_loop rest i previous).
Proof.
  induction rest as [| [interaction |] rest IH]; intros i previous;
    cbn [startPlayback_loop].
  - emits_all.
  - pose proof (playInteraction_not_starting interaction i).
    pose proof (IH (S i) (timestamp interaction)).
    unfold pace. emits_all.
  - unfold playInteraction_null. emits_all.
Qed.

Lemma announced_app (d1 d2 : list Event) :
  announced_speeds (d1 ++ d2) = announced_speeds d1 ++ announced_speeds d2.
Proof. unfold announced_speeds. apply flat_map_app. Qed.

Lemma announced_none (d : list Event) :
  forallb not_starting d = true -> announced_speeds d = [].
Proof.
  induction d as [| e d IH]; [reflexivity |]. cbn. intros H.
  apply andb_prop in H. destruct H as (He & Hd).
  destruct e as [[] | | | |]; try discriminate; cbn; auto.
Qed.

(** What a run adds to the object: nothing but trace; the speed it
    announces, if it starts at all, is the speed of the object; and when it
    returns there was a browser and the last line is the completion line. *)
Lemma startPlayback_announces (s : State) :
  exists d,
    trace (snd (startPlayback s)) = trace s ++ d /\
    recording (snd (startPlayback s)) = recording s /\
    browser (snd (startPlayback s)) = browser s /\
    playbackSpeed (snd (startPlayback s)) = playbackSpeed s /\
    (announced_speeds d = [] \/ announced_speeds d = [playbackSpeed s]) /\
    (fst (startPlayback s) = Ok tt ->
     browser s <> None /\ exists d', d = d' ++ [ConsoleLog MCompleted]).
Proof.
  unfold startPlayback, bind, gets, throw.
  destruct (recording s) as [r |] eqn:Hr.
  2:{ exists []. cbn. rewrite app_nil_r, Hr. repeat split; auto; discriminate. }
  destruct (browser s) as [b |] eqn:Hb.
  2:{ exists []. cbn. rewrite app_nil_r, Hr, Hb. repeat split; auto; discriminate. }
  unfold console_log, emit, modify.
  set (s0 := add_event (ConsoleLog MPressCtrlC)
               (add_event (ConsoleLog (MStarting (parsed_totalInteractions r)
                                         (playbackSpeed s))) s)).
  destruct (parsed_interactions r) as [entries |].
  2:{ exists [ ConsoleLog (MStarting (parsed_totalInteractions r) (playbackSpeed s));
               ConsoleLog MPressCtrlC ].
      cbn. repeat split; auto; try discriminate.
      now rewrite <- app_assoc. }
  destruct (startPlayback_loop_not_starting entries 0 None s0)
    as (Hb1 & Hq1 & Hr1 & d & Hd & Hf).
  destruct (startPlayback_loop entries 0 None s0) as [[[] | e] s1];
    cbn in Hb1, Hq1, Hr1, Hd; cbn.
  - exists (ConsoleLog (MStarting (parsed_totalInteractions r) (playbackSpeed s))
            :: ConsoleLog MPressCtrlC :: d ++ [ConsoleLog MCompleted]).
    repeat split; try congruence.
    + rewrite Hd. cbn. rewrite <- !app_assoc. reflexivity.
    + right. pose proof (announced_none d Hf) as Hn. unfold announced_speeds in *.
      cbn [flat_map app]. rewrite flat_map_app, Hn. reflexivity.
    + exists (ConsoleLog (MStarting (parsed_totalInteractions r) (playbackSpeed s))
              :: ConsoleLog MPressCtrlC :: d). reflexivity.
  - exists (ConsoleLog (MStarting (parsed_totalInteractions r) (playbackSpeed s))
            :: ConsoleLog MPressCtrlC :: d).
    repeat split; try congruence.
    + rewrite Hd. cbn. rewrite <- !app_assoc. reflexivity.
    + right. pose proof (announced_none d Hf) as Hn. unfold announced_speeds in *.
      cbn [flat_map app]. rewrite Hn. reflexivity.
Qed.

(** What a successful load leaves behind. *)
Lemma loadRecording_success (filePath : string) (s s' : State) :
  loadRecording filePath s = (Ok tt, s') ->
  exists r,
    s' = extend (set_recording (Some r) s) (world s)
           [ ConsoleLog (MLoaded (parsed_sessionId r));
             ConsoleLog (MTotal (parsed_totalInteractions r));
             ConsoleLog (MDuration (parsed_startTime r) (parsed_endTime r)) ].
Proof.
  unfold loadRecording, bind, gets, throw, lift, modify, console_log, emit,
    read_recording.
  destruct (fs_existsSync filePath (world s)); cbn; [| discriminate].
  destruct (fs_readFileSync filePath (world s)) as [text | e]; cbn; [| discriminate].
  destruct (JSON_parse text) as [[r |] | e]; cbn; try discriminate.
  intros H. inversion H. exists r. unfold extend, add_event, set_recording. cbn.
  rewrite <- !app_assoc. reflexivity.
Qed.

(** [initialize] leaves the trace, the recording and the speed alone, never
    calls [close], and attaches a browser when it returns. *)
Lemma initialize_facts (headless : bool) (ps : Process) :
  exists j,
    journal (snd (initialize headless ps)) = journal ps ++ j /\
    In (Launch headless) j /\ ~ In Close j /\
    (forall h, In (Launch h) j -> h = headless) /\
    trace (engine (snd (initialize headless ps))) = trace (engine ps) /\
    recording (engine (snd (initialize headless ps))) = recording (engine ps) /\
    playbackSpeed (engine (snd (initialize headless ps))) = playbackSpeed (engine ps) /\
    (fst (initialize headless ps) = Ok tt ->
     browser (engine (snd (initialize headless ps))) <> None).
Proof.
  unfold initialize, p_bind, record, call, on_engine, modify. cbn.
  destruct (puppeteer_launch headless (world (engine ps))) as [[b | e] w1]; cbn.
  2:{ exists [Stdout "Launching browser for playback..."; Launch headless].
      rewrite <- app_assoc. cbn. repeat split; auto.
      - intros [H | [H | []]]; discriminate.
      - intros h [H | [H | []]]; [discriminate | now inversion H].
      - discriminate. }
  destruct (browser_newPage b w1) as [[p | e] w2]; cbn.
  2:{ exists [Stdout "Launching browser for playback..."; Launch headless; NewPage].
      rewrite <- !app_assoc. cbn. repeat split; auto.
      - intros [H | [H | [H | []]]]; discriminate.
      - intros h [H | [H | [H | []]]]; try discriminate. now inversion H.
      - discriminate. }
  destruct (page_setUserAgent p userAgent w2) as [[[] | e] w3]; cbn.
  - exists [ Stdout "Launching browser for playback..."; Launch headless; NewPage;
             SetUserAgent userAgent; Stdout "Browser initialized for playback" ].
    rewrite <- !app_assoc. cbn. repeat split; auto.
    + intros [H | [H | [H | [H | [H | []]]]]]; discriminate.
    + intros h [H | [H | [H | [H | [H | []]]]]]; try discriminate. now inversion H.
    + discriminate.
  - exists [ Stdout "Launching browser for playback..."; Launch headless; NewPage;
             SetUserAgent userAgent ].
    rewrite <- !app_assoc. cbn. repeat split; auto.
    + intros [H | [H | [H | [H | []]]]]; discriminate.
    + intros h [H | [H | [H | [H | []]]]]; try discriminate. now inversion H.
    + discriminate.
Qed.

(** [stop] closes the browser of the object when there is one, and only
    then; it leaves the fields of the object alone. *)
Lemma stop_facts (ps : Process) :
  exists j,
    journal (snd (stop ps)) = journal ps ++ j /\
    (forall h, ~ In (Launch h) j) /\
    (browser (engine ps) <> None -> In Close j) /\
    (browser (engine ps) <> None -> fst (stop ps) = Ok tt ->
     j = [Close; Stdout "Browser closed"]) /\
    browser (engine (snd (stop ps))) = browser (engine ps) /\
    trace (engine (snd (stop ps))) = trace (engine ps) /\
    recording (engine (snd (stop ps))) = recording (engine ps) /\
    playbackSpeed (engine (snd (stop ps))) = playbackSpeed (engine ps).
Proof.
  unfold stop, p_bind, record, call.
  destruct (browser (engine ps)) as [b |] eqn:Hb.
  - destruct (browser_close b (world (engine ps))) as [[[] | e] w1]; cbn.
    + exists [Close; Stdout "Browser closed"]. rewrite <- app_assoc. cbn.
      repeat split; auto. intros h [H | [H | []]]; discriminate.
    + exists [Close]. repeat split; auto; cbn; auto.
      * intros h [H | []]; discriminate.
      * discriminate.
  - exists []. cbn. rewrite app_nil_r. repeat split; auto; congruence.
Qed.

Lemma read_speed_positive (args : list string) (speed : Q) :
  read_speed args = Some speed -> 0 < speed.
Proof.
  unfold read_speed.
  destruct (indexOf "--speed" args) as [i |]; [| intros H; now inversion H].
  destruct (nth_error args (i + 1)) as [text |]; [| intros H; now inversion H].
  destruct (negb (String.eqb text EmptyString)); [| intros H; now inversion H].
  destruct (parseFloat text) as [q |]; [| discriminate].
  destruct (Qle_bool q 0) eqn:E; [discriminate |].
  intros H. inversion H; subst. apply Qnot_le_lt. intros Hle.
  apply Qle_bool_iff in Hle. congruence.
Qed.

(** A load that fails on a new playback object leaves it as constructed:
    its recording is [null] before and after. *)
Lemma loadRecording_throw_fresh (filePath : string) (w : W) (s' : State)
    (message : string) :
  loadRecording filePath (constructor w) = (Throw message, s') -> s' = constructor w.
Proof.
  unfold loadRecording, bind, gets, throw, lift, modify, console_log, emit,
    read_recording.
  cbn [world constructor].
  destruct (fs_existsSync filePath w); cbn.
  - destruct (fs_readFileSync filePath w) as [text | e]; cbn.
    + destruct (JSON_parse text) as [[r |] | e]; cbn; intros H; now inversion H.
    + intros H; now inversion H.
  - intros H; now inversion H.
Qed.

(** The speed step of [main]: the object's speed is positive afterwards,
    and nothing is announced. *)
Lemma speed_step_facts (speed : Q) (ps : Process) :
  0 < speed -> 0 < playbackSpeed (engine ps) ->
  exists ps',
    (if negb (Qeq_bool speed 1) then on_engine (setPlaybackSpeed speed) else p_ret tt) ps
    = (Ok tt, ps') /\
    journal ps' = journal ps /\
    0 < playbackSpeed (engine ps') /\
    recording (engine ps') = recording (engine ps) /\
    browser (engine ps') = browser (engine ps) /\
    exists d, trace (engine ps') = trace (engine ps) ++ d /\ announced_speeds d = [].
Proof.
  intros Hs Hp. destruct (negb (Qeq_bool speed 1)).
  - eexists. split; [reflexivity |]. cbn. repeat split; auto.
    exists [ConsoleLog (MSpeedSet speed)]. split; reflexivity.
  - exists ps. split; [reflexivity |]. repeat split; auto.
    exists []. rewrite app_nil_r. split; reflexivity.
Qed.

Lemma on_engine_run {A : Type} (m : M A) (ps : Process) :
  on_engine m ps = (let (r, s) := m (engine ps) in (r, mkProcess s (journal ps))).
Proof. reflexivity. Qed.

(** The [try] block of [main], from a fresh playback object. *)
Lemma main_try_facts (file : string) (headless : bool) (speed : Q) (w : W) :
  0 < speed ->
  forall res, res = main_try file headless speed (mkProcess (constructor w) []) ->
  (forall h, In (Launch h) (journal (snd res)) ->
     h = headless /\ exists r, recording (engine (snd res)) = Some r) /\
  Forall (fun q => 0 < q) (announced_speeds (trace (engine (snd res)))) /\
  (fst res = Ok tt ->
     (exists j, journal (snd res) = j ++ [Close; Stdout "Browser closed"]) /\
     (exists t, trace (engine (snd res)) = t ++ [ConsoleLog MCompleted])) /\
  (fst res = Ok tt -> browser (engine (snd res)) <> None -> In Close (journal (snd res))).
Proof.
  intros Hspeed res ->.
  unfold main_try. cbv beta iota delta [p_bind]. cbn [engine journal].
  change (world (constructor w)) with w.
  rewrite (on_engine_run (loadRecording (path_resolve file w))). cbn [engine journal].
  destruct (loadRecording (path_resolve file w) (constructor w))
    as [[[] | e1] s1] eqn:Hload.
  2:{ apply loadRecording_throw_fresh in Hload. subst s1. cbn.
      split; [intros h [] |]. split; [constructor |]. split; discriminate. }
  apply loadRecording_success in Hload. destruct Hload as (r & ->).
  set (s1 := extend _ _ _). cbn [engine journal].
  destruct (initialize_facts headless (mkProcess s1 []))
    as (j2 & Hj2 & _ & _ & Hl2 & Ht2 & Hr2 & Hq2 & Hb2).
  destruct (initialize headless (mkProcess s1 [])) as [[[] | e2] ps2];
    cbn [fst snd engine journal app] in Hj2, Ht2, Hr2, Hq2, Hb2.
  2:{ cbn [fst snd].
      split; [intros h H; split |].
      - apply Hl2. now rewrite Hj2 in H.
      - exists r. now rewrite Hr2.
      - split; [| split; discriminate]. rewrite Ht2. cbn. constructor. }
  destruct (speed_step_facts speed ps2 Hspeed)
    as (ps3 & -> & Hj3 & Hq3 & Hr3 & Hb3 & d3 & Ht3 & Ha3).
  { rewrite Hq2. reflexivity. }
  rewrite (on_engine_run startPlayback).
  destruct (startPlayback_announces (engine ps3))
    as (d4 & Ht4 & Hr4 & Hb4 & Hq4 & Ha4 & Hok4).
  destruct (startPlayback (engine ps3)) as [[[] | e4] s4];
    cbn [fst snd] in Ht4, Hr4, Hb4, Hq4, Hok4.
  2:{ cbn [fst snd engine journal].
      split; [intros h H; split |].
      - apply Hl2. now rewrite Hj3, Hj2 in H.
      - exists r. now rewrite Hr4, Hr3, Hr2.
      - split; [| split; discriminate].
        rewrite Ht4, Ht3, Ht2. cbn [s1 extend trace app]. rewrite !announced_app, Ha3.
        cbn. destruct Ha4 as [-> | ->]; repeat constructor. exact Hq3. }
  destruct (Hok4 eq_refl) as (Hsome & d4' & Hd4).
  destruct (stop_facts (mkProcess s4 (journal ps3)))
    as (j5 & Hj5 & Hl5 & Hc5 & Hok5 & Hb5 & Ht5 & Hr5 & Hq5).
  cbn [engine journal] in Hj5, Hc5, Hok5, Hb5, Ht5, Hr5, Hq5.
  assert (Hattached : browser s4 <> None) by congruence.
  split; [intros h H; split | split; [| split]].
  - rewrite Hj5, Hj3, Hj2 in H. cbn [app] in H. apply in_app_or in H.
    destruct H as [H | H]; [now apply Hl2 | now apply Hl5 in H].
  - exists r. now rewrite Hr5, Hr4, Hr3, Hr2.
  - rewrite Ht5, Ht4, Ht3, Ht2. cbn [s1 extend trace app]. rewrite !announced_app, Ha3.
    cbn. destruct Ha4 as [-> | ->]; repeat constructor. exact Hq3.
  - intros Hok. split.
    + rewrite Hj5. exists (journal ps3). f_equal. now apply Hok5.
    + exists (trace (engine ps3) ++ d4'). rewrite Ht5, Ht4, Hd4. apply app_assoc.
  - intros _ _. rewrite Hj5. apply in_or_app. right. now apply Hc5.
Qed.

(** The path of [main] past its argument checks. *)
Lemma main_past_checks (file : string) (rest : list string) (w : W) (speed : Q) :
  read_speed (file :: rest) = Some speed ->
  snd (main (file :: rest) w) =
    match main_try file (existsb (String.eqb "--headless") (file :: rest)) speed
            (mkProcess (constructor w) []) with
    | (Ok _, ps) => ps
    | (Throw message, ps) =>
        snd (stop (mkProcess (engine ps) (journal ps ++ [Stderr ("Error: " ++ message)])))
    end.
Proof.
  intros Hs. unfold main. rewrite Hs.
  destruct (main_try _ _ _ _) as [[[] | message] ps]; [reflexivity |].
  unfold p_bind, record.
  destruct (stop _) as [[[] | e] ps']; reflexivity.
Qed.

(** X20. [initialize] stores the browser before it opens the page: when the page
    cannot be opened the error goes to the caller with the browser attached
    to the playback object, so that a [stop] that follows asks it to close. *)
Theorem initialize_keeps_browser_when_page_fails (headless : bool) (ps : Process)
    (b : Browser) (w1 w2 : W) (e : string) :
  puppeteer_launch headless (world (engine ps)) = (Ok b, w1) ->
  browser_newPage b w1 = (Throw e, w2) ->
  exists ps',
    initialize headless ps = (Throw e, ps') /\
    browser (engine ps') = Some b /\
    page (engine ps') = page (engine ps) /\
    journal ps'
    = journal ps ++ [Stdout "Launching browser for playback..."; Launch headless; NewPage] /\
    exists j, journal (snd (stop ps')) = journal ps' ++ Close :: j.
Proof.
  intros Hlaunch Hpage.
  unfold initialize, p_bind, record, call, on_engine, modify. cbn.
  rewrite Hlaunch. cbn. rewrite Hpage. cbn.
  eexists. split; [reflexivity |]. cbn.
  split; [reflexivity |]. split; [reflexivity |].
  split; [now rewrite <- !app_assoc |].
  unfold stop, p_bind, record, call. cbn.
  destruct (browser_close b w2) as [[[] | e'] w3]; cbn [snd journal engine];
    [exists [Stdout "Browser closed"] | exists []]; rewrite <- ?app_assoc; reflexivity.
Qed.

(** X21. [stop] closes the browser and leaves it attached to the playback
    object: a second [stop] asks the same browser to close again. *)
Theorem stop_leaves_browser_attached (ps : Process) (b : Browser) (w1 : W) :
  browser (engine ps) = Some b ->
  browser_close b (world (engine ps)) = (Ok tt, w1) ->
  exists ps',
    stop ps = (Ok tt, ps') /\
    browser (engine ps') = Some b /\
    journal ps' = journal ps ++ [Close; Stdout "Browser closed"] /\
    exists j, journal (snd (stop ps')) = journal ps' ++ Close :: j.
Proof.
  intros Hb Hclose.
  unfold stop at 1. unfold p_bind, record, call. rewrite Hb, Hclose. cbn.
  eexists. split; [reflexivity |]. cbn.
  split; [exact Hb |]. split; [now rewrite <- !app_assoc |].
  unfold stop, p_bind, record, call. cbn. rewrite Hb.
  destruct (browser_close b w1) as [[[] | e'] w3]; cbn [snd journal engine];
    [exists [Stdout "Browser closed"] | exists []]; rewrite <- ?app_assoc; reflexivity.
Qed.


(** X23. Every speed a playback started by [main] announces is positive: the
    check of the [--speed] option keeps [calculateDelay]'s divisor away from
    zero and from negative values. *)
Theorem main_plays_at_positive_speed (args : list string) (w : W) :
  Forall (fun speed => 0 < speed)
         (announced_speeds (trace (engine (snd (main args w))))).
Proof.
  destruct args as [| file rest]; [constructor |].
  destruct (read_speed (file :: rest)) as [speed |] eqn:Hs.
  2:{ unfold main. rewrite Hs. constructor. }
  rewrite (main_past_checks file rest w speed Hs).
  destruct (main_try_facts file (existsb (String.eqb "--headless") (file :: rest)) speed w
              (read_speed_positive _ _ Hs) _ eq_refl) as (_ & Hpos & _).
  destruct (main_try _ _ _ _) as [[[] | message] ps]; cbn [fst snd] in Hpos.
  - exact Hpos.
  - destruct (stop_facts (mkProcess (engine ps) (journal ps ++ [Stderr ("Error: " ++ message)])))
      as (j & _ & _ & _ & _ & _ & Ht & _).
    cbn [engine] in Ht. rewrite Ht. exact Hpos.
Qed.




End CommandLineFacts.

(** * Concrete runs on the small host *)

Import Toy.

Local Open Scope Q_scope.

(** A run whose first event fails: the error is logged with the number of
    the event and the two later events are handled. *)
Example failing_event_is_logged_and_run_goes_on :
  filter (fun e => match e with
                   | ConsoleError _ => true
                   | ConsoleLog (MPlaying _ _ _ _) => true
                   | _ => false
                   end)
    (trace (snd (startPlayback (ready with_failure 1 [text_field "old"]))))
  = [ ConsoleLog (MPlaying 1 3 "checkbox" (JStr "http://a/"));
      ConsoleError (MErrorPlaying 1 "Could not toggle checkbox: #agree");
      ConsoleLog (MPlaying 2 3 "click" (JStr "http://a/"));
      ConsoleLog (MPlaying 3 3 "input" (JStr "http://a/")) ].
Proof. vm_compute. reflexivity. Qed.

Lemma playback_isolates_event_failures_witness :
  playInteraction (checkbox_agree true) 0 (ready with_failure 1 [text_field "old"])
  = (Ok tt,
     add_event (ConsoleError (MErrorPlaying 1 "Could not toggle checkbox: #agree"))
       (snd (playInteraction_body (checkbox_agree true) 0
               (ready with_failure 1 [text_field "old"]))))
  /\ dispatch click_plain (ready with_failure 1 [text_field "old"])
     = (Ok tt,
        extend (snd (waitForElement (JStr "#go")
                       (snd (ensurePageReady (ready with_failure 1 [text_field "old"])))))
          (page_with [text_field "old"])
          (queries ["#go"; "#go"; ".btn.primary"; "button"]
           ++ [ConsoleLog (MCouldNotClick (JStr "#go"))]))
  /\ exists s' d,
       startPlayback (ready with_failure 1 [text_field "old"]) = (Ok tt, s') /\
       trace s' = trace (ready with_failure 1 [text_field "old"]) ++ d /\
       attempts d = numbered 1 (interactions with_failure) /\
       length (attempts d) = length (interactions with_failure).
Proof.
  destruct (playback_isolates_event_failures with_failure
              (ready with_failure 1 [text_field "old"]) eq_refl)
    as (_ & Hlogged & _ & _ & _ & Hunresolved & Hrun); [discriminate |].
  split; [| split; [| exact Hrun]].
  - apply Hlogged. vm_compute. reflexivity.
  - apply (proj1 (Hunresolved click_plain
                    (ready with_failure 1 [text_field "old"])
                    (snd (ensurePageReady (ready with_failure 1 [text_field "old"])))
                    (snd (waitForElement (JStr "#go")
                            (snd (ensurePageReady (ready with_failure 1 [text_field "old"])))))
                    0%nat ["#go"; "#go"; ".btn.primary"; "button"]
                    (page_with [text_field "old"]) eq_refl eq_refl eq_refl)
             ["#go"; "#go"; ".btn.primary"; "button"]);
      reflexivity.
Defined.

(** A click whose target is not on the page, and a click on a target that
    cannot be clicked: the handler returns, nothing goes to the error
    stream, and the line that reports the failure names the selector and
    not the event. A recording whose array opens with a [null] entry: the
    run stops there and no event is attempted. *)
Lemma swallowed_failures_counterexample :
  trace (snd (playInteraction click_plain 0 (ready declared_five 1 [])))
  = [ ConsoleLog (MPlaying 1 5 "click" (JStr "http://a/"));
      Invoke CUrl; Invoke CUrl; Invoke CEvaluate;
      Invoke (CWaitForSelector (JStr "#go") 5000);
      ConsoleLog (MWarnNotFound (JStr "#go"));
      Invoke (CQuery "#go"); Invoke (CQuery "#go");
      Invoke (CQuery ".btn.primary"); Invoke (CQuery "button");
      ConsoleLog (MCouldNotClick (JStr "#go")) ]
  /\ filter is_console_error
       (trace (snd (playInteraction click_plain 0 (ready declared_five 1 [])))) = []
  /\ trace (snd (playInteraction click_plain 0 (ready declared_five 1 [covered_button])))
     = [ ConsoleLog (MPlaying 1 5 "click" (JStr "http://a/"));
         Invoke CUrl; Invoke CUrl; Invoke CEvaluate;
         Invoke (CWaitForSelector (JStr "#go") 5000);
         Invoke (CQuery "#go"); Invoke (CClick "#go");
         Invoke (CQuery "#go"); Invoke (CClick "#go");
         Invoke (CQuery ".btn.primary"); Invoke (CQuery "button");
         ConsoleLog (MCouldNotClick (JStr "#go")) ]
  /\ fst (startPlayback (holding with_null_entry 1 []))
     = Throw "Cannot read properties of null (reading 'timestamp')"
  /\ attempts (trace (snd (startPlayback (holding with_null_entry 1 [])))) = []
  /\ parsed_interactions with_null_entry = Some [None; Some click_go].
Proof. repeat split; vm_compute; reflexivity. Qed.

Lemma calculateDelay_max_scaled_floor_witness :
  calculateDelay (ready declared_five 2 []) 1000 1500 == 250.
Proof.
  destruct (calculateDelay_max_scaled_floor (ready declared_five 2 []) 1000 1500)
    as (_ & _ & _ & _ & H); [reflexivity | apply H; reflexivity].
Defined.


(** What the click list is for a record without id and class: the [#null]
    and [.undefined] candidates are kept. *)
Example click_candidates_without_id_and_class :
  playClick_selectors click_bare = Ok ["button"; "#null"; ".undefined"; "button"].
Proof. reflexivity. Qed.


Lemma unresolved_submit_and_change_pass_silently_witness :
  dispatch submit_signup (ready declared_five 1 [paragraph])
  = (Ok tt,
     extend (snd (waitForElement (JStr "#signup") (ready declared_five 1 [paragraph])))
       (page_with [paragraph])
       [Invoke CEvaluate; ConsoleLog (MSubmitted (JStr "#signup"))])
  /\ dispatch change_country (ready declared_five 1 [])
     = (Ok tt,
        extend (snd (waitForElement (JStr "#country") (ready declared_five 1 [])))
          (page_with [])
          [Invoke CEvaluate; ConsoleLog (MChanged (JStr "USA") "#country")]).
Proof.
  split.
  - apply (proj1 (unresolved_submit_and_change_pass_silently submit_signup
                    (ready declared_five 1 [paragraph])
                    (snd (waitForElement (JStr "#signup") (ready declared_five 1 [paragraph])))
                    0%nat (page_with [paragraph]) eq_refl eq_refl eq_refl)).
    + reflexivity.
    + right. exists 0%nat. split; reflexivity.
  - apply (proj2 (unresolved_submit_and_change_pass_silently change_country
                    (ready declared_five 1 [])
                    (snd (waitForElement (JStr "#country") (ready declared_five 1 [])))
                    0%nat (page_with []) eq_refl eq_refl eq_refl)
             (or_introl eq_refl))
      with (rest := ["#country"; name_selector (JStr "country")]).
    + discriminate.
    + reflexivity.
    + reflexivity.
Defined.

(** The sibling paths do raise on a target that is not there: a change on a
    SELECT ([page.select] throws for every candidate) and a checkbox. *)
Example unresolved_select_and_checkbox_raise :
  fst (dispatch select_country (ready declared_five 1 []))
  = Throw "Could not change element: #country"
  /\ fst (dispatch (checkbox_agree true) (ready declared_five 1 []))
     = Throw "Could not toggle checkbox: #agree".
Proof. split; vm_compute; reflexivity. Qed.

Lemma pace_skips_floor_delay_witness :
  calculateDelay (ready declared_five 1 []) 1000 1020 == 50
  /\ pace (Some 1000) (input_name (JStr "Ann")) (ready declared_five 1 [])
     = (Ok tt, ready declared_five 1 []).
Proof.
  apply (pace_skips_floor_delay 1000 1020 (input_name (JStr "Ann"))
           (ready declared_five 1 [])).
  - reflexivity.
  - intros H. discriminate H.
  - intros H. discriminate H.
  - reflexivity.
  - intros H. discriminate H.
Defined.

(** Whole runs of the two-event recording (timestamps 1000 and 1020): at
    speed 1 the delay is the floor and nothing is waited for; at a tenth of
    the speed the delay is 200 ms, announced and waited for. *)
Example floor_delay_is_not_waited :
  filter is_wait (trace (snd (startPlayback (ready declared_five 1 [text_field "old"]))))
  = [].
Proof. vm_compute. reflexivity. Qed.

Example longer_delay_is_waited :
  filter is_wait
    (trace (snd (startPlayback (ready declared_five (1 # 10) [text_field "old"]))))
  = [ConsoleLog (MWaiting 200); Sleep ((1020 - 1000) / (1 # 10))].
Proof. vm_compute. reflexivity. Qed.

(** The file declares five interactions and holds two; loading it prints
    the three lines and nothing else. *)
Lemma declared_total_mismatch_counterexample :
  totalInteractions declared_five <> Z.of_nat (length (interactions declared_five))
  /\ fst (loadRecording "rec.json" (initialized [])) = Ok tt
  /\ trace (snd (loadRecording "rec.json" (initialized [])))
     = [ ConsoleLog (MLoaded "1750718332829");
         ConsoleLog (MTotal 5);
         ConsoleLog (MDuration "2025-06-23T22:38:52.829Z" "2025-06-23T22:40:01.002Z") ]
  /\ existsb is_warning (trace (snd (loadRecording "rec.json" (initialized [])))) = false.
Proof.
  split; [| split; [| split]].
  - intros H. discriminate H.
  - reflexivity.
  - reflexivity.
  - reflexivity.
Qed.

Lemma loadRecording_echoes_declared_total_witness :
  exists loaded,
    loadRecording "rec.json" (initialized []) = (Ok tt, loaded) /\
    recording loaded = Some (documented declared_five) /\
    trace loaded
    = trace (initialized [])
      ++ [ ConsoleLog (MLoaded (sessionId declared_five));
           ConsoleLog (MTotal (totalInteractions declared_five));
           ConsoleLog (MDuration (startTime declared_five) (endTime declared_five)) ] /\
    exists s' d,
      startPlayback loaded = (Ok tt, s') /\
      trace s' = trace loaded ++ d /\
      length (attempts d) = length (interactions declared_five).
Proof.
  apply (loadRecording_echoes_declared_total "rec.json" "declared_five" declared_five
           (initialized [])).
  - reflexivity.
  - reflexivity.
  - reflexivity.
  - discriminate.
Defined.

Lemma coordinate_fallback_only_for_click_witness :
  (exists outcome w',
     mouse_click 0%nat 10 20 (page_with []) = (outcome, w') /\
     dispatch click_go (ready declared_five 1 [])
     = (Ok tt,
        extend (snd (waitForElement (JStr "#go")
                       (snd (ensurePageReady (ready declared_five 1 [])))))
          w'
          (queries ["#go"; "#go"; ".btn.primary"; "button"]
           ++ [ Invoke (CMouseClick 10 20);
                ConsoleLog match outcome with
                           | Ok _ => MClickedAt 10 20
                           | Throw message => MCouldNotClickAt message
                           end ])))
  /\ dispatch click_svg (ready declared_five 1 [])
     = (Throw "interaction.className?.split is not a function",
        snd (waitForElement (JStr "#icon")
               (snd (ensurePageReady (ready declared_five 1 [])))))
  /\ dispatch (with_coordinates (Some (30, 40)) (input_name (JStr "Ann")))
       (ready declared_five 1 [])
     = (Ok tt,
        extend (snd (waitForElement (JStr "#name")
                       (snd (ensurePageReady (ready declared_five 1 [])))))
          (page_with [])
          (queries ["#name"; "#name"; name_selector (JStr "name")]
           ++ [ConsoleLog (MCouldNotType (JStr "#name"))])).
Proof.
  split; [| split].
  - apply (proj1 (coordinate_fallback_only_for_click click_go
                    (ready declared_five 1 [])
                    (snd (ensurePageReady (ready declared_five 1 [])))
                    (snd (waitForElement (JStr "#go")
                            (snd (ensurePageReady (ready declared_five 1 [])))))
                    0%nat eq_refl eq_refl eq_refl)
             10 20 ["#go"; "#go"; ".btn.primary"; "button"]);
      reflexivity.
  - destruct (coordinate_fallback_only_for_click click_svg
                (ready declared_five 1 [])
                (snd (ensurePageReady (ready declared_five 1 [])))
                (snd (waitForElement (JStr "#icon")
                        (snd (ensurePageReady (ready declared_five 1 [])))))
                0%nat eq_refl eq_refl eq_refl)
      as (_ & Hlist & Hthrows & _).
    apply Hthrows; [reflexivity |].
    apply (Hlist true "[object Object]"). reflexivity.
  - destruct (coordinate_fallback_only_for_click (input_name (JStr "Ann"))
                (ready declared_five 1 [])
                (snd (ensurePageReady (ready declared_five 1 [])))
                (snd (waitForElement (JStr "#name")
                        (snd (ensurePageReady (ready declared_five 1 [])))))
                0%nat eq_refl eq_refl eq_refl)
      as (_ & _ & _ & Hinput).
    apply Hinput.
    + left. reflexivity.
    + reflexivity.
Defined.

(** The click on an svg element as the recorder writes it, on a page where
    its selector matches nothing: no candidate is asked for, the mouse is
    not clicked at the coordinates the record carries, and the handler logs
    the error. *)
Example svg_click_misses_coordinate_fallback :
  coordinates click_svg = Some (10, 20)
  /\ trace (snd (playInteraction click_svg 0 (ready declared_five 1 [])))
     = [ ConsoleLog (MPlaying 1 5 "click" (JStr "http://a/"));
         Invoke CUrl; Invoke CUrl; Invoke CEvaluate;
         Invoke (CWaitForSelector (JStr "#icon") 5000);
         ConsoleLog (MWarnNotFound (JStr "#icon"));
         ConsoleError
           (MErrorPlaying 1 "interaction.className?.split is not a function") ]
  /\ asked (trace (snd (playInteraction click_svg 0 (ready declared_five 1 [])))) = []
  /\ filter is_mouse_click
       (trace (snd (playInteraction click_svg 0 (ready declared_five 1 [])))) = [].
Proof. repeat split; vm_compute; reflexivity. Qed.

Lemma checkbox_clicks_only_on_difference_witness :
  (dispatch (checkbox_agree true) (ready declared_five 1 [check_box true])
   = (Ok tt,
      extend (snd (waitForElement (JStr "#agree") (ready declared_five 1 [check_box true])))
        (page_with [check_box true])
        (checks ["#agree"]))
   /\ filter is_click (checks ["#agree"]) = [])
  /\ dispatch (checkbox_agree true) (ready declared_five 1 [check_box false])
     = (Ok tt,
        extend (snd (waitForElement (JStr "#agree") (ready declared_five 1 [check_box false])))
          (page_with [check_box true])
          (checks ["#agree"]
           ++ [Invoke (CClick "#agree"); ConsoleLog (MToggled true "#agree")])).
Proof.
  split.
  - apply (checkbox_clicks_only_on_difference (checkbox_agree true)
             (ready declared_five 1 [check_box true])
             (snd (waitForElement (JStr "#agree") (ready declared_five 1 [check_box true])))
             0%nat ["#agree"] "#agree" (Some true) (page_with [check_box true])
             eq_refl eq_refl eq_refl eq_refl).
    reflexivity.
  - apply (checkbox_clicks_only_on_difference (checkbox_agree true)
             (ready declared_five 1 [check_box false])
             (snd (waitForElement (JStr "#agree") (ready declared_five 1 [check_box false])))
             0%nat ["#agree"] "#agree" (Some false) (page_with [check_box false])
             eq_refl eq_refl eq_refl eq_refl);
      [discriminate | reflexivity].
Defined.

Lemma startPlayback_fatal_preconditions_witness :
  (exists message,
     startPlayback (constructor (page_with [])) = (Throw message, constructor (page_with [])))
  /\ exists message s' d,
       startPlayback (holding with_null_entry 1 []) = (Throw message, s') /\
       trace s' = trace (holding with_null_entry 1 [])
                  ++ ConsoleLog (MStarting 2 1) :: ConsoleLog MPressCtrlC :: d.
Proof.
  split.
  - apply (proj1 (startPlayback_fatal_preconditions
                    (constructor (host := toy_host) (page_with [])))).
    left. reflexivity.
  - destruct (startPlayback_fatal_preconditions (holding with_null_entry 1 []))
      as (_ & _ & Hshape).
    apply (Hshape with_null_entry eq_refl); [discriminate |].
    right. exists [None; Some click_go]. split; [reflexivity | left; reflexivity].
Defined.

(** A loaded value without an [interactions] array, with a browser attached:
    neither precondition fails and the run throws all the same. *)
Lemma unchecked_shape_counterexample :
  JSON_parse "shapeless" = Ok (Some shapeless)
  /\ recording (holding shapeless 1 []) <> None
  /\ browser (holding shapeless 1 []) <> None
  /\ fst (startPlayback (holding shapeless 1 []))
     = Throw "Cannot read properties of undefined (reading 'length')"
  /\ trace (snd (startPlayback (holding shapeless 1 [])))
     = [ConsoleLog (MStarting 2 1); ConsoleLog MPressCtrlC].
Proof.
  split; [| split; [| split; [| split]]];
    try discriminate; vm_compute; reflexivity.
Qed.

(** The field held [old]; the event carries no value; after the event the
    field is empty. *)
Lemma empty_input_still_clears_witness :
  dispatch (input_name JNull) (ready declared_five 1 [text_field "old"])
  = (Ok tt,
     extend (snd (waitForElement (JStr "#name")
                    (snd (ensurePageReady (ready declared_five 1 [text_field "old"])))))
       {| location := "http://a/"; document := [text_field EmptyString];
          files := [("rec.json", "declared_five"); ("null.json", "null")];
          focused := Some 0%nat; control_down := false; selected_all := false |}
       (queries ["#name"]
        ++ [ Invoke (CFocus "#name"); Invoke (CKeyDown "Control");
             Invoke (CKeyPress "KeyA"); Invoke (CKeyUp "Control");
             Invoke (CKeyPress "Backspace") ])).
Proof.
  apply (empty_input_still_clears (input_name JNull)
           (ready declared_five 1 [text_field "old"])
           (snd (ensurePageReady (ready declared_five 1 [text_field "old"])))
           (snd (waitForElement (JStr "#name")
                   (snd (ensurePageReady (ready declared_five 1 [text_field "old"])))))
           0%nat ["#name"] "#name"
           (page_with [text_field "old"])
           (with_keys (Some 0%nat) false false (page_with [text_field "old"]))
           (with_keys (Some 0%nat) true false (page_with [text_field "old"]))
           (with_keys (Some 0%nat) true true (page_with [text_field "old"]))
           (with_keys (Some 0%nat) false true (page_with [text_field "old"]))).
  - left. reflexivity.
  - right. left. reflexivity.
  - reflexivity.
  - reflexivity.
  - reflexivity.
  - reflexivity.
  - reflexivity.
  - reflexivity.
  - reflexivity.
  - reflexivity.
  - reflexivity.
Defined.

(** * Concrete runs of the other methods and of the command line *)

Import ToyCli.


Lemma ensurePageReady_reacquires_last_page_witness :
  page (snd (@ensurePageReady Stale.stale_host (Stale.holding_stale declared_five [])))
  = Some 1%nat.
Proof.
  destruct (ensurePageReady_reacquires_last_page (host := Stale.stale_host)
              (Stale.holding_stale declared_five []) 0%nat eq_refl) as (_ & H).
  specialize (H "Attempted to use detached Frame" (page_with []) tt
                (Ok [0%nat; 1%nat]) (page_with []) eq_refl eq_refl eq_refl).
  cbv beta iota in H. destruct H as (_ & _ & H).
  apply (H [0%nat] 1%nat). reflexivity.
Defined.

Lemma prepare_page_reacquires_last_page_witness :
  @prepare_page Stale.stale_host click_go (Stale.holding_stale declared_five [])
  = (Ok tt,
     @set_page Stale.stale_host (Some 1%nat)
       (@extend Stale.stale_host (Stale.holding_stale declared_five []) (page_with [])
          [Invoke CUrl; ConsoleLog MRefreshDetached; Invoke CPages; Invoke CUrl])).
Proof.
  apply (prepare_page_reacquires_last_page (host := Stale.stale_host) click_go
           (Stale.holding_stale declared_five []) 0%nat 1%nat tt [0%nat]
           "Attempted to use detached Frame" "http://a/"
           (page_with []) (page_with []) (page_with []));
    reflexivity.
Defined.

Lemma prepare_page_navigates_when_elsewhere_witness :
  prepare_page (navigate_to "http://b/") (ready declared_five 1 [])
  = (Ok tt,
     extend (ready declared_five 1 []) (with_location "http://b/" (page_with []))
       [ Invoke CUrl; Invoke CUrl; ConsoleLog (MNavigatingTo "http://b/");
         Invoke (CGoto "http://b/"); Sleep 1000 ]).
Proof.
  apply (proj2 (prepare_page_navigates_when_elsewhere (navigate_to "http://b/")
                  (ready declared_five 1 []) 0%nat "http://a/" "http://a/"
                  (page_with []) (page_with []) eq_refl eq_refl eq_refl)
           "http://b/" (Ok tt) (with_location "http://b/" (page_with [])));
    try reflexivity; discriminate.
Defined.

Lemma playNavigation_goes_only_when_elsewhere_witness :
  playNavigation (navigate_to "http://b/") (ready declared_five 1 [])
  = (Ok tt,
     extend (ready declared_five 1 []) (with_location "http://b/" (page_with []))
       [ Invoke CUrl; Invoke (CGoto "http://b/"); Sleep 1500;
         ConsoleLog (MNavigated "http://b/") ]).
Proof.
  assert (Hfull : "http://b/" <> EmptyString) by discriminate.
  assert (Helsewhere : "http://b/" <> "http://a/") by discriminate.
  destruct (proj2 (playNavigation_goes_only_when_elsewhere (navigate_to "http://b/")
                     (ready declared_five 1 []))
              0%nat "http://b/" "http://a/" (page_with []) eq_refl Hfull eq_refl eq_refl)
    as (_ & H).
  apply (H Helsewhere (Ok tt) (with_location "http://b/" (page_with []))).
  reflexivity.
Defined.

Lemma dispatch_skips_unsupported_kind_witness :
  dispatch hover_menu (ready declared_five 1 [])
  = (Ok tt, add_event (ConsoleLog (MUnsupported "hover")) (ready declared_five 1 [])).
Proof.
  apply (dispatch_skips_unsupported_kind hover_menu (ready declared_five 1 [])).
  intros H. repeat (destruct H as [H | H]; [discriminate H |]). exact H.
Defined.

Lemma playRange_sets_value_and_notifies_witness :
  dispatch range_volume (ready declared_five 1 [slider])
  = (Ok tt,
     extend (snd (waitForElement (JStr "#volume") (ready declared_five 1 [slider])))
       (element_dispatchEvent 0%nat "change"
          (element_dispatchEvent 0%nat "input"
             (element_set_value 0%nat (JStr "70") (page_with [slider]))))
       [ Invoke CEvaluate;
         Dom (DSetValue "#volume" (JStr "70"));
         Dom (DDispatch "#volume" "input");
         Dom (DDispatch "#volume" "change");
         ConsoleLog (MSetRange (JStr "70") (JStr "#volume")) ]).
Proof.
  apply (proj1 (playRange_sets_value_and_notifies range_volume
                  (ready declared_five 1 [slider])
                  (snd (waitForElement (JStr "#volume") (ready declared_five 1 [slider])))
                  0%nat eq_refl eq_refl eq_refl)
           (page_with [slider]) 0%nat);
    reflexivity.
Defined.

Lemma playChange_sets_value_off_select_witness :
  dispatch change_country (ready declared_five 1 [country_field])
  = (Ok tt,
     extend (snd (waitForElement (JStr "#country") (ready declared_five 1 [country_field])))
       (element_dispatchEvent 0%nat "change"
          (element_set_value 0%nat (JStr "USA") (page_with [country_field])))
       [ Invoke CEvaluate;
         Dom (DSetValue "#country" (JStr "USA"));
         Dom (DDispatch "#country" "change");
         ConsoleLog (MChanged (JStr "USA") "#country") ]).
Proof.
  apply (playChange_sets_value_off_select change_country
           (ready declared_five 1 [country_field])
           (snd (waitForElement (JStr "#country") (ready declared_five 1 [country_field])))
           0%nat "#country" ["#country"; name_selector (JStr "country")]
           (page_with [country_field]) 0%nat (or_introl eq_refl));
    try reflexivity; discriminate.
Defined.

Lemma playChange_selects_first_accepted_witness :
  dispatch select_country (ready declared_five 1 [country_select])
  = (Ok tt,
     extend (snd (waitForElement (JStr "#country") (ready declared_five 1 [country_select])))
       (page_with [set_value "USA" country_select])
       (selects (JStr "USA") ["#country"]
        ++ [ConsoleLog (MSelected (JStr "USA") "#country")]))
  /\ dispatch select_country (ready declared_five 1 [])
     = (Throw "Could not change element: #country",
        extend (snd (waitForElement (JStr "#country") (ready declared_five 1 [])))
          (page_with [])
          (selects (JStr "USA") (playInput_selectors select_country))).
Proof.
  split.
  - apply (playChange_selects_first_accepted select_country
             (ready declared_five 1 [country_select])
             (snd (waitForElement (JStr "#country") (ready declared_five 1 [country_select])))
             0%nat ["#country"] (Some "#country")
             (page_with [set_value "USA" country_select])
             (or_introl eq_refl) eq_refl eq_refl eq_refl).
    vm_compute. reflexivity.
  - apply (playChange_selects_first_accepted select_country
             (ready declared_five 1 [])
             (snd (waitForElement (JStr "#country") (ready declared_five 1 [])))
             0%nat (playInput_selectors select_country) None (page_with [])
             (or_introl eq_refl) eq_refl eq_refl eq_refl).
    vm_compute. reflexivity.
Defined.

Lemma playCheckbox_raises_when_unresolved_witness :
  dispatch (checkbox_agree true) (ready declared_five 1 [])
  = (Throw "Could not toggle checkbox: #agree",
     extend (snd (waitForElement (JStr "#agree") (ready declared_five 1 [])))
       (page_with []) (checks (playInput_selectors (checkbox_agree true)))).
Proof.
  apply (playCheckbox_raises_when_unresolved (checkbox_agree true)
           (ready declared_five 1 [])
           (snd (waitForElement (JStr "#agree") (ready declared_five 1 [])))
           0%nat (playInput_selectors (checkbox_agree true)) (page_with [])
           eq_refl eq_refl eq_refl).
  vm_compute. reflexivity.
Defined.

Lemma playInput_clears_then_types_witness :
  dispatch (input_name (JStr "Ann")) (ready declared_five 1 [text_field "old"])
  = (Ok tt,
     extend (snd (waitForElement (JStr "#name")
                    (snd (ensurePageReady (ready declared_five 1 [text_field "old"])))))
       (with_keys (Some 0%nat) false false (page_with [text_field "Ann"]))
       (queries ["#name"]
        ++ [ Invoke (CFocus "#name"); Invoke (CKeyDown "Control");
             Invoke (CKeyPress "KeyA"); Invoke (CKeyUp "Control");
             Invoke (CKeyPress "Backspace"); Invoke (CType "#name" "Ann");
             ConsoleLog (MTyped "Ann" "#name") ])).
Proof.
  apply (playInput_clears_then_types (input_name (JStr "Ann")) "Ann"
           (ready declared_five 1 [text_field "old"])
           (snd (ensurePageReady (ready declared_five 1 [text_field "old"])))
           (snd (waitForElement (JStr "#name")
                   (snd (ensurePageReady (ready declared_five 1 [text_field "old"])))))
           0%nat ["#name"] "#name"
           (page_with [text_field "old"])
           (with_keys (Some 0%nat) false false (page_with [text_field "old"]))
           (with_keys (Some 0%nat) true false (page_with [text_field "old"]))
           (with_keys (Some 0%nat) true true (page_with [text_field "old"]))
           (with_keys (Some 0%nat) false true (page_with [text_field "old"]))
           (with_keys (Some 0%nat) false false (page_with [text_field EmptyString]))
           (with_keys (Some 0%nat) false false (page_with [text_field "Ann"]))
           (or_introl eq_refl) eq_refl);
    try (vm_compute; reflexivity); discriminate.
Defined.

Lemma pace_needs_two_timestamps_witness :
  pace None (input_name (JStr "Ann")) (ready declared_five 1 [])
  = (Ok tt, ready declared_five 1 []).
Proof.
  apply (pace_needs_two_timestamps None (input_name (JStr "Ann"))
           (ready declared_five 1 [])).
  left. reflexivity.
Defined.

Lemma startPlayback_waits_between_events_witness :
  exists s' d1 d2,
    startPlayback (ready declared_five (1 # 10) [text_field "old"]) = (Ok tt, s') /\
    trace s'
    = trace (ready declared_five (1 # 10) [text_field "old"]) ++ d1
      ++ [ ConsoleLog
             (MWaiting
                (Math_round
                   (calculateDelay (ready declared_five (1 # 10) [text_field "old"])
                      1000 1020)));
           Sleep (calculateDelay (ready declared_five (1 # 10) [text_field "old"])
                    1000 1020);
           ConsoleLog (MPlaying 2 5 "input" (JStr "http://a/")) ]
      ++ d2 /\
    attempts d1 = numbered 1 [click_go] /\
    attempts d2 = numbered 3 [].
Proof.
  apply (startPlayback_waits_between_events declared_five
           (ready declared_five (1 # 10) [text_field "old"])
           [] [] click_go (input_name (JStr "Ann")) 1000 1020 eq_refl);
    [ discriminate
    | reflexivity
    | reflexivity
    | reflexivity
    | intros H; vm_compute in H; discriminate H
    | intros H; vm_compute in H; discriminate H
    | vm_compute; reflexivity ].
Defined.

Lemma startPlayback_is_repeatable_witness :
  exists s1 d1 s2 d2,
    startPlayback (ready declared_five 1 [text_field "old"]) = (Ok tt, s1) /\
    recording s1 = Some (documented declared_five) /\
    browser s1 = browser (ready declared_five 1 [text_field "old"]) /\
    playbackSpeed s1 = playbackSpeed (ready declared_five 1 [text_field "old"]) /\
    trace s1 = trace (ready declared_five 1 [text_field "old"]) ++ d1 /\
    startPlayback s1 = (Ok tt, s2) /\
    trace s2 = trace s1 ++ d2 /\
    attempts d2 = attempts d1 /\
    attempts d1 = numbered 1 (interactions declared_five).
Proof.
  apply (startPlayback_is_repeatable declared_five
           (ready declared_five 1 [text_field "old"]) eq_refl).
  discriminate.
Defined.





(** A run started from the command line at twice the speed announces that
    speed, and one started with a speed of zero announces nothing. *)
Example main_announces_the_speed_given :
  announced_speeds
    (trace (@engine toy_host (snd (@main toy_host toy_launcher ["rec.json"; "--speed"; "2"] (page_with [text_field "old"])))))
  = [2]
  /\ @main toy_host toy_launcher ["rec.json"; "--speed"; "0"] (page_with [text_field "old"])
     = (Exited 1,
        @mkProcess toy_host (@constructor toy_host (page_with [text_field "old"]))
          [Stderr "Error: Speed must be a positive number"]).
Proof. split; vm_compute; reflexivity. Qed.

Lemma playSubmit_submits_form_witness :
  dispatch submit_signup (ready declared_five 1 [signup_form])
  = (Ok tt,
     extend (snd (waitForElement (JStr "#signup") (ready declared_five 1 [signup_form])))
       (page_with [signup_form])
       [Invoke CEvaluate; Dom (DSubmit "#signup"); ConsoleLog (MSubmitted (JStr "#signup"))]).
Proof.
  apply (proj1 (playSubmit_submits_form submit_signup
                  (ready declared_five 1 [signup_form])
                  (snd (waitForElement (JStr "#signup") (ready declared_five 1 [signup_form])))
                  0%nat eq_refl eq_refl eq_refl)
           (page_with [signup_form]) 0%nat);
    reflexivity.
Defined.

Lemma initialize_keeps_browser_when_page_fails_witness :
  exists ps',
    @initialize toy_host pageless_launcher true
      (@mkProcess toy_host (@constructor toy_host (page_with [])) [])
    = (Throw "Protocol error (Target.createTarget): Target closed", ps') /\
    browser (@engine toy_host ps') = Some tt /\
    page (@engine toy_host ps') = None /\
    @journal toy_host ps'
    = [Stdout "Launching browser for playback..."; Launch true; NewPage] /\
    exists j,
      @journal toy_host (snd (@stop toy_host pageless_launcher ps'))
      = @journal toy_host ps' ++ Close :: j.
Proof.
  apply (initialize_keeps_browser_when_page_fails (host := toy_host)
           (launcher := pageless_launcher) true
           (@mkProcess toy_host (@constructor toy_host (page_with [])) [])
           tt (page_with []) (page_with [])
           "Protocol error (Target.createTarget): Target closed");
    reflexivity.
Defined.

Lemma stop_leaves_browser_attached_witness :
  exists ps',
    @stop toy_host toy_launcher (@mkProcess toy_host (ready declared_five 1 []) [])
    = (Ok tt, ps') /\
    browser (@engine toy_host ps') = Some tt /\
    @journal toy_host ps' = [Close; Stdout "Browser closed"] /\
    exists j,
      @journal toy_host (snd (@stop toy_host toy_launcher ps'))
      = @journal toy_host ps' ++ Close :: j.
Proof.
  apply (stop_leaves_browser_attached (host := toy_host) (launcher := toy_launcher)
           (@mkProcess toy_host (ready declared_five 1 []) []) tt (page_with []));
    reflexivity.
Defined.
